(** * Image Factory: prompt synthesis, region selection and request lifecycle

    A shallow embedding of [src/App.tsx], [src/services/geminiService.ts]
    and [src/constants/editPresets.ts].  [src/App.tsx] holds two revisions
    of the component; the later one, with detection, selection, presets and
    the compositor, is the one embedded.

    ECMAScript numbers are IEEE-754 binary64 values ([spec_float] with
    [prec = 53], [emax = 1024]) and the built-ins the program calls
    (toFixed, trim, split, join, JSON.parse, JSON.stringify) follow
    ECMA-262.  Strings are UTF-8 byte strings.  React state is a record
    updated by the setters a handler calls; a handler that awaits the
    backend is the request it sends together with the continuation run when
    the request settles.  The two collaborators imported from outside
    these files, fileToBase64 and compositeImages, are promises of a string
    settled by their own modules.  Logging to the console is left out, and
    so is handleDetectText, which calls a detectText that
    geminiService.ts does not define. *)

From Stdlib Require Import ZArith NArith PArith List String Ascii Bool Lia.
From Stdlib Require Import QArith Qfield Lqa.
From Stdlib Require Import Floats.SpecFloat Numbers.DecimalString DecimalPos DecimalN.
Import ListNotations.

Local Open Scope string_scope.
Local Open Scope Z_scope.

(* ================================================================== *)
(** * ECMAScript runtime: numbers *)
(* ================================================================== *)

Module JS.

(** The Number type: binary64. *)
Definition number := spec_float.
Definition prec : Z := 53.
Definition emax : Z := 1024.

Definition is_finite (x : number) : bool :=
  match x with
  | S754_zero _ | S754_finite _ _ _ => true
  | _ => false
  end.

(** [x === y] on numbers, [x < y], and the arithmetic operators. *)
Definition strict_eq (x y : number) : bool := SFeqb x y.
Definition lt (x y : number) : bool := SFltb x y.
Definition le (x y : number) : bool := SFleb x y.
Definition div (x y : number) : number := SFdiv prec emax x y.
Definition mul (x y : number) : number := SFmul prec emax x y.
Definition sub (x y : number) : number := SFsub prec emax x y.

(** The Number value of the decimal [(-1)^neg * d * 10^e10]: the binary64
    nearest to it, ties to even (numeric literals, JSON numbers). *)
Definition Number_of_decimal (neg : bool) (d : N) (e10 : Z) : number :=
  match d with
  | N0 => S754_zero neg
  | Npos p =>
      match e10 with
      | Zneg k =>
          let '(mz, ez, lz) :=
            SFdiv_core_binary prec emax (Zpos p) 0 (Zpos (10 ^ k)) 0 in
          binary_round_aux prec emax neg mz ez lz
      | _ => binary_round prec emax neg (p * Z.to_pos (10 ^ e10)) 0
      end
  end.

(** Number of an integer (array lengths, DOM pixel sizes). *)
Definition Number_of_Z (z : Z) : number :=
  binary_normalize prec emax z 0 false.

(** ** Decimal digits *)

Definition digits_of_N (n : N) : string :=
  NilEmpty.string_of_uint (N.to_uint n).

Definition is_digit (c : ascii) : bool :=
  let n := nat_of_ascii c in (48 <=? n)%nat && (n <=? 57)%nat.

Fixpoint all_digits (s : string) : bool :=
  match s with
  | EmptyString => true
  | String c r => is_digit c && all_digits r
  end.

Fixpoint zeros (n : nat) : string :=
  match n with
  | O => ""
  | S k => String "0" (zeros k)
  end.

(** The first [n] code units of [s], and the others. *)
Fixpoint split_at (n : nat) (s : string) : string * string :=
  match n, s with
  | S k, String c r => let '(a, b) := split_at k r in (String c a, b)
  | _, _ => ("", s)
  end.

(** ** Number.prototype.toFixed *)

(** The real number denoted by a finite positive [m * 2^e] is at least
    [10^21]. *)
Definition ge_1e21 (m : positive) (e : Z) : bool :=
  match e with
  | Zneg k => 10 ^ 21 * 2 ^ Zpos k <=? Zpos m
  | _ => 10 ^ 21 <=? Zpos m * 2 ^ e
  end.

(** The integer [n] for which [n / 10^f - m * 2^e] is as close to zero as
    possible, the larger one if there are two. *)
Definition nearest_scaled (f : nat) (m : positive) (e : Z) : N :=
  let sc := Zpos m * 10 ^ Z.of_nat f in
  match e with
  | Zneg k => Z.to_N ((2 * sc + 2 ^ Zpos k) / 2 ^ (Zpos k + 1))
  | _ => Z.to_N (sc * 2 ^ e)
  end.

(** Steps 11.a to 11.c of toFixed: the digits of [n] with the decimal
    point [f] places from the right. *)
Definition fixed_digits (f : nat) (n : N) : string :=
  let m := digits_of_N n in
  match f with
  | O => m
  | _ =>
      let k := String.length m in
      let m := if (k <=? f)%nat then zeros (f + 1 - k) ++ m else m in
      let k := String.length m in
      let '(a, b) := split_at (k - f) m in
      a ++ "." ++ b
  end.

(** Number::toString(x, 10).  The shortest-round-trip digit selection of
    ECMA-262 is not reproduced; the development depends on it only through
    the two properties [Number_toString_distinguishes] and
    [Number_toString_charset] stated where they are used. *)
Class NumberToString := Number_toString : number -> string.

Section ToFixed.
Context {NTS : NumberToString}.

(** [x.toFixed(f)] for [0 <= f <= 100]. *)
Definition toFixed (f : nat) (x : number) : string :=
  match x with
  | S754_nan | S754_infinity _ => Number_toString x
  | S754_zero _ => fixed_digits f 0
  | S754_finite s m e =>
      (if s then "-" else "") ++
      (if ge_1e21 m e then Number_toString (S754_finite false m e)
       else fixed_digits f (nearest_scaled f m e))
  end.
End ToFixed.


(* ================================================================== *)
(** * ECMAScript runtime: strings and JSON *)
(* ================================================================== *)

(** Strings are kept as UTF-8 byte strings. *)
Definition dquote : ascii := ascii_of_nat 34.
Definition chr (n : nat) : string := String (ascii_of_nat n) "".
Definition bytes (l : list nat) : string :=
  fold_right (fun n s => String (ascii_of_nat n) s) "" l.

Definition is_empty (s : string) : bool :=
  match s with EmptyString => true | _ => false end.

Fixpoint rev_string (s acc : string) : string :=
  match s with
  | EmptyString => acc
  | String c r => rev_string r (String c acc)
  end.

Fixpoint strip_prefix (p s : string) : option string :=
  match p, s with
  | EmptyString, _ => Some s
  | String a p', String b s' => if Ascii.eqb a b then strip_prefix p' s' else None
  | _, EmptyString => None
  end.

(** WhiteSpace and LineTerminator code points, as UTF-8. *)
Definition white_space : list string :=
  [ chr 9; chr 10; chr 11; chr 12; chr 13; chr 32;
    bytes [194; 160]; bytes [225; 154; 128];
    bytes [226; 128; 128]; bytes [226; 128; 129]; bytes [226; 128; 130];
    bytes [226; 128; 131]; bytes [226; 128; 132]; bytes [226; 128; 133];
    bytes [226; 128; 134]; bytes [226; 128; 135]; bytes [226; 128; 136];
    bytes [226; 128; 137]; bytes [226; 128; 138];
    bytes [226; 128; 168]; bytes [226; 128; 169]; bytes [226; 128; 175];
    bytes [226; 129; 159]; bytes [227; 128; 128]; bytes [239; 187; 191] ]%nat.

Fixpoint strip_any (tokens : list string) (s : string) : option string :=
  match tokens with
  | [] => None
  | t :: ts =>
      match strip_prefix t s with
      | Some r => Some r
      | None => strip_any ts s
      end
  end.

Fixpoint trim_start_with (tokens : list string) (fuel : nat) (s : string) : string :=
  match fuel with
  | O => s
  | S k =>
      match strip_any tokens s with
      | Some r => trim_start_with tokens k r
      | None => s
      end
  end.

Definition trimStart (s : string) : string :=
  trim_start_with white_space (String.length s) s.

Definition trimEnd (s : string) : string :=
  let r := rev_string s "" in
  rev_string
    (trim_start_with (map (fun t => rev_string t "") white_space) (String.length r) r) "".

(** String.prototype.trim *)
Definition trim (s : string) : string := trimEnd (trimStart s).

(** String.prototype.split(sep) for a one-character separator. *)
Fixpoint split_on (sep : ascii) (s : string) (cur : string) : list string :=
  match s with
  | EmptyString => [rev_string cur ""]
  | String c r =>
      if Ascii.eqb c sep then rev_string cur "" :: split_on sep r ""
      else split_on sep r (String c cur)
  end.

Definition split (sep : ascii) (s : string) : list string := split_on sep s "".

(** Array.prototype.join *)
Fixpoint join (sep : string) (l : list string) : string :=
  match l with
  | [] => ""
  | [x] => x
  | x :: r => x ++ sep ++ join sep r
  end.

(** ** JSON values *)

#[local] Set Warnings "-register-all".

Inductive json : Type :=
| JNull
| JBool (b : bool)
| JNumber (x : number)
| JString (s : string)
| JArray (items : list json)
| JObject (members : list (string * json)).

(** A value read from a property: [None] is [undefined]. *)
Definition jsvalue := option json.

(** ToBoolean *)
Definition truthy (v : jsvalue) : bool :=
  match v with
  | None => false
  | Some JNull => false
  | Some (JBool b) => b
  | Some (JNumber x) =>
      match x with
      | S754_zero _ | S754_nan => false
      | _ => true
      end
  | Some (JString s) => negb (is_empty s)
  | Some (JArray _) | Some (JObject _) => true
  end.

Fixpoint assoc (k : string) (l : list (string * json)) : jsvalue :=
  match l with
  | [] => None
  | (k', v) :: r => if String.eqb k k' then Some v else assoc k r
  end.

(** CreateDataProperty on an object built by JSON.parse: a repeated key
    keeps its place and takes the later value. *)
Fixpoint set_member (k : string) (v : json) (l : list (string * json))
  : list (string * json) :=
  match l with
  | [] => [(k, v)]
  | (k', v') :: r =>
      if String.eqb k k' then (k', v) :: r else (k', v') :: set_member k v r
  end.

(** What a statement can complete with: a value, or a thrown exception.
    [ErrorObject m] is an instance of Error with message [m] (TypeError and
    SyntaxError included); [NonError] is any other thrown value. *)
Inductive thrown : Type :=
| ErrorObject (message : string)
| NonError.

Inductive completion (A : Type) : Type :=
| Normal (a : A)
| Throw (e : thrown).
Arguments Normal {A} a.
Arguments Throw {A} e.

(** [v.key] for a key that no built-in prototype defines: the own property
    of an object, [undefined] on any other value, a TypeError on [null]. *)
Definition get_property (v : json) (key : string) : completion jsvalue :=
  match v with
  | JNull => Throw (ErrorObject "Cannot read properties of null")
  | JObject members => Normal (assoc key members)
  | _ => Normal None
  end.

(** ** JSON.parse *)

Definition is_json_ws (c : ascii) : bool :=
  let n := nat_of_ascii c in
  ((n =? 32) || (n =? 9) || (n =? 10) || (n =? 13))%nat.

Fixpoint skip_ws (s : string) : string :=
  match s with
  | String c r => if is_json_ws c then skip_ws r else s
  | EmptyString => s
  end.

(** The longest run of decimal digits at the head of [s]. *)
Fixpoint take_digits (s : string) : string * string :=
  match s with
  | String c r =>
      if is_digit c then let '(d, r') := take_digits r in (String c d, r')
      else ("", s)
  | EmptyString => ("", s)
  end.

Fixpoint N_of_digits (s : string) (acc : N) : N :=
  match s with
  | String c r => N_of_digits r (10 * acc + (N.of_nat (nat_of_ascii c) - 48))%N
  | EmptyString => acc
  end.

Definition hex_value (c : ascii) : option N :=
  let n := nat_of_ascii c in
  if ((48 <=? n) && (n <=? 57))%nat then Some (N.of_nat n - 48)%N
  else if ((65 <=? n) && (n <=? 70))%nat then Some (N.of_nat n - 55)%N
  else if ((97 <=? n) && (n <=? 102))%nat then Some (N.of_nat n - 87)%N
  else None.

Definition hex4 (a b c d : ascii) : option N :=
  match hex_value a, hex_value b, hex_value c, hex_value d with
  | Some x, Some y, Some z, Some w => Some (((x * 16 + y) * 16 + z) * 16 + w)%N
  | _, _, _, _ => None
  end.

Definition byte_of_N (n : N) : ascii := ascii_of_N n.

Definition utf8 (cp : N) : string :=
  (if cp <? 128 then String (byte_of_N cp) ""
   else if cp <? 2048 then
     String (byte_of_N (192 + cp / 64)) (String (byte_of_N (128 + cp mod 64)) "")
   else if cp <? 65536 then
     String (byte_of_N (224 + cp / 4096))
       (String (byte_of_N (128 + (cp / 64) mod 64))
          (String (byte_of_N (128 + cp mod 64)) ""))
   else
     String (byte_of_N (240 + cp / 262144))
       (String (byte_of_N (128 + (cp / 4096) mod 64))
          (String (byte_of_N (128 + (cp / 64) mod 64))
             (String (byte_of_N (128 + cp mod 64)) ""))))%N.

Definition is_high_surrogate (u : N) : bool := ((55296 <=? u) && (u <=? 56319))%N.
Definition is_low_surrogate (u : N) : bool := ((56320 <=? u) && (u <=? 57343))%N.

(** The characters of a JSON string after its opening quote, up to and
    including the closing quote. *)
Fixpoint parse_chars (s : string) (acc : string) : option (string * string) :=
  match s with
  | EmptyString => None
  | String c r =>
      if Ascii.eqb c dquote then Some (rev_string acc "", r)
      else if Ascii.eqb c "\" then
        match r with
        | String e r1 =>
            let simple (b : string) := parse_chars r1 (rev_string b acc) in
            if Ascii.eqb e dquote then simple (chr 34)
            else if Ascii.eqb e "\" then simple (chr 92)
            else if Ascii.eqb e "/" then simple (chr 47)
            else if Ascii.eqb e "b" then simple (chr 8)
            else if Ascii.eqb e "f" then simple (chr 12)
            else if Ascii.eqb e "n" then simple (chr 10)
            else if Ascii.eqb e "r" then simple (chr 13)
            else if Ascii.eqb e "t" then simple (chr 9)
            else if Ascii.eqb e "u" then
              match r1 with
              | String h1 (String h2 (String h3 (String h4 r2))) =>
                  match hex4 h1 h2 h3 h4 with
                  | None => None
                  | Some u =>
                      let lone := parse_chars r2 (rev_string (utf8 u) acc) in
                      if is_high_surrogate u then
                        match r2 with
                        | String b1 (String b2 (String l1 (String l2 (String l3 (String l4 r3))))) =>
                            if Ascii.eqb b1 "\" && Ascii.eqb b2 "u" then
                              match hex4 l1 l2 l3 l4 with
                              | Some v =>
                                  if is_low_surrogate v then
                                    parse_chars r3
                                      (rev_string
                                         (utf8 (65536 + (u - 55296) * 1024 + (v - 56320))%N)
                                         acc)
                                  else lone
                              | None => lone
                              end
                            else lone
                        | _ => lone
                        end
                      else lone
                  end
              | _ => None
              end
            else None
        | EmptyString => None
        end
      else if (nat_of_ascii c <? 32)%nat then None
      else parse_chars r (String c acc)
  end.

(** A JSON number: an optional minus sign, an integer part without a
    leading zero, an optional fraction and an optional exponent. *)
Definition parse_number (s : string) : option (number * string) :=
  let '(neg, s1) :=
    match s with
    | String c r => if Ascii.eqb c "-" then (true, r) else (false, s)
    | EmptyString => (false, s)
    end in
  let int_part :=
    match s1 with
    | String c r =>
        if Ascii.eqb c "0" then Some ("0", r)
        else if is_digit c then Some (take_digits s1)
        else None
    | EmptyString => None
    end in
  match int_part with
  | None => None
  | Some (ip, s2) =>
      let frac :=
        match s2 with
        | String c r =>
            if Ascii.eqb c "." then
              let '(fp, r') := take_digits r in
              if is_empty fp then None else Some (fp, r')
            else Some ("", s2)
        | EmptyString => Some ("", s2)
        end in
      match frac with
      | None => None
      | Some (fp, s3) =>
          let expo :=
            match s3 with
            | String c r =>
                if Ascii.eqb c "e" || Ascii.eqb c "E" then
                  let '(eneg, r1) :=
                    match r with
                    | String sg r' =>
                        if Ascii.eqb sg "-" then (true, r')
                        else if Ascii.eqb sg "+" then (false, r')
                        else (false, r)
                    | EmptyString => (false, r)
                    end in
                  let '(ed, r2) := take_digits r1 in
                  if is_empty ed then None
                  else
                    let e := Z.of_N (N_of_digits ed 0) in
                    Some ((if eneg then - e else e), r2)
                else Some (0, s3)
            | EmptyString => Some (0, s3)
            end in
          match expo with
          | None => None
          | Some (e, s4) =>
              Some (Number_of_decimal neg (N_of_digits (ip ++ fp) 0)
                      (e - Z.of_nat (String.length fp)), s4)
          end
      end
  end.

Fixpoint parse_value (fuel : nat) (s : string) : option (json * string) :=
  match fuel with
  | O => None
  | S f =>
      match skip_ws s with
      | EmptyString => None
      | String c r as s' =>
          if Ascii.eqb c "[" then
            match skip_ws r with
            | String c' r' =>
                if Ascii.eqb c' "]" then Some (JArray [], r')
                else parse_elements f r []
            | EmptyString => None
            end
          else if Ascii.eqb c "{" then
            match skip_ws r with
            | String c' r' =>
                if Ascii.eqb c' "}" then Some (JObject [], r')
                else parse_members f r []
            | EmptyString => None
            end
          else if Ascii.eqb c dquote then
            match parse_chars r "" with
            | Some (str, r') => Some (JString str, r')
            | None => None
            end
          else
            match strip_prefix "null" s', strip_prefix "true" s', strip_prefix "false" s' with
            | Some r', _, _ => Some (JNull, r')
            | _, Some r', _ => Some (JBool true, r')
            | _, _, Some r' => Some (JBool false, r')
            | _, _, _ =>
                match parse_number s' with
                | Some (x, r') => Some (JNumber x, r')
                | None => None
                end
            end
      end
  end

with parse_elements (fuel : nat) (s : string) (acc : list json)
  : option (json * string) :=
  match fuel with
  | O => None
  | S f =>
      match parse_value f s with
      | None => None
      | Some (v, r) =>
          match skip_ws r with
          | String c r' =>
              if Ascii.eqb c "," then parse_elements f r' (acc ++ [v])
              else if Ascii.eqb c "]" then Some (JArray (acc ++ [v]), r')
              else None
          | EmptyString => None
          end
      end
  end

with parse_members (fuel : nat) (s : string) (acc : list (string * json))
  : option (json * string) :=
  match fuel with
  | O => None
  | S f =>
      match skip_ws s with
      | String q r0 =>
          if Ascii.eqb q dquote then
            match parse_chars r0 "" with
            | None => None
            | Some (k, r1) =>
                match skip_ws r1 with
                | String c r2 =>
                    if Ascii.eqb c ":" then
                      match parse_value f r2 with
                      | None => None
                      | Some (v, r3) =>
                          match skip_ws r3 with
                          | String c' r4 =>
                              if Ascii.eqb c' "," then parse_members f r4 (set_member k v acc)
                              else if Ascii.eqb c' "}" then Some (JObject (set_member k v acc), r4)
                              else None
                          | EmptyString => None
                          end
                      end
                    else None
                | EmptyString => None
                end
            end
          else None
      | EmptyString => None
      end
  end.

(** [JSON.parse(text)]: [None] is a SyntaxError. *)
Definition JSON_parse (text : string) : option json :=
  match parse_value (2 * String.length text + 2) text with
  | Some (v, r) => if is_empty (skip_ws r) then Some v else None
  | None => None
  end.

(** A numeric literal of the source text or of a JSON document. *)
Definition Number_literal (lit : string) : number :=
  match parse_number lit with
  | Some (x, _) => x
  | None => S754_nan
  end.

(** ** JSON.stringify *)

Definition hex_digit (n : N) : ascii :=
  if (n <? 10)%N then ascii_of_N (48 + n) else ascii_of_N (87 + n).

(** The escape [\uXXXX] of a code unit, in lower case. *)
Definition unicode_escape (u : N) : string :=
  "\u" ++ String (hex_digit (u / 4096)) (String (hex_digit ((u / 256) mod 16))
            (String (hex_digit ((u / 16) mod 16)) (String (hex_digit (u mod 16)) ""))).

Definition escape_char (c : ascii) : string :=
  let n := N_of_ascii c in
  if Ascii.eqb c dquote then String "\" (String dquote "")
  else if Ascii.eqb c "\" then "\\"
  else if (n =? 8)%N then "\b"
  else if (n =? 12)%N then "\f"
  else if (n =? 10)%N then "\n"
  else if (n =? 13)%N then "\r"
  else if (n =? 9)%N then "\t"
  else if (n <? 32)%N then unicode_escape n
  else String c "".

(** The three bytes that stand for a surrogate code unit without its
    pair, as parse_chars leaves one. *)
Definition is_lone_surrogate (c1 c2 : ascii) : bool :=
  ((N_of_ascii c1 =? 237) && (160 <=? N_of_ascii c2))%N.

Fixpoint quote_chars (s : string) : string :=
  match s with
  | EmptyString => EmptyString
  | String c r =>
      match r with
      | String c2 (String c3 r') =>
          if is_lone_surrogate c c2 then
            unicode_escape ((N_of_ascii c - 224) * 4096 + (N_of_ascii c2 - 128) * 64 +
                            (N_of_ascii c3 - 128))%N ++ quote_chars r'
          else escape_char c ++ quote_chars r
      | _ => escape_char c ++ quote_chars r
      end
  end.

Definition QuoteJSONString (s : string) : string :=
  String dquote (quote_chars s ++ String dquote "").

(** An array index: a canonical numeric string below 2^32 - 1. *)
Definition array_index (k : string) : option N :=
  match k with
  | EmptyString => None
  | String c r =>
      if all_digits k && (negb (Ascii.eqb c "0") || is_empty r) then
        let n := N_of_digits k 0 in
        if (n <=? 4294967294)%N then Some n else None
      else None
  end.

Fixpoint insert_index {A : Type} (n : N) (x : A) (l : list (N * A)) : list (N * A) :=
  match l with
  | [] => [(n, x)]
  | (m, y) :: r => if (n <? m)%N then (n, x) :: l else (m, y) :: insert_index n x r
  end.

(** OrdinaryOwnPropertyKeys on an object JSON.parse built: the array
    indices in ascending order, then the other keys in the order they
    were created. *)
Definition own_order {A : Type} (members : list (string * A)) : list (string * A) :=
  let indices :=
    fold_left (fun acc member =>
                 match array_index (fst member) with
                 | Some n => insert_index n member acc
                 | None => acc
                 end) members [] in
  (map snd indices ++
   filter (fun member => match array_index (fst member) with
                         | Some _ => false
                         | None => true
                         end) members)%list.

Section Stringify.
Context {NTS : NumberToString}.

(** SerializeJSONProperty on a Number: a finite one by Number::toString,
    NaN and the infinities as [null]. *)
Definition JSON_stringify_number (x : number) : string :=
  if is_finite x then Number_toString x else "null".

(** [JSON.stringify(v)] on a value JSON.parse built, without a replacer
    or a gap. *)
Fixpoint JSON_stringify (v : json) : string :=
  match v with
  | JNull => "null"
  | JBool b => if b then "true" else "false"
  | JNumber x => JSON_stringify_number x
  | JString s => QuoteJSONString s
  | JArray items => "[" ++ join "," (map JSON_stringify items) ++ "]"
  | JObject members =>
      "{" ++
      join "," (map (fun member => QuoteJSONString (fst member) ++ ":" ++ snd member)
                    (own_order (map (fun member => (fst member, JSON_stringify (snd member)))
                                    members))) ++
      "}"
  end.

End Stringify.

End JS.

Import JS.


(* ================================================================== *)
(** * src/services/geminiService.ts *)
(* ================================================================== *)

Module GeminiService.

(** ** The generateContent call of the SDK client *)

Inductive RequestPart : Type :=
| InlineData (data : option string) (mimeType : string)
| Text (text : string).

Inductive RequestConfig : Type :=
| ResponseModalitiesImage
| ResponseJsonObjectDetectionSchema.

Record GenerateContentRequest : Type := {
  model : string;
  contents : list RequestPart;
  config : RequestConfig
}.

(** The response, every field optional as the SDK declares it. *)
Record Blob : Type := { data : option string; blobMimeType : option string }.
Record Part : Type := { inlineData : option Blob; partText : option string }.
Record Content : Type := { parts : option (list Part) }.
Record Candidate : Type := { content : option Content }.
Record GenerateContentResponse : Type := {
  candidates : option (list Candidate);
  text : option string
}.

(** How the awaited promise settles: rejected with a reason (transport or
    API failure) or fulfilled with a response. *)
Inductive api_outcome : Type :=
| Rejected (reason : thrown)
| Fulfilled (response : GenerateContentResponse).

(** An async service function: the request it sends and what it completes
    with once the request has settled. *)
Record Call (A : Type) : Type := {
  request : GenerateContentRequest;
  settle : api_outcome -> completion A
}.
Arguments request {A} c.
Arguments settle {A} c o.

(** [try { body } catch (error) { throw new Error(message) }] *)
Definition rethrow_as {A : Type} (message : string) (body : completion A)
  : completion A :=
  match body with
  | Normal a => Normal a
  | Throw _ => Throw (ErrorObject message)
  end.

Definition type_error : thrown :=
  ErrorObject "Cannot read properties of undefined".

(** [part.inlineData && part.inlineData.data] *)
Definition image_data (part : Part) : option string :=
  match inlineData part with
  | Some blob =>
      match data blob with
      | Some d => if is_empty d then None else Some d
      | None => None
      end
  | None => None
  end.

(** The loop over [candidate.content.parts]: the data of the first part
    that carries some. *)
Fixpoint first_image (ps : list Part) : option string :=
  match ps with
  | [] => None
  | part :: rest =>
      match image_data part with
      | Some d => Some d
      | None => first_image rest
      end
  end.

(** The body shared by generateImageFromPrompt and editImage after the
    await, parameterised by the two messages that differ. *)
Definition image_of_response (no_candidates no_image : string)
  (o : api_outcome) : completion string :=
  match o with
  | Rejected reason => Throw reason
  | Fulfilled response =>
      match candidates response with
      | None | Some [] => Throw (ErrorObject no_candidates)
      | Some (candidate :: _) =>
          match content candidate with
          | None => Throw type_error
          | Some c =>
              match parts c with
              | None => Throw type_error
              | Some ps =>
                  match first_image ps with
                  | Some d => Normal d
                  | None => Throw (ErrorObject no_image)
                  end
              end
          end
      end
  end.

Definition image_model : string := "gemini-2.5-flash-image".
Definition text_model : string := "gemini-2.5-flash".

Definition generate_failed : string :=
  "Failed to generate image. The model may not be able to fulfill this request.".

Definition generateImageFromPrompt (prompt : string) : Call string := {|
  request := {| model := image_model;
                contents := [Text prompt];
                config := ResponseModalitiesImage |};
  settle := fun o =>
    rethrow_as generate_failed
      (image_of_response "API returned no candidates for image generation."
         "No image data found in the generation response." o)
|}.

Definition edit_failed : string :=
  "Failed to edit image. The model may not be able to fulfill this request. Please try a different prompt or image.".

Definition editImage (base64ImageData : option string) (mimeType prompt : string)
  : Call string := {|
  request := {| model := image_model;
                contents := [InlineData base64ImageData mimeType; Text prompt];
                config := ResponseModalitiesImage |};
  settle := fun o =>
    rethrow_as edit_failed
      (image_of_response "API returned no candidates."
         "No image data found in the API response." o)
|}.

(** The body shared by detectWatermarkText and detectObjects after the
    await.  What is returned is [result.objects] as parsed, unvalidated. *)
Definition objects_of_response (o : api_outcome) : completion json :=
  match o with
  | Rejected reason => Throw reason
  | Fulfilled response =>
      match text response with
      | None => Throw type_error
      | Some t =>
          let jsonText := trim t in
          if is_empty jsonText then Normal (JArray [])
          else
            match JSON_parse jsonText with
            | None => Throw (ErrorObject "Unexpected token in JSON")
            | Some result =>
                match get_property result "objects" with
                | Throw e => Throw e
                | Normal objects =>
                    Normal (match objects with
                            | Some v => if truthy objects then v else JArray []
                            | None => JArray []
                            end)
                end
            end
      end
  end.

Definition watermark_instruction : string :=
  "Identify only text that appears to be a watermark or is digitally overlaid on the image. Do not identify text that is part of the original photo (e.g., text on a book page or a sign). Provide a label (the text itself) and a precise bounding box for each piece of identified text.".

Definition watermark_failed : string :=
  "Failed to detect watermark text in the image. The model may not have been able to identify any.".

Definition detectWatermarkText (base64ImageData : option string) (mimeType : string)
  : Call json := {|
  request := {| model := text_model;
                contents := [InlineData base64ImageData mimeType; Text watermark_instruction];
                config := ResponseJsonObjectDetectionSchema |};
  settle := fun o => rethrow_as watermark_failed (objects_of_response o)
|}.

Definition objects_instruction : string :=
  "Identify all distinct objects in the image and provide their labels and bounding boxes. Be as precise as possible.".

Definition objects_failed : string :=
  "Failed to detect objects in the image. The model may not have been able to identify any distinct items.".

Definition detectObjects (base64ImageData : option string) (mimeType : string)
  : Call json := {|
  request := {| model := text_model;
                contents := [InlineData base64ImageData mimeType; Text objects_instruction];
                config := ResponseJsonObjectDetectionSchema |};
  settle := fun o => rethrow_as objects_failed (objects_of_response o)
|}.

End GeminiService.

Import GeminiService.


(* ================================================================== *)
(** * src/constants/editPresets.ts *)
(* ================================================================== *)

Inductive PresetKey : Type := vintageFilter | removeText | blueBg | sketch | dramatic.

(** A preset; its icon is only displayed and is left out. *)
Record Preset : Type := { presetPrompt : string; presetLabel : string }.

Definition EDIT_PRESETS (key : PresetKey) : Preset :=
  match key with
  | vintageFilter =>
      {| presetPrompt := "Add a retro, vintage filter with warm tones";
         presetLabel := "Vintage Filter" |}
  | removeText =>
      {| presetPrompt := "Remove any obvious watermarks or overlaid text from the image. Preserve text that is part of the original scene, like text on books or signs.";
         presetLabel := "Remove Text" |}
  | blueBg =>
      {| presetPrompt := "Change the background to solid bright blue, keep the main object";
         presetLabel := "Blue Backdrop" |}
  | sketch =>
      {| presetPrompt := "Convert to black and white pencil sketch style";
         presetLabel := "Pencil Sketch" |}
  | dramatic =>
      {| presetPrompt := "Add dramatic, cinematic lighting effect";
         presetLabel := "Dramatic Light" |}
  end.

Definition PresetKey_eqb (a b : PresetKey) : bool :=
  match a, b with
  | vintageFilter, vintageFilter | removeText, removeText | blueBg, blueBg
  | sketch, sketch | dramatic, dramatic => true
  | _, _ => false
  end.

(* ================================================================== *)
(** * src/App.tsx: regions, selection and prompt synthesis *)
(* ================================================================== *)

Module App.

(** [interface DetectedObject] of the service.  The interface types the
    four coordinates of a bounding box.  The box itself is an object that
    JSON.parse built from the response: in which order it holds the four,
    and what it holds besides them, is up to the response, and JSON.stringify
    visits its properties in that order. *)
Inductive CoordinateKey : Type := k_x_min | k_y_min | k_x_max | k_y_max.

Definition keyName (k : CoordinateKey) : string :=
  match k with
  | k_x_min => "x_min"
  | k_y_min => "y_min"
  | k_x_max => "x_max"
  | k_y_max => "y_max"
  end.

Inductive OwnProperty : Type :=
| Coordinate (key : CoordinateKey)
| Further (key : string) (value : json).

Record BoundingBox : Type := {
  x_min : number;
  y_min : number;
  x_max : number;
  y_max : number;
  ownProperties : list OwnProperty
}.

Definition coordinate (b : BoundingBox) (k : CoordinateKey) : number :=
  match k with
  | k_x_min => x_min b
  | k_y_min => y_min b
  | k_x_max => x_max b
  | k_y_max => y_max b
  end.

(** The order in which the interface and the response schema list the
    coordinates. *)
Definition declaredOrder : list OwnProperty :=
  [Coordinate k_x_min; Coordinate k_y_min; Coordinate k_x_max; Coordinate k_y_max].

Record DetectedObject : Type := {
  label : string;
  boundingBox : BoundingBox
}.

Section WithNumberToString.
Context {NTS : NumberToString}.

Definition quoted (s : string) : string := String dquote (s ++ String dquote "").

(** SerializeJSONProperty on one property of the box. *)
Definition JSON_stringify_property (b : BoundingBox) (p : OwnProperty) : string :=
  match p with
  | Coordinate k => QuoteJSONString (keyName k) ++ ":" ++ JSON_stringify_number (coordinate b k)
  | Further key value => QuoteJSONString key ++ ":" ++ JSON_stringify value
  end.

(** [JSON.stringify(boundingBox)]: the properties of the box, each as
    its quoted key, a colon and its value, in the order the box holds
    them. *)
Definition JSON_stringify_boundingBox (b : BoundingBox) : string :=
  "{" ++ join "," (map (JSON_stringify_property b) (ownProperties b)) ++ "}".

Definition areObjectsEqual (objA objB : DetectedObject) : bool :=
  String.eqb (label objA) (label objB) &&
  String.eqb (JSON_stringify_boundingBox (boundingBox objA))
             (JSON_stringify_boundingBox (boundingBox objB)).

(** The updater handleObjectSelect passes to setSelectedObjects. *)
Definition toggleSelection (object : DetectedObject)
  (prevSelected : list DetectedObject) : list DetectedObject :=
  let isSelected := existsb (fun obj => areObjectsEqual obj object) prevSelected in
  if isSelected then
    filter (fun obj => negb (areObjectsEqual obj object)) prevSelected
  else prevSelected ++ [object].

(** The template literal
    [[${y_min.toFixed(4)}, ${x_min.toFixed(4)}, ${y_max.toFixed(4)}, ${x_max.toFixed(4)}]],
    written out in handleQuickEdit, in both branches of handleObjectAction
    and in handleTranslate. *)
Definition bboxString (b : BoundingBox) : string :=
  "[" ++ toFixed 4 (y_min b) ++ ", " ++ toFixed 4 (x_min b) ++ ", " ++
  toFixed 4 (y_max b) ++ ", " ++ toFixed 4 (x_max b) ++ "]".

(** [finalPrompt] of handleQuickEdit. *)
Definition quickEditPrompt (presetKey : PresetKey) (selectedObject : DetectedObject)
  : string :=
  let bbox := bboxString (boundingBox selectedObject) in
  if PresetKey_eqb presetKey removeText then
    "Remove the selected text '" ++ label selectedObject ++
    "' located within the normalized bounding box (y_min, x_min, y_max, x_max) " ++
    bbox ++ ". Inpaint the area naturally to match the surroundings."
  else
    presetPrompt (EDIT_PRESETS presetKey) ++
    ". The main subject for this operation is the selected '" ++
    label selectedObject ++
    "' located within the normalized bounding box (y_min, x_min, y_max, x_max) " ++
    bbox ++ ". Focus the effect on this object or the area around it as appropriate.".

(** [actionPrompt] of handleObjectAction('isolate'). *)
Definition isolatePrompt (selectedObject : DetectedObject) : string :=
  "Isolate the " ++ label selectedObject ++
  " located within the bounding box (y_min, x_min, y_max, x_max) " ++
  bboxString (boundingBox selectedObject) ++ ". Make the background transparent.".

(** [${i+1}] for an array index [i]. *)
Definition ordinal (i : nat) : string := digits_of_N (N.of_nat (i + 1)).

(** Array.prototype.map with the index. *)
Fixpoint mapi_from {A B : Type} (i : nat) (f : A -> nat -> B) (l : list A) : list B :=
  match l with
  | [] => []
  | x :: r => f x i :: mapi_from (S i) f r
  end.
Definition mapi {A B : Type} (f : A -> nat -> B) (l : list A) : list B :=
  mapi_from 0 f l.

Definition removeEntry (obj : DetectedObject) (i : nat) : string :=
  ordinal i ++ ". The object '" ++ label obj ++ "' located within bounding box " ++
  bboxString (boundingBox obj).

Definition removeHeader : string :=
  "Remove the following objects from the image and inpaint their areas naturally to match the surroundings:" ++ chr 10.

(** [actionPrompt] of handleObjectAction('remove'). *)
Definition removePrompt (selectedObjects : list DetectedObject) : string :=
  let objectsToRemove := join (chr 10) (mapi removeEntry selectedObjects) in
  removeHeader ++ objectsToRemove.

Definition translateEntry (obj : DetectedObject) (i : nat) : string :=
  ordinal i ++ ". Original Text: " ++ quoted (label obj) ++
  ", Bounding Box (y_min, x_min, y_max, x_max): " ++ bboxString (boundingBox obj).

Definition translateHeader : string :=
  "Translate the text in the following regions from Chinese to Korean. Then, replace the original text with the Korean translation. Ensure the new text fits naturally in the same location and matches the original style (font, color, size) as closely as possible." ++
  chr 10 ++ chr 10 ++ "Here are the text regions to translate:" ++ chr 10.

(** [translationPrompt] of handleTranslate. *)
Definition translatePrompt (selectedObjects : list DetectedObject) : string :=
  let objectsToTranslate := join (chr 10) (mapi translateEntry selectedObjects) in
  translateHeader ++ objectsToTranslate ++ chr 10.

End WithNumberToString.


(* ================================================================== *)
(** * src/App.tsx: component state and handlers *)
(* ================================================================== *)

(** [File], of which the handlers read only [type]. *)
Record File : Type := { fileType : string }.

Record ImageState : Type := { src : string; file : File }.

Inductive BgMode : Type := upload | generate.

(** The useState cells of [App]. *)
Record AppState : Type := {
  image : option ImageState;
  prompt : string;
  resultImage : option string;
  isLoading : bool;
  error : option string;
  activePreset : option PresetKey;
  detectedObjects : list DetectedObject;
  selectedObjects : list DetectedObject;
  objectImage : option ImageState;
  backgroundImage : option ImageState;
  backgroundPrompt : string;
  compositorBgMode : BgMode;
  generatedBackground : option string;
  isGeneratingBg : bool
}.

Definition initialState : AppState := {|
  image := None; prompt := ""; resultImage := None; isLoading := false;
  error := None; activePreset := None;
  detectedObjects := []; selectedObjects := [];
  objectImage := None; backgroundImage := None;
  backgroundPrompt := "A photorealistic image of a beautiful beach at sunset";
  compositorBgMode := generate; generatedBackground := None;
  isGeneratingBg := false
|}.

(** The setters. *)
Definition setImage (v : option ImageState) (s : AppState) : AppState :=
  {| image := v; prompt := prompt s; resultImage := resultImage s;
     isLoading := isLoading s; error := error s; activePreset := activePreset s;
     detectedObjects := detectedObjects s; selectedObjects := selectedObjects s;
     objectImage := objectImage s; backgroundImage := backgroundImage s;
     backgroundPrompt := backgroundPrompt s; compositorBgMode := compositorBgMode s;
     generatedBackground := generatedBackground s; isGeneratingBg := isGeneratingBg s |}.

Definition setPrompt (v : string) (s : AppState) : AppState :=
  {| image := image s; prompt := v; resultImage := resultImage s;
     isLoading := isLoading s; error := error s; activePreset := activePreset s;
     detectedObjects := detectedObjects s; selectedObjects := selectedObjects s;
     objectImage := objectImage s; backgroundImage := backgroundImage s;
     backgroundPrompt := backgroundPrompt s; compositorBgMode := compositorBgMode s;
     generatedBackground := generatedBackground s; isGeneratingBg := isGeneratingBg s |}.

Definition setResultImage (v : option string) (s : AppState) : AppState :=
  {| image := image s; prompt := prompt s; resultImage := v;
     isLoading := isLoading s; error := error s; activePreset := activePreset s;
     detectedObjects := detectedObjects s; selectedObjects := selectedObjects s;
     objectImage := objectImage s; backgroundImage := backgroundImage s;
     backgroundPrompt := backgroundPrompt s; compositorBgMode := compositorBgMode s;
     generatedBackground := generatedBackground s; isGeneratingBg := isGeneratingBg s |}.

Definition setIsLoading (v : bool) (s : AppState) : AppState :=
  {| image := image s; prompt := prompt s; resultImage := resultImage s;
     isLoading := v; error := error s; activePreset := activePreset s;
     detectedObjects := detectedObjects s; selectedObjects := selectedObjects s;
     objectImage := objectImage s; backgroundImage := backgroundImage s;
     backgroundPrompt := backgroundPrompt s; compositorBgMode := compositorBgMode s;
     generatedBackground := generatedBackground s; isGeneratingBg := isGeneratingBg s |}.

Definition setError (v : option string) (s : AppState) : AppState :=
  {| image := image s; prompt := prompt s; resultImage := resultImage s;
     isLoading := isLoading s; error := v; activePreset := activePreset s;
     detectedObjects := detectedObjects s; selectedObjects := selectedObjects s;
     objectImage := objectImage s; backgroundImage := backgroundImage s;
     backgroundPrompt := backgroundPrompt s; compositorBgMode := compositorBgMode s;
     generatedBackground := generatedBackground s; isGeneratingBg := isGeneratingBg s |}.

Definition setActivePreset (v : option PresetKey) (s : AppState) : AppState :=
  {| image := image s; prompt := prompt s; resultImage := resultImage s;
     isLoading := isLoading s; error := error s; activePreset := v;
     detectedObjects := detectedObjects s; selectedObjects := selectedObjects s;
     objectImage := objectImage s; backgroundImage := backgroundImage s;
     backgroundPrompt := backgroundPrompt s; compositorBgMode := compositorBgMode s;
     generatedBackground := generatedBackground s; isGeneratingBg := isGeneratingBg s |}.

Definition setDetectedObjects (v : list DetectedObject) (s : AppState) : AppState :=
  {| image := image s; prompt := prompt s; resultImage := resultImage s;
     isLoading := isLoading s; error := error s; activePreset := activePreset s;
     detectedObjects := v; selectedObjects := selectedObjects s;
     objectImage := objectImage s; backgroundImage := backgroundImage s;
     backgroundPrompt := backgroundPrompt s; compositorBgMode := compositorBgMode s;
     generatedBackground := generatedBackground s; isGeneratingBg := isGeneratingBg s |}.

(** setSelectedObjects, with an updater function as handleObjectSelect
    passes one. *)
Definition setSelectedObjects (f : list DetectedObject -> list DetectedObject)
  (s : AppState) : AppState :=
  {| image := image s; prompt := prompt s; resultImage := resultImage s;
     isLoading := isLoading s; error := error s; activePreset := activePreset s;
     detectedObjects := detectedObjects s; selectedObjects := f (selectedObjects s);
     objectImage := objectImage s; backgroundImage := backgroundImage s;
     backgroundPrompt := backgroundPrompt s; compositorBgMode := compositorBgMode s;
     generatedBackground := generatedBackground s; isGeneratingBg := isGeneratingBg s |}.

Definition setBackgroundImage (v : option ImageState) (s : AppState) : AppState :=
  {| image := image s; prompt := prompt s; resultImage := resultImage s;
     isLoading := isLoading s; error := error s; activePreset := activePreset s;
     detectedObjects := detectedObjects s; selectedObjects := selectedObjects s;
     objectImage := objectImage s; backgroundImage := v;
     backgroundPrompt := backgroundPrompt s; compositorBgMode := compositorBgMode s;
     generatedBackground := generatedBackground s; isGeneratingBg := isGeneratingBg s |}.

Definition setGeneratedBackground (v : option string) (s : AppState) : AppState :=
  {| image := image s; prompt := prompt s; resultImage := resultImage s;
     isLoading := isLoading s; error := error s; activePreset := activePreset s;
     detectedObjects := detectedObjects s; selectedObjects := selectedObjects s;
     objectImage := objectImage s; backgroundImage := backgroundImage s;
     backgroundPrompt := backgroundPrompt s; compositorBgMode := compositorBgMode s;
     generatedBackground := v; isGeneratingBg := isGeneratingBg s |}.

Definition setIsGeneratingBg (v : bool) (s : AppState) : AppState :=
  {| image := image s; prompt := prompt s; resultImage := resultImage s;
     isLoading := isLoading s; error := error s; activePreset := activePreset s;
     detectedObjects := detectedObjects s; selectedObjects := selectedObjects s;
     objectImage := objectImage s; backgroundImage := backgroundImage s;
     backgroundPrompt := backgroundPrompt s; compositorBgMode := compositorBgMode s;
     generatedBackground := generatedBackground s; isGeneratingBg := v |}.

(** Several setter calls in a row, the first applied first. *)
Definition andThen (f g : AppState -> AppState) : AppState -> AppState :=
  fun s => g (f s).
Infix ">>" := andThen (at level 61, left associativity).

Definition unchanged : AppState -> AppState := fun s => s.

(** What one invocation of a handler does.  A handler reads the state of
    the render that created it; its setters update the state current when
    they run.  [Sync]: it returns after its setters.  [Await]: it runs
    [before], sends [request], and when that settles runs [resume]. *)
Inductive Handler : Type :=
| Sync (update : AppState -> AppState)
| Await (before : AppState -> AppState) (request : GenerateContentRequest)
        (resume : api_outcome -> AppState -> AppState).

(** Setters called before invoking another handler. *)
Definition after_setters (f : AppState -> AppState) (h : Handler) : Handler :=
  match h with
  | Sync u => Sync (f >> u)
  | Await b r k => Await (f >> b) r k
  end.

Definition requests (h : Handler) : list GenerateContentRequest :=
  match h with
  | Sync _ => []
  | Await _ r _ => [r]
  end.

(** The state right after the handler's synchronous part. *)
Definition immediately (h : Handler) : AppState -> AppState :=
  match h with
  | Sync u => u
  | Await b _ _ => b
  end.

(** [err instanceof Error ? err.message : fallback] *)
Definition message_or (fallback : string) (err : thrown) : string :=
  match err with
  | ErrorObject m => m
  | NonError => fallback
  end.

(** [image.src.split(',')[1]] *)
Definition base64_of_src (src : string) : option string :=
  nth_error (split "," src) 1.

(** [promptOverride || prompt] *)
Definition currentPrompt (promptOverride : option string) (prompt : string) : string :=
  match promptOverride with
  | Some p => if is_empty p then prompt else p
  | None => prompt
  end.

Definition png_data_uri (base64 : string) : string :=
  "data:image/png;base64," ++ base64.

Definition handleGenerate (st : AppState) (promptOverride : option string) : Handler :=
  let currentPrompt := currentPrompt promptOverride (prompt st) in
  match image st with
  | None => Sync (setError (Some "Please upload an image and provide a prompt."))
  | Some image =>
      if is_empty currentPrompt then
        Sync (setError (Some "Please upload an image and provide a prompt."))
      else
        let call := editImage (base64_of_src (src image)) (fileType (file image)) currentPrompt in
        Await
          (setIsLoading true >> setError None >> setResultImage None)
          (request call)
          (fun o =>
             (match settle call o with
              | Normal editedImageBase64 =>
                  setResultImage (Some (png_data_uri editedImageBase64))
              | Throw err =>
                  setError (Some (message_or "An unknown error occurred." err))
              end)
             >> setIsLoading false >> setActivePreset None)
  end.

Definition clearImage : Handler :=
  Sync (setImage None >> setResultImage None >> setError None >>
        setDetectedObjects [] >> setSelectedObjects (fun _ => [])).

Inductive ObjectAction : Type := isolate | remove.

Definition handleGenerateBackground (st : AppState) : Handler :=
  if is_empty (backgroundPrompt st) then
    Sync (setError (Some "Please enter a prompt for the background."))
  else
    let call := generateImageFromPrompt (backgroundPrompt st) in
    Await
      (setIsGeneratingBg true >> setError None)
      (request call)
      (fun o =>
         (match settle call o with
          | Normal generatedBase64 =>
              setGeneratedBackground (Some (png_data_uri generatedBase64))
              >> setBackgroundImage None
          | Throw err =>
              setError (Some (message_or "Failed to generate background." err))
          end)
         >> setIsGeneratingBg false).

Section Handlers.
Context {NTS : NumberToString}.

Definition handleQuickEdit (st : AppState) (presetKey : PresetKey) : Handler :=
  match image st with
  | None => Sync (setError (Some "Please upload an image first."))
  | Some _ =>
      match selectedObjects st with
      | [selectedObject] =>
          let finalPrompt := quickEditPrompt presetKey selectedObject in
          after_setters (setActivePreset (Some presetKey))
            (handleGenerate st (Some finalPrompt))
      | _ => Sync (setError (Some "Please select exactly one object for this action."))
      end
  end.

Definition handleObjectAction (st : AppState) (action : ObjectAction) : Handler :=
  match selectedObjects st with
  | [] => Sync unchanged
  | first :: others =>
      match action, others with
      | isolate, _ :: _ => Sync (setError (Some "Please select only one object to isolate."))
      | isolate, [] => handleGenerate st (Some (isolatePrompt first))
      | remove, _ => handleGenerate st (Some (removePrompt (selectedObjects st)))
      end
  end.

Definition handleObjectSelect (object : DetectedObject) : Handler :=
  Sync (setSelectedObjects (toggleSelection object)).

Definition handleTranslate (st : AppState) : Handler :=
  match selectedObjects st with
  | [] => Sync unchanged
  | _ :: _ => handleGenerate st (Some (translatePrompt (selectedObjects st)))
  end.

(** ** The component over time *)

(** The component between events: its state, the continuations of the
    requests in flight (oldest first) and every request sent so far. *)
Record World : Type := {
  ui : AppState;
  inflight : list (api_outcome -> AppState -> AppState);
  sent : list GenerateContentRequest
}.

Definition mount (st : AppState) : World :=
  {| ui := st; inflight := []; sent := [] |}.

Definition dispatch (h : Handler) (w : World) : World :=
  match h with
  | Sync u => {| ui := u (ui w); inflight := inflight w; sent := sent w |}
  | Await b r k =>
      {| ui := b (ui w); inflight := inflight w ++ [k]; sent := sent w ++ [r] |}
  end.

Inductive Event : Type :=
| Generate (promptOverride : option string)
| QuickEdit (presetKey : PresetKey)
| ObjectActionEv (action : ObjectAction)
| ObjectSelect (object : DetectedObject)
| Translate
| GenerateBackground
| PromptEdited (value : string)
| ClearImage
| Settled (o : api_outcome).

Definition step (w : World) (ev : Event) : World :=
  match ev with
  | Generate ov => dispatch (handleGenerate (ui w) ov) w
  | QuickEdit k => dispatch (handleQuickEdit (ui w) k) w
  | ObjectActionEv a => dispatch (handleObjectAction (ui w) a) w
  | ObjectSelect o => dispatch (handleObjectSelect o) w
  | Translate => dispatch (handleTranslate (ui w)) w
  | GenerateBackground => dispatch (handleGenerateBackground (ui w)) w
  | PromptEdited v => dispatch (Sync (setPrompt v)) w
  | ClearImage => dispatch clearImage w
  | Settled o =>
      match inflight w with
      | [] => w
      | k :: rest => {| ui := k o (ui w); inflight := rest; sent := sent w |}
      end
  end.

Definition run (w : World) (evs : list Event) : World := fold_left step evs w.

End Handlers.


(* ================================================================== *)
(** * src/App.tsx: ImagePreview render geometry *)
(* ================================================================== *)

(** The arithmetic handleResize uses.  The program runs it on binary64;
    the same text read over the rationals is the computation without
    rounding. *)
Class Arithmetic (num : Type) : Type := {
  literal : Z -> num;
  divide : num -> num -> num;
  times : num -> num -> num;
  minus : num -> num -> num;
  greater : num -> num -> bool;
  equals : num -> num -> bool
}.

#[export] Instance binary64 : Arithmetic number := {|
  literal := Number_of_Z;
  divide := JS.div;
  times := JS.mul;
  minus := JS.sub;
  greater := fun x y => JS.lt y x;
  equals := JS.strict_eq
|}.

#[export] Instance exact : Arithmetic Q := {|
  literal := inject_Z;
  divide := Qdiv;
  times := Qmult;
  minus := Qminus;
  greater := fun x y => if Qlt_le_dec y x then true else false;
  equals := Qeq_bool
|}.

Section RenderGeometry.
Context {num : Type} {A : Arithmetic num}.

Record RenderInfo : Type := { width : num; height : num; top : num; left : num }.

(** The properties of [imgRef.current] that handleResize reads. *)
Record ImgElement : Type := {
  clientWidth : num;
  clientHeight : num;
  naturalWidth : num;
  naturalHeight : num
}.

(** handleResize: the renderInfo state after the call. *)
Definition handleResize (current : option ImgElement) (renderInfo : RenderInfo)
  : RenderInfo :=
  match current with
  | None => renderInfo
  | Some img =>
      if equals (naturalWidth img) (literal 0) || equals (naturalHeight img) (literal 0)
      then renderInfo
      else
        let naturalRatio := divide (naturalWidth img) (naturalHeight img) in
        let clientRatio := divide (clientWidth img) (clientHeight img) in
        if greater naturalRatio clientRatio then
          let width := clientWidth img in
          let height := divide (clientWidth img) naturalRatio in
          let top := divide (minus (clientHeight img) height) (literal 2) in
          let left := literal 0 in
          {| width := width; height := height; top := top; left := left |}
        else
          let height := clientHeight img in
          let width := times (clientHeight img) naturalRatio in
          let left := divide (minus (clientWidth img) width) (literal 2) in
          let top := literal 0 in
          {| width := width; height := height; top := top; left := left |}
  end.
End RenderGeometry.

Arguments RenderInfo num : clear implicits.
Arguments ImgElement num : clear implicits.

End App.
Import App.

(* ================================================================== *)
(** * Vocabulary of the statements *)
(* ================================================================== *)

(** ** Fixed-point notation *)

(** [n - 1/2 <= m * 2^e * 10^f < n + 1/2]: [n] is the integer nearest to
    the scaled value, the larger one of two.  Stated without fractions. *)
Definition nearest_integer (f : nat) (m : positive) (e : Z) (n : N) : Prop :=
  let scaled := Zpos m * 10 ^ Z.of_nat f in
  match e with
  | Zneg k =>
      2 * Z.of_N n * 2 ^ Zpos k - 2 ^ Zpos k <= 2 * scaled
      < 2 * Z.of_N n * 2 ^ Zpos k + 2 ^ Zpos k
  | _ => Z.of_N n = scaled * 2 ^ e
  end.

(** [s] writes [x] in fixed-point notation with exactly [f] decimal places:
    a minus sign when [x] is negative, at least one integer digit, a point
    and [f] digits, the digits being those of the integer nearest to
    [|x| * 10^f]. *)
Definition fixed_point_of (f : nat) (x : number) (s : string) : Prop :=
  exists (neg : bool) (n : N) (a b : string),
    s = (if neg then "-" else "") ++ a ++ "." ++ b /\
    a <> "" /\ all_digits a = true /\
    String.length b = f /\ all_digits b = true /\
    N_of_digits (a ++ b) 0 = n /\
    match x with
    | S754_zero _ => neg = false /\ n = 0%N
    | S754_finite sg m e => neg = sg /\ nearest_integer f m e n
    | _ => False
    end.

(** Finite and below [10^21] in magnitude: where toFixed prints digits
    itself.  Every normalized coordinate is in this range. *)
Definition fixed_range (x : number) : bool :=
  match x with
  | S754_zero _ => true
  | S754_finite _ m e => negb (ge_1e21 m e)
  | _ => false
  end.

(** ** A concrete Number::toString *)

(** Mantissa and exponent written in binary, each closed by a terminator.
    This is not the digit selection of ECMA-262; it is a runtime on which
    the contract assumed of Number::toString can be checked to hold. *)
Fixpoint bits (p : positive) : string :=
  match p with
  | xI q => String "1" (bits q)
  | xO q => String "0" (bits q)
  | xH => "."
  end.

Definition exponent_bits (e : Z) : string :=
  match e with
  | Z0 => "e"
  | Zpos q => String "+" (bits q)
  | Zneg q => String "-" (bits q)
  end.

Definition binary_toString : NumberToString := fun x =>
  match x with
  | S754_nan => "NaN"
  | S754_infinity s => if s then "-Infinity" else "Infinity"
  | S754_zero _ => "0"
  | S754_finite s m e => (if s then "-" else "") ++ bits m ++ exponent_bits e
  end.

(** ** The contract assumed of Number::toString *)

(** A finite binary64 value, in the canonical form of the format. *)
Definition finite_double (x : number) : bool :=
  is_finite x && valid_binary prec emax x.

Fixpoint excludes (c : ascii) (s : string) : bool :=
  match s with
  | EmptyString => true
  | String d r => negb (Ascii.eqb d c) && excludes c r
  end.

(** Two finite numbers print alike exactly when they are [===]: ECMA-262
    prints both zeros as 0 and guarantees that ToNumber(ToString(x)) is
    [x] for every other [x]. *)
Definition Number_toString_distinguishes (NTS : NumberToString) : Prop :=
  forall x y, finite_double x = true -> finite_double y = true ->
    (Number_toString x = Number_toString y <-> strict_eq x y = true).

(** A printed number holds digits, a point, an exponent mark and signs:
    no comma. *)
Definition Number_toString_charset (NTS : NumberToString) : Prop :=
  forall x, finite_double x = true -> excludes "," (Number_toString x) = true.

Definition finite_box (b : BoundingBox) : bool :=
  finite_double (x_min b) && finite_double (y_min b) &&
  finite_double (x_max b) && finite_double (y_max b).

Definition CoordinateKey_eqb (a b : CoordinateKey) : bool :=
  match a, b with
  | k_x_min, k_x_min | k_y_min, k_y_min | k_x_max, k_x_max | k_y_max, k_y_max => true
  | _, _ => false
  end.

(** The box holds the four coordinates, each once, and nothing else. *)
Definition four_coordinates (b : BoundingBox) : bool :=
  match ownProperties b with
  | [Coordinate k1; Coordinate k2; Coordinate k3; Coordinate k4] =>
      negb (CoordinateKey_eqb k1 k2) && negb (CoordinateKey_eqb k1 k3) &&
      negb (CoordinateKey_eqb k1 k4) && negb (CoordinateKey_eqb k2 k3) &&
      negb (CoordinateKey_eqb k2 k4) && negb (CoordinateKey_eqb k3 k4)
  | _ => false
  end.

Definition fixed_range_box (b : BoundingBox) : bool :=
  fixed_range (x_min b) && fixed_range (y_min b) &&
  fixed_range (x_max b) && fixed_range (y_max b).

(** A coordinate as the data model has it: a binary64 value between 0
    and 1. *)
Definition normalized (x : number) : bool :=
  valid_binary prec emax x && JS.le (Number_of_Z 0) x && JS.le x (Number_of_Z 1).

Definition normalized_box (b : BoundingBox) : bool :=
  normalized (x_min b) && normalized (y_min b) &&
  normalized (x_max b) && normalized (y_max b).

(** ** The lines of a prompt *)

Definition newline : ascii := ascii_of_nat 10.

Fixpoint after_digits (s : string) : string :=
  match s with
  | String c r => if is_digit c then after_digits r else s
  | EmptyString => EmptyString
  end.

(** A line that reads as a numbered entry: a decimal numeral, a point
    and a space, then anything. *)
Definition numbered (line : string) : bool :=
  match line with
  | String c _ =>
      is_digit c &&
      match strip_prefix ". " (after_digits line) with Some _ => true | None => false end
  | EmptyString => false
  end.

Definition numbered_lines (prompt : string) : list string :=
  filter numbered (split newline prompt).

(** A region whose label holds no line break and whose coordinates toFixed
    prints in digits. *)
Definition one_line (o : DetectedObject) : bool :=
  excludes newline (label o) && fixed_range_box (boundingBox o).

(** The lines of the two headers. *)
Definition removeTitle : string :=
  "Remove the following objects from the image and inpaint their areas naturally to match the surroundings:".

Definition translateLead : string :=
  "Translate the text in the following regions from Chinese to Korean. Then, replace the original text with the Korean translation. Ensure the new text fits naturally in the same location and matches the original style (font, color, size) as closely as possible.".

Definition translateListing : string := "Here are the text regions to translate:".

Definition translateTitle : list string := [translateLead; ""; translateListing].

(** ** Sample data *)

Definition sampleBox : BoundingBox := {|
  x_min := Number_literal "0.1";
  y_min := Number_literal "0.2";
  x_max := Number_literal "0.3";
  y_max := Number_literal "0.4";
  ownProperties := declaredOrder
|}.

Definition sampleObject : DetectedObject :=
  {| label := "watermark"; boundingBox := sampleBox |}.

(** A label that closes its own entry and opens another one. *)
Definition forgedObject : DetectedObject :=
  {| label := "cat' located within bounding box [0.2000, 0.1000, 0.4000, 0.3000]" ++
              chr 10 ++ "2. The object 'dog";
     boundingBox := sampleBox |}.

Definition otherObject : DetectedObject :=
  {| label := "watermark";
     boundingBox := {| x_min := Number_literal "0.1"; y_min := Number_literal "0.2";
                       x_max := Number_literal "0.3"; y_max := Number_literal "0.5";
                       ownProperties := declaredOrder |} |}.

(** ** Selection, requests and responses *)

(** [l] is [l'] with some elements left out, the others in their order. *)
Inductive Subsequence {A : Type} : list A -> list A -> Prop :=
| sub_nil : Subsequence [] []
| sub_keep x l l' : Subsequence l l' -> Subsequence (x :: l) (x :: l')
| sub_drop x l l' : Subsequence l l' -> Subsequence l (x :: l').

(** The prompt texts a handler sends to the backend. *)
Definition prompts_sent (h : Handler) : list string :=
  flat_map (fun r =>
    flat_map (fun part => match part with Text t => [t] | InlineData _ _ => [] end)
             (contents r))
    (requests h).

Definition sampleImage : ImageState :=
  {| src := "data:image/jpeg;base64,AAAA"; file := {| fileType := "image/jpeg" |} |}.

Definition sampleState : AppState :=
  setSelectedObjects (fun _ => [otherObject; sampleObject])
    (setImage (Some sampleImage) initialState).

Definition precondition_message : string :=
  "Please upload an image and provide a prompt.".

(** The first candidate carries no inline image data: whatever parts it
    has, none has a non-empty [inlineData.data]. *)
Definition no_inline_image (c : Candidate) : Prop :=
  forall ct ps part,
    content c = Some ct -> parts ct = Some ps -> In part ps ->
    image_data part = None.

Definition no_image_payload (r : GenerateContentResponse) : Prop :=
  candidates r = None \/ candidates r = Some [] \/
  exists c rest, candidates r = Some (c :: rest) /\ no_inline_image c.

Definition emptyResponse : GenerateContentResponse :=
  {| candidates := Some []; text := None |}.

Definition textResponse (body : string) : GenerateContentResponse :=
  {| candidates := None; text := Some body |}.

(** The body [{"objects":[true]}]: valid JSON whose objects are not
    regions. *)
Definition objectsBody : string := "{" ++ quoted "objects" ++ ":[true]}".

(** The two detectors with the message each fails with. *)
Definition detectors : list ((option string -> string -> Call json) * string) :=
  [(detectObjects, objects_failed); (detectWatermarkText, watermark_failed)].

(** The value has no objects property, or a falsy one. *)
Definition objects_missing_or_falsy (v : json) : Prop :=
  match v with
  | JObject members => truthy (assoc "objects" members) = false
  | _ => True
  end.

(** ** The request lifecycle *)

Definition active {A : Type} (o : option A) : bool :=
  match o with Some _ => true | None => false end.

Definition at_most_one (a b c : bool) : bool :=
  negb ((a && b) || (a && c) || (b && c)).

(** Main editor: isLoading, resultImage, error. *)
Definition main_exclusive (s : AppState) : bool :=
  at_most_one (isLoading s) (active (resultImage s)) (active (error s)).

(** Background generation: isGeneratingBg, generatedBackground, error. *)
Definition background_exclusive (s : AppState) : bool :=
  at_most_one (isGeneratingBg s) (active (generatedBackground s)) (active (error s)).

Definition imageResponse (base64 : string) : GenerateContentResponse :=
  {| candidates :=
       Some [ {| content :=
                   Some {| parts :=
                             Some [ {| inlineData :=
                                         Some {| data := Some base64;
                                                 blobMimeType := Some "image/png" |};
                                       partText := None |} ] |} |} ];
     text := None |}.

(** The events under which the main editor is followed: a generation
    (custom prompt, preset, isolate, remove, translate) dispatched with an
    image loaded, nothing loading and its own precondition met; editing the
    prompt, clearing the image, toggling a region and the settling of a
    request at any time.  The buttons are disabled while isLoading, the
    custom prompt button also without image or prompt, isolate unless
    exactly one region is selected, remove and translate when none is. *)
Definition permitted (w : World) (ev : Event) : bool :=
  let st := ui w in
  let ready := active (image st) && negb (isLoading st) in
  match ev with
  | Generate ov => ready && negb (is_empty (currentPrompt ov (prompt st)))
  | QuickEdit _ | ObjectActionEv isolate =>
      ready && (List.length (selectedObjects st) =? 1)%nat
  | ObjectActionEv remove | Translate =>
      ready && negb (List.length (selectedObjects st) =? 0)%nat
  | GenerateBackground => false
  | PromptEdited _ | ClearImage | ObjectSelect _ | Settled _ => true
  end.

Definition is_generation (ev : Event) : bool :=
  match ev with
  | Generate _ | QuickEdit _ | ObjectActionEv _ | Translate => true
  | _ => false
  end.

(** A handler that starts a generation: it enters pending with the result
    and the error cleared, and its continuation ends the loading with at
    most one of result and error stored. *)
Definition starts_generation (h : Handler) : Prop :=
  exists b r k,
    h = Await b r k /\
    (forall s, isLoading (b s) = true /\ resultImage (b s) = None /\ error (b s) = None) /\
    (forall o s, resultImage s = None -> error s = None ->
                 isLoading (k o s) = false /\ main_exclusive (k o s) = true).

(** ** Render geometry *)

(** A DOM pixel size. *)
Definition px (z : Z) : number := Number_of_Z z.

Definition noGeometry {num : Type} {A : Arithmetic num} : RenderInfo num :=
  {| width := literal 0; height := literal 0; top := literal 0; left := literal 0 |}.

Section StatementsWithNumberToString.
Context {NTS : NumberToString}.

(** No region of the list is equal to an earlier one. *)
Fixpoint distinct (s : list DetectedObject) : bool :=
  match s with
  | [] => true
  | x :: t => negb (existsb (fun o => areObjectsEqual o x) t) && distinct t
  end.

Fixpoint permitted_trace (w : World) (evs : list Event) : bool :=
  match evs with
  | [] => true
  | ev :: rest => permitted w ev && permitted_trace (step w ev) rest
  end.

(** What holds between the events of a permitted trace. *)
Definition lifecycle_invariant (w : World) : Prop :=
  match inflight w with
  | [] => isLoading (ui w) = false /\ main_exclusive (ui w) = true
  | [k] =>
      isLoading (ui w) = true /\ resultImage (ui w) = None /\ error (ui w) = None /\
      forall o s, resultImage s = None -> error s = None ->
                  isLoading (k o s) = false /\ main_exclusive (k o s) = true
  | _ => False
  end.

End StatementsWithNumberToString.

(* ================================================================== *)
(** * src/App.tsx and src/components/QuickActionButton.tsx: what is rendered *)
(* ================================================================== *)

(** ToBoolean of a [string | null], with the string when it is truthy. *)
Definition truthy_string (v : option string) : option string :=
  match v with
  | Some s => if is_empty s then None else Some s
  | None => None
  end.

(** The four things ResultDisplay returns. *)
Inductive ResultView : Type :=
| GeneratingSpinner
| ErrorOccurred (message : string)
| EditedResult (href : string)
| ResultPlaceholder.

Definition ResultDisplay (image : option string) (isLoading : bool)
  (error : option string) : ResultView :=
  if isLoading then GeneratingSpinner
  else
    match truthy_string error with
    | Some message => ErrorOccurred message
    | None =>
        match truthy_string image with
        | Some href => EditedResult href
        | None => ResultPlaceholder
        end
    end.

(** [<ResultDisplay image={resultImage} isLoading={isLoading} error={error} />] *)
Definition resultPanel (st : AppState) : ResultView :=
  ResultDisplay (resultImage st) (isLoading st) (error st).

(** QuickActionButton: its optional props default to false; the button is
    disabled when [disabled || loading] and shows the spinner in place of
    the icon when [loading]. *)
Record QuickActionButtonProps : Type := {
  buttonLabel : string;
  disabled : option bool;
  loading : option bool
}.

Record ButtonView : Type := {
  caption : string;
  isDisabled : bool;
  showsSpinner : bool
}.

Definition QuickActionButton (props : QuickActionButtonProps) : ButtonView :=
  let disabled := match disabled props with Some b => b | None => false end in
  let loading := match loading props with Some b => b | None => false end in
  {| caption := buttonLabel props;
     isDisabled := disabled || loading;
     showsSpinner := loading |}.

(** [activePreset === key] *)
Definition isActivePreset (st : AppState) (key : PresetKey) : bool :=
  match activePreset st with
  | Some k => PresetKey_eqb k key
  | None => false
  end.

(** The button App renders for one entry of EDIT_PRESETS. *)
Definition quickActionButton (st : AppState) (key : PresetKey) : ButtonView :=
  QuickActionButton
    {| buttonLabel := presetLabel (EDIT_PRESETS key);
       disabled := Some (negb (active (image st)) || isLoading st ||
                         (1 <? List.length (selectedObjects st))%nat);
       loading := Some (isLoading st && isActivePreset st key) |}.

(** The custom prompt button: disabled without image or prompt and while
    loading; it shows its spinner when [isLoading && !activePreset]. *)
Definition generateButton (st : AppState) : ButtonView :=
  {| caption := if isLoading st && negb (active (activePreset st))
                then "Generating..." else "Generate with Custom Prompt";
     isDisabled := negb (active (image st)) || is_empty (prompt st) || isLoading st;
     showsSpinner := isLoading st && negb (active (activePreset st)) |}.

Section Overlay.
Context {NTS : NumberToString}.

(** [selectedObjects.some(obj => areObjectsEqual(obj, object))] of the
    overlay: whether the box of [object] is drawn as selected. *)
Definition isSelected (selectedObjects : list DetectedObject) (object : DetectedObject)
  : bool :=
  existsb (fun obj => areObjectsEqual obj object) selectedObjects.

End Overlay.

(** Addition, which the overlay needs besides the arithmetic of
    handleResize. *)
Class Addition (num : Type) : Type := plus : num -> num -> num.

#[export] Instance binary64_plus : Addition number := SFadd prec emax.
#[export] Instance exact_plus : Addition Q := Qplus.

Section OverlayGeometry.
Context {num : Type} {A : Arithmetic num} {P : Addition num}.

(** The numbers of [boxStyle], before they are printed with the unit px. *)
Record BoxStyle : Type := {
  boxLeft : num; boxTop : num; boxWidth : num; boxHeight : num
}.

Definition boxStyle (x_min y_min x_max y_max : num) (renderInfo : RenderInfo num)
  : BoxStyle :=
  {| boxLeft := plus (left renderInfo) (times x_min (width renderInfo));
     boxTop := plus (top renderInfo) (times y_min (height renderInfo));
     boxWidth := times (minus x_max x_min) (width renderInfo);
     boxHeight := times (minus y_max y_min) (height renderInfo) |}.

End OverlayGeometry.

Arguments BoxStyle num : clear implicits.

(* ================================================================== *)
(** * src/App.tsx: uploads, detection and compositing *)
(* ================================================================== *)

Definition setObjectImage (v : option ImageState) (s : AppState) : AppState :=
  {| image := image s; prompt := prompt s; resultImage := resultImage s;
     isLoading := isLoading s; error := error s; activePreset := activePreset s;
     detectedObjects := detectedObjects s; selectedObjects := selectedObjects s;
     objectImage := v; backgroundImage := backgroundImage s;
     backgroundPrompt := backgroundPrompt s; compositorBgMode := compositorBgMode s;
     generatedBackground := generatedBackground s; isGeneratingBg := isGeneratingBg s |}.

Definition setBackgroundPrompt (v : string) (s : AppState) : AppState :=
  {| image := image s; prompt := prompt s; resultImage := resultImage s;
     isLoading := isLoading s; error := error s; activePreset := activePreset s;
     detectedObjects := detectedObjects s; selectedObjects := selectedObjects s;
     objectImage := objectImage s; backgroundImage := backgroundImage s;
     backgroundPrompt := v; compositorBgMode := compositorBgMode s;
     generatedBackground := generatedBackground s; isGeneratingBg := isGeneratingBg s |}.

Definition setCompositorBgMode (v : BgMode) (s : AppState) : AppState :=
  {| image := image s; prompt := prompt s; resultImage := resultImage s;
     isLoading := isLoading s; error := error s; activePreset := activePreset s;
     detectedObjects := detectedObjects s; selectedObjects := selectedObjects s;
     objectImage := objectImage s; backgroundImage := backgroundImage s;
     backgroundPrompt := backgroundPrompt s; compositorBgMode := v;
     generatedBackground := generatedBackground s; isGeneratingBg := isGeneratingBg s |}.

(** The two collaborators App imports from outside these files,
    [./utils/fileUtils] and [./services/canvasService]: each call is a
    promise of a string, fulfilled or rejected by its own module. *)
Inductive Collaborator : Type :=
| fileToBase64 (file : File)
| compositeImages (objectSrc backgroundSrc : string).

(** What an invocation is suspended on, with the rest of the handler. *)
Inductive Pending : Type :=
| Requested (request : GenerateContentRequest)
          (resume : api_outcome -> AppState -> AppState)
| Promised (call : Collaborator)
           (resume : completion string -> AppState -> AppState).

(** One invocation of a handler: the setters run before it returns or
    awaits, and what it awaits, if anything. *)
Record Invocation : Type := {
  setters : AppState -> AppState;
  awaits : option Pending
}.

Definition returns (update : AppState -> AppState) : Invocation :=
  {| setters := update; awaits := None |}.

Definition invocation (h : Handler) : Invocation :=
  match h with
  | Sync update => returns update
  | Await before request resume =>
      {| setters := before; awaits := Some (Requested request resume) |}
  end.

(** [result.objects] is returned at the declared type [DetectedObject[]]
    without being checked: JSON.parse gives [any].  The reading of a parsed
    value at that type is a parameter of the component; on a payload of the
    declared shape it is the regions the payload lists.  A payload outside
    that type makes ImagePreview throw when it renders, and the component is
    not followed there. *)
Class RegionReading := asDetectedObjects : json -> list DetectedObject.

(** The message of the TypeError an engine throws when what is called is
    [undefined], from the name of the binding called; its wording is the
    engine's own. *)
Class TypeErrors := not_a_function : string -> string.

(** [e.target.files?.[0]] is the argument. *)
Definition handleFileChange (file : option File) : Invocation :=
  match file with
  | None => returns unchanged
  | Some file =>
      {| setters := unchanged;
         awaits := Some (Promised (fileToBase64 file) (fun settled =>
           match settled with
           | Normal base64Src =>
               setImage (Some {| src := base64Src; file := file |}) >>
               setResultImage None >> setError None >>
               setDetectedObjects [] >> setSelectedObjects (fun _ => [])
           | Throw _ => setError (Some "Failed to read the image file.")
           end)) |}
  end.

(** Without a try block: a rejected read leaves the state as it is. *)
Definition handleObjectImageChange (file : option File) : Invocation :=
  match file with
  | None => returns unchanged
  | Some file =>
      {| setters := unchanged;
         awaits := Some (Promised (fileToBase64 file) (fun settled =>
           match settled with
           | Normal base64Src => setObjectImage (Some {| src := base64Src; file := file |})
           | Throw _ => unchanged
           end)) |}
  end.

Definition handleBackgroundImageChange (file : option File) : Invocation :=
  match file with
  | None => returns unchanged
  | Some file =>
      {| setters := unchanged;
         awaits := Some (Promised (fileToBase64 file) (fun settled =>
           match settled with
           | Normal base64Src =>
               setBackgroundImage (Some {| src := base64Src; file := file |}) >>
               setGeneratedBackground None
           | Throw _ => unchanged
           end)) |}
  end.

(** [backgroundImage?.src || generatedBackground], when it is truthy. *)
Definition backgroundSrc (st : AppState) : option string :=
  match truthy_string (option_map src (backgroundImage st)) with
  | Some s => Some s
  | None => truthy_string (generatedBackground st)
  end.

Definition handleComposite (st : AppState) : Invocation :=
  match objectImage st, backgroundSrc st with
  | Some objectImage, Some backgroundSrc =>
      {| setters := setIsLoading true >> setError None >> setResultImage None;
         awaits := Some (Promised (compositeImages (src objectImage) backgroundSrc)
           (fun settled =>
              (match settled with
               | Normal result => setResultImage (Some result)
               | Throw err => setError (Some (message_or "Failed to composite images." err))
               end) >> setIsLoading false)) |}
  | _, _ => returns (setError (Some "Please provide both an object and a background image."))
  end.

Section Component.
Context {NTS : NumberToString} {reading : RegionReading} {errors : TypeErrors}.

Definition handleDetectObjects (st : AppState) : Invocation :=
  match image st with
  | None => returns (setError (Some "Please upload an image first."))
  | Some image =>
      let call := detectObjects (base64_of_src (src image)) (fileType (file image)) in
      {| setters := setIsLoading true >> setError None >> setResultImage None >>
                    setSelectedObjects (fun _ => []) >> setDetectedObjects [];
         awaits := Some (Requested (request call) (fun o =>
           (match settle call o with
            | Normal objects => setDetectedObjects (asDetectedObjects objects)
            | Throw err => setError (Some (message_or "An unknown error occurred." err))
            end) >> setIsLoading false)) |}
  end.

(** [detectText] is imported from [./services/geminiService], which
    exports no such name (its text detector is detectWatermarkText): the
    binding holds [undefined], and calling it throws a TypeError inside the
    try block before anything is awaited.  The catch and finally blocks run
    in the same turn as the setters before them. *)
Definition handleDetectText (st : AppState) : Invocation :=
  match image st with
  | None => returns (setError (Some "Please upload an image first."))
  | Some image =>
      let thrown := ErrorObject (not_a_function "detectText") in
      returns (setIsLoading true >> setError None >> setResultImage None >>
               setSelectedObjects (fun _ => []) >> setDetectedObjects [] >>
               setError (Some (message_or "An unknown error occurred." thrown)) >>
               setIsLoading false)
  end.

(** ** The page: every control of App, and every promise settling *)

Record Page : Type := {
  shown : AppState;
  suspended : list Pending
}.

Definition fresh (st : AppState) : Page := {| shown := st; suspended := [] |}.

(** What the user or the environment does next.  A box of the overlay is
    named by its index in detectedObjects, the key it is rendered with; a
    settling promise by its position among the suspended invocations. *)
Inductive Action : Type :=
| ChooseFile (file : option File)
| ClickClear
| TypePrompt (value : string)
| ClickGenerate
| ClickQuickAction (key : PresetKey)
| ClickDetectObjects
| ClickDetectText
| ClickObjectAction (action : ObjectAction)
| ClickBox (index : nat)
| ClickTranslate
| ChooseObjectFile (file : option File)
| ClickClearObject
| ChooseBackgroundFile (file : option File)
| ClickClearBackground
| ClickClearGenerated
| TypeBackgroundPrompt (value : string)
| ClickBgMode (mode : BgMode)
| ClickGenerateBackground
| ClickComposite
| ContentSettles (n : nat) (o : api_outcome)
| PromiseSettles (n : nat) (settled : completion string).

(** The handler each control is wired to, invoked in the state rendered. *)
Definition wired (st : AppState) (a : Action) : Invocation :=
  match a with
  | ChooseFile file => handleFileChange file
  | ClickClear => invocation clearImage
  | TypePrompt value => returns (setPrompt value)
  | ClickGenerate => invocation (handleGenerate st None)
  | ClickQuickAction key => invocation (handleQuickEdit st key)
  | ClickDetectObjects => handleDetectObjects st
  | ClickDetectText => handleDetectText st
  | ClickObjectAction action => invocation (handleObjectAction st action)
  | ClickBox index =>
      match nth_error (detectedObjects st) index with
      | Some object => invocation (handleObjectSelect object)
      | None => returns unchanged
      end
  | ClickTranslate => invocation (handleTranslate st)
  | ChooseObjectFile file => handleObjectImageChange file
  | ClickClearObject => returns (setObjectImage None)
  | ChooseBackgroundFile file => handleBackgroundImageChange file
  | ClickClearBackground => returns (setBackgroundImage None)
  | ClickClearGenerated => returns (setGeneratedBackground None)
  | TypeBackgroundPrompt value => returns (setBackgroundPrompt value)
  | ClickBgMode mode => returns (setCompositorBgMode mode)
  | ClickGenerateBackground => invocation (handleGenerateBackground st)
  | ClickComposite => handleComposite st
  | ContentSettles _ _ | PromiseSettles _ _ => returns unchanged
  end.

Definition invoke (i : Invocation) (p : Page) : Page :=
  {| shown := setters i (shown p);
     suspended := match awaits i with
                  | Some w => suspended p ++ [w]
                  | None => suspended p
                  end |}.

(** The list without its [n]-th element. *)
Fixpoint without {X : Type} (n : nat) (l : list X) : list X :=
  match n, l with
  | O, _ :: r => r
  | S k, x :: r => x :: without k r
  | _, [] => []
  end.

Definition act (p : Page) (a : Action) : Page :=
  match a with
  | ContentSettles n o =>
      match nth_error (suspended p) n with
      | Some (Requested _ resume) =>
          {| shown := resume o (shown p); suspended := without n (suspended p) |}
      | _ => p
      end
  | PromiseSettles n settled =>
      match nth_error (suspended p) n with
      | Some (Promised _ resume) =>
          {| shown := resume settled (shown p); suspended := without n (suspended p) |}
      | _ => p
      end
  | _ => invoke (wired (shown p) a) p
  end.

Definition acts (p : Page) (l : list Action) : Page := fold_left act l p.

(** Whether the control of an action is rendered and not disabled, as the
    JSX of App has it; a promise may settle at any time. *)
Definition enabled (st : AppState) (a : Action) : bool :=
  let selected := List.length (selectedObjects st) in
  match a with
  | ChooseFile _ => negb (active (image st))
  | ClickClear => active (image st)
  | TypePrompt _ => negb (negb (active (image st)) || isLoading st)
  | ClickGenerate => negb (isDisabled (generateButton st))
  | ClickQuickAction key => negb (isDisabled (quickActionButton st key))
  | ClickDetectObjects | ClickDetectText =>
      negb (negb (active (image st)) || isLoading st)
  | ClickObjectAction isolate => negb (negb (selected =? 1)%nat || isLoading st)
  | ClickObjectAction remove | ClickTranslate =>
      negb ((selected =? 0)%nat || isLoading st)
  | ClickBox index => active (image st) && (index <? List.length (detectedObjects st))%nat
  | ChooseObjectFile _ => negb (active (objectImage st))
  | ClickClearObject => active (objectImage st)
  | ChooseBackgroundFile _ =>
      match compositorBgMode st with
      | upload => negb (active (backgroundImage st))
      | generate => false
      end
  | ClickClearBackground =>
      match compositorBgMode st with
      | upload => active (backgroundImage st)
      | generate => false
      end
  | ClickClearGenerated =>
      match compositorBgMode st with
      | generate => active (truthy_string (generatedBackground st))
      | upload => false
      end
  | TypeBackgroundPrompt _ =>
      match compositorBgMode st with generate => true | upload => false end
  | ClickBgMode _ => true
  | ClickGenerateBackground =>
      match compositorBgMode st with
      | generate => negb (isGeneratingBg st)
      | upload => false
      end
  | ClickComposite =>
      negb (negb (active (objectImage st)) ||
            (negb (active (backgroundImage st)) &&
             negb (active (truthy_string (generatedBackground st)))) ||
            isLoading st)
  | ContentSettles _ _ | PromiseSettles _ _ => true
  end.

(** Every action of the list is taken on a control that is enabled when
    it is taken. *)
Fixpoint usable (p : Page) (l : list Action) : bool :=
  match l with
  | [] => true
  | a :: rest => enabled (shown p) a && usable (act p a) rest
  end.

End Component.

(** ** Responses with inline data *)

(** [d] is the data of the first part of [ps] that carries some: the
    parts before it have no inlineData, or one without data or with the
    empty string. *)
Definition first_inline_data (ps : list Part) (d : string) : Prop :=
  exists pre part post blob,
    ps = (pre ++ part :: post)%list /\
    (forall q, In q pre -> image_data q = None) /\
    inlineData part = Some blob /\ data blob = Some d /\ d <> "".

Definition partsResponse (ps : list Part) (others : list Candidate)
  (body : option string) : GenerateContentResponse :=
  {| candidates := Some ({| content := Some {| parts := Some ps |} |} :: others);
     text := body |}.

Definition textPart (t : string) : Part :=
  {| inlineData := None; partText := Some t |}.

Definition dataPart (d mime : string) : Part :=
  {| inlineData := Some {| data := Some d; blobMimeType := Some mime |};
     partText := None |}.

(** The generation handlers of the main editor. *)
Definition generation_handler {NTS : NumberToString} (st : AppState) (ev : Event)
  : option Handler :=
  match ev with
  | Generate promptOverride => Some (handleGenerate st promptOverride)
  | QuickEdit key => Some (handleQuickEdit st key)
  | ObjectActionEv action => Some (handleObjectAction st action)
  | Translate => Some (handleTranslate st)
  | _ => None
  end.

(** [p] begins with [prefix]. *)
Definition starts_with (prefix p : string) : bool :=
  match strip_prefix prefix p with Some _ => true | None => false end.

(** ** The page between actions *)

(** An instance of the reading: the regions a payload of the declared
    shape lists, an element that is no region being passed over. *)
Definition number_of (v : jsvalue) : option number :=
  match v with Some (JNumber x) => Some x | _ => None end.

Definition own_property (member : string * json) : OwnProperty :=
  let key := fst member in
  if String.eqb key "x_min" then Coordinate k_x_min
  else if String.eqb key "y_min" then Coordinate k_y_min
  else if String.eqb key "x_max" then Coordinate k_x_max
  else if String.eqb key "y_max" then Coordinate k_y_max
  else Further key (snd member).

Definition region_of (v : json) : option DetectedObject :=
  match v with
  | JObject members =>
      match assoc "label" members, assoc "boundingBox" members with
      | Some (JString l), Some (JObject box) =>
          match number_of (assoc "x_min" box), number_of (assoc "y_min" box),
                number_of (assoc "x_max" box), number_of (assoc "y_max" box) with
          | Some a, Some b, Some c, Some d =>
              Some {| label := l;
                      boundingBox := {| x_min := a; y_min := b; x_max := c; y_max := d;
                                        ownProperties := map own_property (own_order box) |} |}
          | _, _, _, _ => None
          end
      | _, _ => None
      end
  | _ => None
  end.

(** The wording of V8 and SpiderMonkey. *)
Definition engine_errors : TypeErrors := fun name => name ++ " is not a function".

Definition listed_regions : RegionReading := fun v =>
  match v with
  | JArray items =>
      flat_map (fun item => match region_of item with Some r => [r] | None => [] end) items
  | _ => []
  end.

(** The body [{"objects":[{"label":"cat","boundingBox":{...}}]}] with the
    box (0.1, 0.2, 0.3, 0.4). *)
Definition catBody : string :=
  "{" ++ quoted "objects" ++ ":[{" ++ quoted "label" ++ ":" ++ quoted "cat" ++ "," ++
  quoted "boundingBox" ++ ":{" ++ quoted "x_min" ++ ":0.1," ++ quoted "y_min" ++ ":0.2," ++
  quoted "x_max" ++ ":0.3," ++ quoted "y_max" ++ ":0.4}}]}".

Definition cat : DetectedObject := {| label := "cat"; boundingBox := sampleBox |}.

(** The same region with the keys of its box in another order, and with
    one more property in its box. *)
Definition reorderedCat : DetectedObject :=
  {| label := "cat";
     boundingBox := {| x_min := Number_literal "0.1"; y_min := Number_literal "0.2";
                       x_max := Number_literal "0.3"; y_max := Number_literal "0.4";
                       ownProperties := [Coordinate k_y_min; Coordinate k_x_min;
                                         Coordinate k_y_max; Coordinate k_x_max] |} |}.

Definition annotatedCat : DetectedObject :=
  {| label := "cat";
     boundingBox := {| x_min := Number_literal "0.1"; y_min := Number_literal "0.2";
                       x_max := Number_literal "0.3"; y_max := Number_literal "0.4";
                       ownProperties :=
                         (declaredOrder ++ [Further "score" (JNumber (Number_literal "0.9"))])%list
                    |} |}.

(** A response body that lists the three. *)
Definition threeCatsBody : string :=
  "{" ++ quoted "objects" ++ ":[{" ++ quoted "label" ++ ":" ++ quoted "cat" ++ "," ++
  quoted "boundingBox" ++ ":{" ++ quoted "x_min" ++ ":0.1," ++ quoted "y_min" ++ ":0.2," ++
  quoted "x_max" ++ ":0.3," ++ quoted "y_max" ++ ":0.4}},{" ++
  quoted "label" ++ ":" ++ quoted "cat" ++ "," ++
  quoted "boundingBox" ++ ":{" ++ quoted "y_min" ++ ":0.2," ++ quoted "x_min" ++ ":0.1," ++
  quoted "y_max" ++ ":0.4," ++ quoted "x_max" ++ ":0.3}},{" ++
  quoted "label" ++ ":" ++ quoted "cat" ++ "," ++
  quoted "boundingBox" ++ ":{" ++ quoted "x_min" ++ ":0.1," ++ quoted "y_min" ++ ":0.2," ++
  quoted "x_max" ++ ":0.3," ++ quoted "y_max" ++ ":0.4," ++ quoted "score" ++ ":0.9}}]}".

Definition otherImage : ImageState :=
  {| src := "data:image/png;base64,BBBB"; file := {| fileType := "image/png" |} |}.

(** The updates a suspended invocation may run when it settles. *)
Definition may_run (w : Pending) (u : AppState -> AppState) : Prop :=
  match w with
  | Requested _ resume => exists o, u = resume o
  | Promised _ resume => exists settled, u = resume settled
  end.

(** Whatever [w] runs when it settles keeps [P]. *)
Definition keeps (P : AppState -> Prop) (w : Pending) : Prop :=
  forall u, may_run w u -> forall s, P s -> P (u s).

(** At most one background is stored, uploaded or generated. *)
Definition one_background (s : AppState) : Prop :=
  backgroundImage s = None \/ generatedBackground s = None.

(** A suspended invocation that leaves the loading flag and the active
    preset alone, and the regions too unless it empties both lists. *)
Definition quiet (w : Pending) : Prop :=
  forall u, may_run w u -> forall s,
    isLoading (u s) = isLoading s /\ activePreset (u s) = activePreset s /\
    ((selectedObjects (u s) = selectedObjects s /\
      detectedObjects (u s) = detectedObjects s /\ image (u s) = image s) \/
     (selectedObjects (u s) = [] /\ detectedObjects (u s) = [])).

(** A suspended invocation that ends the loading, keeping the image and
    the selection. *)
Definition ends_loading (w : Pending) : Prop :=
  forall u, may_run w u -> forall s,
    isLoading (u s) = false /\ selectedObjects (u s) = selectedObjects s /\
    image (u s) = image s /\
    (activePreset (u s) = None \/ activePreset (u s) = activePreset s).

Definition keeps_detected (w : Pending) : Prop :=
  forall u, may_run w u -> forall s, detectedObjects (u s) = detectedObjects s.

Definition clears_preset (w : Pending) : Prop :=
  forall u, may_run w u -> forall s, activePreset (u s) = None.

Section PageStatements.
Context {NTS : NumberToString}.

(** The selection has no repetition, lies within the regions detected,
    and is empty when no image is loaded. *)
Definition selection_sound (s : AppState) : Prop :=
  distinct (selectedObjects s) = true /\
  incl (selectedObjects s) (detectedObjects s) /\
  (image s = None -> selectedObjects s = []).

(** Loading goes with exactly one suspended invocation that will end it;
    every other one is quiet. *)
Definition loading_sound (p : Page) : Prop :=
  let s := shown p in
  (isLoading s = false /\ activePreset s = None /\ Forall quiet (suspended p)) \/
  (isLoading s = true /\
   exists earlier w later,
     suspended p = (earlier ++ w :: later)%list /\
     Forall quiet earlier /\ Forall quiet later /\ ends_loading w /\
     (keeps_detected w \/ detectedObjects s = []) /\
     (clears_preset w \/ activePreset s = None)).

Definition page_sound (p : Page) : Prop :=
  selection_sound (shown p) /\ loading_sound p.

End PageStatements.

Section ReachedStatements.
Context {NTS : NumberToString} {reading : RegionReading} {errors : TypeErrors}.

(** Where the page is followed from: nothing loading, no preset active,
    a sound selection, nothing suspended. *)
Definition at_rest (st : AppState) : Prop :=
  selection_sound st /\ isLoading st = false /\ activePreset st = None.

(** The action sends one request and leaves the page loading, with the
    error and the result cleared. *)
Definition starts_request (p : Page) (a : Action) : Prop :=
  exists request resume,
    suspended (act p a) = (suspended p ++ [Requested request resume])%list /\
    isLoading (shown (act p a)) = true /\
    error (shown (act p a)) = None /\ resultImage (shown (act p a)) = None.

End ReachedStatements.
(** The generated background stored, if any, is a PNG data URI of data
    that is not empty. *)
Definition png_background (s : AppState) : Prop :=
  match generatedBackground s with
  | Some g => exists d, d <> "" /\ g = png_data_uri d
  | None => True
  end.

(** [f] holds of every number below [k]. *)
Fixpoint all_below (f : N -> bool) (k : nat) : bool :=
  match k with
  | O => true
  | S j => f (N.of_nat j) && all_below f j
  end.

(** The three controls that hold what the user typed or chose. *)
Definition types_prompt (a : Action) : bool :=
  match a with TypePrompt _ => true | _ => false end.

Definition types_background_prompt (a : Action) : bool :=
  match a with TypeBackgroundPrompt _ => true | _ => false end.

Definition picks_mode (a : Action) : bool :=
  match a with ClickBgMode _ => true | _ => false end.

(** A session: a file is read in, objects are detected on it, and the box
    of the first one is clicked. *)
Definition catTrace : list Action :=
  [ChooseFile (Some {| fileType := "image/jpeg" |});
   PromiseSettles 0 (Normal "data:image/jpeg;base64,AAAA");
   ClickDetectObjects;
   ContentSettles 0 (Fulfilled (textResponse catBody));
   ClickBox 0].

(* ================================================================== *)
(** * The built-ins on known inputs *)
(* ================================================================== *)

Lemma Number_literal_examples :
  Number_literal "0.1" = S754_finite false 7205759403792794 (-56) /\
  Number_literal "1" = S754_finite false 4503599627370496 (-52) /\
  Number_literal "-0" = S754_zero true /\
  Number_literal "5e-324" = S754_finite false 1 (-1074) /\
  Number_literal "1.7976931348623157e308" =
    S754_finite false 9007199254740991 971 /\
  Number_literal "1e400" = S754_infinity false.
Proof. vm_compute. repeat split. Qed.

Lemma toFixed_examples {NTS : NumberToString} :
  toFixed 4 (Number_literal "0.1") = "0.1000" /\
  toFixed 4 (Number_literal "0.00005") = "0.0001" /\
  toFixed 4 (Number_literal "-0.00001") = "-0.0000" /\
  toFixed 4 (Number_literal "-0") = "0.0000" /\
  toFixed 4 (Number_literal "1") = "1.0000" /\
  toFixed 4 (Number_literal "0.99994") = "0.9999" /\
  toFixed 4 (Number_literal "0.999951") = "1.0000" /\
  toFixed 2 (Number_literal "1.005") = "1.00" /\
  toFixed 2 (Number_literal "8.345") = "8.35" /\
  toFixed 1 (Number_literal "1.45") = "1.4" /\
  toFixed 0 (Number_literal "2.5") = "3" /\
  toFixed 0 (Number_literal "-2.5") = "-3" /\
  toFixed 4 (Number_literal "123456789.123456789") = "123456789.1235".
Proof. vm_compute. repeat split. Qed.

Lemma JSON_parse_examples :
  JSON_parse "null" = Some JNull /\
  JSON_parse " [true, false, null] " = Some (JArray [JBool true; JBool false; JNull]) /\
  JSON_parse "[0.5, -0, 1e0]" =
    Some (JArray [JNumber (S754_finite false 4503599627370496 (-53));
                  JNumber (S754_zero true);
                  JNumber (S754_finite false 4503599627370496 (-52))]) /\
  JSON_parse ("{" ++ quoted "a" ++ ":1," ++ quoted "b" ++ ":{}," ++ quoted "a" ++ ":[]}") =
    Some (JObject [("a", JArray []); ("b", JObject [])]) /\
  JSON_parse (quoted "a\nb\u0041") = Some (JString ("a" ++ chr 10 ++ "bA")) /\
  JSON_parse "" = None /\ JSON_parse "[1,]" = None /\ JSON_parse "01" = None /\
  JSON_parse "{}x" = None /\ JSON_parse "undefined" = None /\
  JSON_parse ".5" = None /\ JSON_parse "[" = None.
Proof. vm_compute. repeat split. Qed.

Lemma string_examples :
  trim (chr 10 ++ "  a b " ++ chr 9) = "a b" /\
  trim (bytes [194; 160]%nat ++ "x" ++ bytes [239; 187; 191]%nat) = "x" /\
  split "," "data:image/png;base64,AAAA" = ["data:image/png;base64"; "AAAA"] /\
  base64_of_src "data:image/png;base64,AAAA" = Some "AAAA" /\
  base64_of_src "AAAA" = None /\
  join ", " ["a"; "b"; "c"] = "a, b, c".
Proof. vm_compute. repeat split. Qed.

(* ================================================================== *)
(** * Strings and decimal notation *)
(* ================================================================== *)

Lemma length_app (a b : string) :
  String.length (a ++ b) = (String.length a + String.length b)%nat.
Proof. induction a as [|c a IH]; simpl; [reflexivity | now rewrite IH]. Qed.

Lemma app_assoc_string (a b c : string) : (a ++ b) ++ c = a ++ (b ++ c).
Proof. induction a as [|x a IH]; simpl; [reflexivity | now rewrite IH]. Qed.

Lemma app_empty_r (a : string) : a ++ "" = a.
Proof. induction a as [|x a IH]; simpl; [reflexivity | now rewrite IH]. Qed.

Lemma all_digits_app (a b : string) :
  all_digits (a ++ b) = all_digits a && all_digits b.
Proof.
  induction a as [|c a IH]; simpl; [reflexivity|].
  rewrite IH. now rewrite andb_assoc.
Qed.

Lemma all_digits_zeros (n : nat) : all_digits (zeros n) = true.
Proof. induction n as [|n IH]; simpl; [reflexivity | exact IH]. Qed.

Lemma length_zeros (n : nat) : String.length (zeros n) = n.
Proof. induction n as [|n IH]; simpl; [reflexivity | now rewrite IH]. Qed.

Lemma all_digits_uint (d : Decimal.uint) :
  all_digits (NilEmpty.string_of_uint d) = true.
Proof. induction d; simpl; auto. Qed.

Lemma all_digits_digits_of_N (n : N) : all_digits (digits_of_N n) = true.
Proof. apply all_digits_uint. Qed.

Lemma digits_of_N_nonempty (n : N) : digits_of_N n <> "".
Proof.
  unfold digits_of_N. destruct n as [|p]; [discriminate|].
  simpl. pose proof (DecimalPos.Unsigned.to_uint_nonnil p) as Hn.
  destruct (Pos.to_uint p); [contradiction | discriminate ..].
Qed.

Lemma digits_of_N_inj (n n' : N) : digits_of_N n = digits_of_N n' -> n = n'.
Proof.
  unfold digits_of_N. intros H.
  apply DecimalN.Unsigned.to_uint_inj.
  apply (f_equal NilEmpty.uint_of_string) in H.
  rewrite !NilEmpty.usu in H. now injection H.
Qed.

Lemma split_at_spec (n : nat) (s : string) :
  (n <= String.length s)%nat ->
  s = fst (split_at n s) ++ snd (split_at n s) /\
  String.length (fst (split_at n s)) = n.
Proof.
  revert s. induction n as [|n IH]; intros s Hn.
  - destruct s; simpl; auto.
  - destruct s as [|c r]; simpl in *; [lia|].
    destruct (IH r ltac:(lia)) as [E L].
    destruct (split_at n r) as [a b]; simpl in *.
    split; [now rewrite <- E | now rewrite L].
Qed.

Lemma N_of_digits_step (c : ascii) (r : string) (acc : N) :
  N_of_digits (String c r) acc =
  N_of_digits r (10 * acc + (N.of_nat (nat_of_ascii c) - 48))%N.
Proof. reflexivity. Qed.

Lemma N_of_digits_acc (d : Decimal.uint) (p : positive) :
  N_of_digits (NilEmpty.string_of_uint d) (Npos p) = Npos (Pos.of_uint_acc d p).
Proof.
  revert p. induction d; intros p; cbn [NilEmpty.string_of_uint Pos.of_uint_acc];
    [reflexivity
    | rewrite N_of_digits_step, <- IHd; f_equal;
      vm_compute (N.of_nat _ - 48)%N; lia ..].
Qed.

Lemma N_of_digits_uint (d : Decimal.uint) :
  N_of_digits (NilEmpty.string_of_uint d) 0 = Pos.of_uint d.
Proof.
  induction d; cbn [NilEmpty.string_of_uint Pos.of_uint];
    [reflexivity
    | rewrite N_of_digits_step; vm_compute (10 * 0 + _)%N;
      first [exact IHd | apply N_of_digits_acc] ..].
Qed.

(** Reading the digits of [n] gives [n] back. *)
Lemma N_of_digits_digits_of_N (n : N) : N_of_digits (digits_of_N n) 0 = n.
Proof.
  unfold digits_of_N. rewrite N_of_digits_uint.
  apply DecimalN.Unsigned.of_to.
Qed.

Lemma N_of_digits_zeros (k : nat) (s : string) :
  N_of_digits (zeros k ++ s) 0 = N_of_digits s 0.
Proof. induction k as [|k IH]; simpl; [reflexivity | exact IH]. Qed.

Lemma fixed_digits_numeral (f : nat) (n : N) :
  exists a b,
    fixed_digits (S f) n = a ++ "." ++ b /\
    a <> "" /\ all_digits a = true /\
    String.length b = S f /\ all_digits b = true /\
    N_of_digits (a ++ b) 0 = n.
Proof.
  unfold fixed_digits.
  set (m := digits_of_N n).
  set (m' := if (String.length m <=? S f)%nat
             then zeros (S f + 1 - String.length m) ++ m else m).
  assert (Hd : all_digits m' = true).
  { unfold m'. destruct (String.length m <=? S f)%nat.
    - rewrite all_digits_app, all_digits_zeros. apply all_digits_digits_of_N.
    - apply all_digits_digits_of_N. }
  assert (Hl : (S f < String.length m')%nat).
  { unfold m'. destruct (Nat.leb_spec (String.length m) (S f)).
    - rewrite length_app, length_zeros. lia.
    - lia. }
  assert (Hv : N_of_digits m' 0 = n).
  { unfold m'. destruct (String.length m <=? S f)%nat.
    - rewrite N_of_digits_zeros. apply N_of_digits_digits_of_N.
    - apply N_of_digits_digits_of_N. }
  destruct (split_at_spec (String.length m' - S f) m' ltac:(lia)) as [E L].
  destruct (split_at (String.length m' - S f) m') as [a b]; simpl in E, L.
  exists a, b.
  assert (Hlen : String.length m' = (String.length a + String.length b)%nat)
    by (rewrite E at 1; apply length_app).
  rewrite E in Hv.
  rewrite E, all_digits_app in Hd. apply andb_true_iff in Hd as [Ha Hb].
  repeat split; auto; try lia.
  intros ->. simpl in L. lia.
Qed.

(** The integer toFixed prints is the nearest to the scaled value. *)
Lemma nearest_scaled_spec (f : nat) (m : positive) (e : Z) :
  nearest_integer f m e (nearest_scaled f m e).
Proof.
  unfold nearest_integer, nearest_scaled.
  assert (Hsc : 0 < Zpos m * 10 ^ Z.of_nat f) by (apply Z.mul_pos_pos; lia).
  destruct e as [|k|k]; cbv zeta.
  - rewrite Z2N.id; nia.
  - rewrite Z2N.id; [reflexivity|].
    assert (0 < 2 ^ Zpos k) by (apply Z.pow_pos_nonneg; lia). nia.
  - set (sc := Zpos m * 10 ^ Z.of_nat f) in *.
    assert (Hp : 0 < 2 ^ Zpos k) by (apply Z.pow_pos_nonneg; lia).
    assert (Hp1 : 2 ^ (Zpos k + 1) = 2 * 2 ^ Zpos k) by (rewrite Z.pow_add_r; lia).
    rewrite Hp1.
    assert (Hq : 0 <= (2 * sc + 2 ^ Zpos k) / (2 * 2 ^ Zpos k))
      by (apply Z.div_pos; lia).
    rewrite Z2N.id by exact Hq.
    pose proof (Z.div_mod (2 * sc + 2 ^ Zpos k) (2 * 2 ^ Zpos k) ltac:(lia)) as Hdm.
    pose proof (Z.mod_pos_bound (2 * sc + 2 ^ Zpos k) (2 * 2 ^ Zpos k) ltac:(lia)) as Hm.
    nia.
Qed.

(** toFixed on a number in range. *)
Lemma toFixed_fixed_point {NTS : NumberToString} (f : nat) (x : number) :
  fixed_range x = true -> fixed_point_of (S f) x (toFixed (S f) x).
Proof.
  intros Hr. destruct x as [s| | |s m e]; simpl in Hr; try discriminate.
  - destruct (fixed_digits_numeral f 0) as (a & b & E & H).
    exists false, 0%N, a, b. unfold toFixed. rewrite E. tauto.
  - apply negb_true_iff in Hr. unfold toFixed. rewrite Hr.
    destruct (fixed_digits_numeral f (nearest_scaled (S f) m e)) as (a & b & E & H).
    exists s, (nearest_scaled (S f) m e), a, b. rewrite E.
    split; [reflexivity|].
    pose proof (nearest_scaled_spec (S f) m e). tauto.
Qed.

(** Every normalized coordinate is finite and in the range where toFixed
    prints digits itself. *)
Lemma digits2_pos_bound (m : positive) : Zpos m < 2 ^ Zpos (digits2_pos m).
Proof.
  induction m as [m IH|m IH|]; cbn [digits2_pos]; [| |reflexivity];
    rewrite Pos2Z.inj_succ, Z.pow_succ_r by lia; lia.
Qed.

Lemma normalized_in_range (x : number) :
  normalized x = true -> fixed_range x = true /\ finite_double x = true.
Proof.
  unfold normalized, finite_double. intros H.
  apply andb_true_iff in H as [H H1]. apply andb_true_iff in H as [Hv H0].
  destruct x as [s|s| |s m e]; try (split; reflexivity).
  - destruct s; discriminate.
  - discriminate.
  - destruct s; [discriminate|]. split; [|cbn [is_finite]; now rewrite Hv].
    cbn [fixed_range]. apply negb_true_iff.
    cbn [valid_binary] in Hv.
    unfold bounded, canonical_mantissa, fexp, SpecFloat.emin in Hv.
    apply andb_true_iff in Hv as [Hc _]. apply Z.eqb_eq in Hc.
    pose proof (digits2_pos_bound m) as Hm.
    change (Number_of_Z 1) with (S754_finite false 4503599627370496 (-52)) in H1.
    unfold JS.le, SFleb, SFcompare in H1.
    assert (He : e <= -52).
    { destruct (Z.compare_spec e (-52)); [lia | lia | discriminate]. }
    assert (Hd : Zpos (digits2_pos m) <= 53) by (unfold prec, emax in Hc; lia).
    destruct e as [|k|k]; try lia.
    unfold ge_1e21. apply Z.leb_gt.
    assert (2 ^ Zpos (digits2_pos m) <= 2 ^ 53) by (apply Z.pow_le_mono_r; lia).
    assert (2 ^ 52 <= 2 ^ Zpos k) by (apply Z.pow_le_mono_r; lia).
    change (2 ^ 53) with 9007199254740992 in *.
    change (2 ^ 52) with 4503599627370496 in *.
    change (10 ^ 21) with 1000000000000000000000. lia.
Qed.

Lemma normalized_box_in_range (b : BoundingBox) :
  normalized_box b = true -> fixed_range_box b = true /\ finite_box b = true.
Proof.
  unfold normalized_box, fixed_range_box, finite_box. intros H.
  apply andb_true_iff in H as [H H4]. apply andb_true_iff in H as [H H3].
  apply andb_true_iff in H as [H1 H2].
  destruct (normalized_in_range _ H1) as [-> ->], (normalized_in_range _ H2) as [-> ->],
           (normalized_in_range _ H3) as [-> ->], (normalized_in_range _ H4) as [-> ->].
  split; reflexivity.
Qed.

(* ================================================================== *)
(** * The concrete Number::toString meets the contract *)
(* ================================================================== *)

Lemma bits_prefix_free (p q : positive) (r r' : string) :
  bits p ++ r = bits q ++ r' -> p = q /\ r = r'.
Proof.
  revert q. induction p as [p IH|p IH|]; intros [q|q|]; simpl; intros H;
    try discriminate; injection H as H.
  - destruct (IH _ H) as [-> ->]. auto.
  - destruct (IH _ H) as [-> ->]. auto.
  - auto.
Qed.

Lemma bits_inj (p q : positive) : bits p = bits q -> p = q.
Proof.
  intros H. apply (bits_prefix_free p q "" "").
  now rewrite !app_empty_r.
Qed.

Lemma exponent_bits_inj (e e' : Z) : exponent_bits e = exponent_bits e' -> e = e'.
Proof.
  destruct e, e'; simpl; intros H; try discriminate; try reflexivity;
    injection H as H; apply bits_inj in H; now subst.
Qed.

Lemma bits_head (p : positive) (r : string) :
  exists c t, bits p ++ r = String c t /\ c <> "-"%char /\ (c = "0"%char -> t <> "").
Proof.
  destruct p as [q|q|]; simpl.
  - exists "1"%char, (bits q ++ r). repeat split; discriminate.
  - exists "0"%char, (bits q ++ r). repeat split; try discriminate.
    intros _. destruct q; discriminate.
  - exists "."%char, r. repeat split; discriminate.
Qed.

Lemma strict_eq_finite (s s' : bool) (m m' : positive) (e e' : Z) :
  strict_eq (S754_finite s m e) (S754_finite s' m' e') = true <->
  s = s' /\ m = m' /\ e = e'.
Proof.
  unfold strict_eq, SFeqb, SFcompare.
  split.
  - destruct s, s'; try discriminate;
      destruct (Z.compare_spec e e') as [He|He|He]; try discriminate;
      destruct (Pos.compare_cont Eq m m') eqn:Hm; try discriminate;
      intros _; apply Pos.compare_eq in Hm; auto.
  - intros (-> & -> & ->).
    rewrite Z.compare_refl.
    change (Pos.compare_cont Eq m' m') with (Pos.compare m' m').
    rewrite Pos.compare_refl. destruct s'; reflexivity.
Qed.

Lemma excludes_app (c : ascii) (a b : string) :
  excludes c (a ++ b) = excludes c a && excludes c b.
Proof.
  induction a as [|x a IH]; simpl; [reflexivity|].
  rewrite IH. now rewrite andb_assoc.
Qed.

Lemma excludes_bits (p : positive) : excludes "," (bits p) = true.
Proof. induction p; simpl; auto. Qed.

Lemma binary_toString_distinguishes : Number_toString_distinguishes binary_toString.
Proof.
  intros x y Hx Hy.
  destruct x as [s| | |s m e], y as [s'| | |s' m' e']; try discriminate;
    unfold Number_toString, binary_toString.
  - split; reflexivity.
  - split; [|unfold strict_eq, SFeqb; simpl; destruct s'; discriminate].
    intros H. exfalso.
    destruct s'; simpl in H; [discriminate|].
    destruct (bits_head m' (exponent_bits e')) as (c & t & E & _ & Hz).
    rewrite E in H. injection H as Hc Ht. symmetry in Hc, Ht. now apply Hz.
  - split; [|unfold strict_eq, SFeqb; simpl; destruct s; discriminate].
    intros H. exfalso.
    destruct s; simpl in H; [discriminate|].
    destruct (bits_head m (exponent_bits e)) as (c & t & E & _ & Hz).
    rewrite E in H. injection H as Hc Ht. now apply Hz.
  - rewrite strict_eq_finite. split.
    + intros H.
      assert (Hs : s = s').
      { destruct s, s'; auto; simpl in H; exfalso.
        - destruct (bits_head m' (exponent_bits e')) as (c & t & E & Hc & _).
          rewrite E in H. injection H as Hc' _. now apply Hc.
        - destruct (bits_head m (exponent_bits e)) as (c & t & E & Hc & _).
          rewrite E in H. injection H as Hc' _. now apply Hc. }
      subst s'.
      assert (H' : bits m ++ exponent_bits e = bits m' ++ exponent_bits e')
        by (destruct s; simpl in H; [now injection H | exact H]).
      apply bits_prefix_free in H' as [-> He].
      apply exponent_bits_inj in He. auto.
    + now intros (-> & -> & ->).
Qed.

Lemma binary_toString_charset : Number_toString_charset binary_toString.
Proof.
  intros x Hx. destruct x as [s| | |s m e]; try discriminate;
    unfold Number_toString, binary_toString; [reflexivity|].
  rewrite !excludes_app, excludes_bits.
  destruct s, e; simpl; auto using excludes_bits.
Qed.

(* ================================================================== *)
(** * Prompt synthesis: the bounding-box literal *)
(* ================================================================== *)

Lemma join_contains (sep x : string) (l : list string) :
  In x l -> exists pre post, join sep l = pre ++ x ++ post.
Proof.
  induction l as [|y l IH]; intros Hin; [contradiction|].
  destruct Hin as [->|Hin].
  - destruct l as [|z l].
    + exists "", "". simpl. now rewrite app_empty_r.
    + exists "", (sep ++ join sep (z :: l)). reflexivity.
  - destruct (IH Hin) as (pre & post & E).
    destruct l as [|z l]; [contradiction|].
    exists (y ++ sep ++ pre), post.
    change (join sep (y :: z :: l)) with (y ++ sep ++ join sep (z :: l)).
    rewrite E. now rewrite !app_assoc_string.
Qed.

Lemma mapi_from_In {A B : Type} (f : A -> nat -> B) (l : list A) (x : A) (k : nat) :
  In x l -> exists i, In (f x i) (mapi_from k f l).
Proof.
  revert k. induction l as [|y l IH]; intros k Hin; [contradiction|].
  destruct Hin as [->|Hin].
  - exists k. now left.
  - destruct (IH (S k) Hin) as [i Hi]. exists i. now right.
Qed.

Lemma regroup3 (a b c x d : string) :
  a ++ b ++ c ++ x ++ d = (a ++ b ++ c) ++ x ++ d.
Proof. now rewrite !app_assoc_string. Qed.

Lemma regroup4 (a b c d x e : string) :
  a ++ b ++ c ++ d ++ x ++ e = (a ++ b ++ c ++ d) ++ x ++ e.
Proof. now rewrite !app_assoc_string. Qed.

Lemma regroup_entry5 (h pre a b c d x post t : string) :
  h ++ (pre ++ (a ++ b ++ c ++ d ++ x) ++ post) ++ t =
  (h ++ pre ++ a ++ b ++ c ++ d) ++ x ++ post ++ t.
Proof. now rewrite !app_assoc_string. Qed.

(** C1. For a region whose coordinates are finite and below 10^21 in
    magnitude (every normalized coordinate is), the bounding-box literal is
    the four coordinates in the order y_min, x_min, y_max, x_max, each in
    fixed-point notation with exactly four decimal places; the preset,
    isolate, remove and translate prompts all contain that literal; and the
    region (0.1, 0.2, 0.3, 0.4) renders as [0.2000, 0.1000, 0.4000, 0.3000]. *)
Theorem bbox_literal_four_decimals {NTS : NumberToString} (o : DetectedObject) :
  fixed_range_box (boundingBox o) = true ->
  let b := boundingBox o in
  (exists ymin xmin ymax xmax,
      bboxString b = "[" ++ ymin ++ ", " ++ xmin ++ ", " ++ ymax ++ ", " ++ xmax ++ "]" /\
      ymin = toFixed 4 (y_min b) /\ fixed_point_of 4 (y_min b) ymin /\
      xmin = toFixed 4 (x_min b) /\ fixed_point_of 4 (x_min b) xmin /\
      ymax = toFixed 4 (y_max b) /\ fixed_point_of 4 (y_max b) ymax /\
      xmax = toFixed 4 (x_max b) /\ fixed_point_of 4 (x_max b) xmax) /\
  (forall presetKey, exists pre post,
      quickEditPrompt presetKey o = pre ++ bboxString b ++ post) /\
  (exists pre post, isolatePrompt o = pre ++ bboxString b ++ post) /\
  (forall selected, In o selected -> exists pre post,
      removePrompt selected = pre ++ bboxString b ++ post) /\
  (forall selected, In o selected -> exists pre post,
      translatePrompt selected = pre ++ bboxString b ++ post) /\
  bboxString sampleBox = "[0.2000, 0.1000, 0.4000, 0.3000]".
Proof.
  intros Hr b. unfold fixed_range_box in Hr.
  apply andb_true_iff in Hr as [Hr Hd]. apply andb_true_iff in Hr as [Hr Hc].
  apply andb_true_iff in Hr as [Ha Hb].
  split; [|split; [|split; [|split; [|split]]]].
  - exists (toFixed 4 (y_min b)), (toFixed 4 (x_min b)),
           (toFixed 4 (y_max b)), (toFixed 4 (x_max b)).
    split; [reflexivity|].
    repeat split; now apply toFixed_fixed_point.
  - intros key. unfold quickEditPrompt. fold b.
    destruct (PresetKey_eqb key removeText).
    + eexists; eexists; apply regroup3.
    + eexists; eexists; apply regroup4.
  - unfold isolatePrompt. fold b. eexists; eexists; apply regroup3.
  - intros sel Hin. unfold removePrompt, mapi.
    destruct (mapi_from_In removeEntry sel o 0 Hin) as [i Hi].
    destruct (join_contains (chr 10) _ _ Hi) as (pre & post & E).
    rewrite E. unfold removeEntry. fold b.
    eexists; exists (post ++ "").
    rewrite <- (app_empty_r (pre ++ _ ++ post)).
    apply regroup_entry5.
  - intros sel Hin. unfold translatePrompt, mapi.
    destruct (mapi_from_In translateEntry sel o 0 Hin) as [i Hi].
    destruct (join_contains (chr 10) _ _ Hi) as (pre & post & E).
    rewrite E. unfold translateEntry. fold b.
    eexists; eexists. apply regroup_entry5.
  - vm_compute. reflexivity.
Qed.

Lemma bbox_literal_four_decimals_witness :
  fixed_range_box (boundingBox sampleObject) = true /\
  In sampleObject [otherObject; sampleObject] /\
  (exists pre post,
      @isolatePrompt binary_toString sampleObject =
      pre ++ @bboxString binary_toString (boundingBox sampleObject) ++ post) /\
  (exists pre post,
      @removePrompt binary_toString [otherObject; sampleObject] =
      pre ++ @bboxString binary_toString (boundingBox sampleObject) ++ post).
Proof.
  pose proof (@bbox_literal_four_decimals binary_toString sampleObject eq_refl)
    as (_ & _ & Hisolate & Hremove & _).
  split; [reflexivity|]. split; [right; left; reflexivity|].
  split; [exact Hisolate|].
  apply Hremove. right; left; reflexivity.
Defined.

(* ================================================================== *)
(** * Region equality *)
(* ================================================================== *)

Lemma cut_at_separator (c : ascii) (a a' r r' : string) :
  excludes c a = true -> excludes c a' = true ->
  a ++ String c r = a' ++ String c r' -> a = a' /\ r = r'.
Proof.
  revert a'. induction a as [|x a IH]; intros [|y a'] Ha Ha' H; simpl in *.
  - injection H as H. auto.
  - injection H as Hc _. subst y.
    rewrite Ascii.eqb_refl in Ha'. discriminate.
  - injection H as Hc _. subst x.
    rewrite Ascii.eqb_refl in Ha. discriminate.
  - injection H as Hc H. subst y.
    apply andb_true_iff in Ha as [_ Ha]. apply andb_true_iff in Ha' as [_ Ha'].
    destruct (IH _ Ha Ha' H) as [-> ->]. auto.
Qed.

Lemma app_inv_tail_string (a b c : string) : a ++ c = b ++ c -> a = b.
Proof.
  revert b. induction a as [|x a IH]; intros [|y b] H; simpl in *.
  - reflexivity.
  - exfalso. apply (f_equal String.length) in H. simpl in H.
    rewrite length_app in H. lia.
  - exfalso. apply (f_equal String.length) in H. simpl in H.
    rewrite length_app in H. lia.
  - injection H as -> H. f_equal. now apply IH.
Qed.

Section RegionEquality.
Context {NTS : NumberToString}.

Lemma JSON_stringify_number_finite (x : number) :
  finite_double x = true -> JSON_stringify_number x = Number_toString x.
Proof.
  unfold finite_double, JSON_stringify_number.
  intros H. apply andb_true_iff in H as [-> _]. reflexivity.
Qed.

Lemma areObjectsEqual_true (a b : DetectedObject) :
  areObjectsEqual a b = true <->
  label a = label b /\
  JSON_stringify_boundingBox (boundingBox a) = JSON_stringify_boundingBox (boundingBox b).
Proof.
  unfold areObjectsEqual. rewrite andb_true_iff, !String.eqb_eq. reflexivity.
Qed.

Lemma areObjectsEqual_refl (a : DetectedObject) : areObjectsEqual a a = true.
Proof. apply areObjectsEqual_true. auto. Qed.

Lemma areObjectsEqual_sym (a b : DetectedObject) :
  areObjectsEqual a b = areObjectsEqual b a.
Proof.
  unfold areObjectsEqual.
  now rewrite (String.eqb_sym (label a)), (String.eqb_sym (JSON_stringify_boundingBox _)).
Qed.

Lemma areObjectsEqual_trans (a b c : DetectedObject) :
  areObjectsEqual a b = true -> areObjectsEqual b c = true ->
  areObjectsEqual a c = true.
Proof.
  rewrite !areObjectsEqual_true. intros [-> ->] [-> ->]. auto.
Qed.

Lemma QuoteJSONString_keyName (k : CoordinateKey) :
  QuoteJSONString (keyName k) = quoted (keyName k).
Proof. destruct k; reflexivity. Qed.

Lemma property_inj (k k' : CoordinateKey) (n n' : string) :
  quoted (keyName k) ++ ":" ++ n = quoted (keyName k') ++ ":" ++ n' ->
  k = k' /\ n = n'.
Proof.
  destruct k, k'; cbn; intros H; inversion H; auto.
Qed.

Lemma excludes_keyName (k : CoordinateKey) : excludes "," (quoted (keyName k)) = true.
Proof. destruct k; reflexivity. Qed.

Hypothesis distinguishes : Number_toString_distinguishes NTS.
Hypothesis charset : Number_toString_charset NTS.

Lemma finite_coordinate (b : BoundingBox) (k : CoordinateKey) :
  finite_box b = true -> finite_double (coordinate b k) = true.
Proof.
  unfold finite_box. intros H.
  apply andb_true_iff in H as [H H4]. apply andb_true_iff in H as [H H3].
  apply andb_true_iff in H as [H1 H2]. destruct k; assumption.
Qed.

Lemma stringified_coordinate (b : BoundingBox) (k : CoordinateKey) :
  finite_box b = true ->
  JSON_stringify_property b (Coordinate k) =
  quoted (keyName k) ++ ":" ++ Number_toString (coordinate b k) /\
  excludes "," (JSON_stringify_property b (Coordinate k)) = true.
Proof.
  intros Hb. pose proof (finite_coordinate b k Hb) as Hk.
  cbn [JSON_stringify_property].
  rewrite QuoteJSONString_keyName, (JSON_stringify_number_finite _ Hk).
  split; [reflexivity|].
  rewrite !excludes_app, excludes_keyName, (charset _ Hk). reflexivity.
Qed.

(** The serialized properties of two boxes agree exactly when the keys
    and the numbers do. *)
Lemma stringified_coordinates_equal (p q : BoundingBox) (k k' : CoordinateKey) :
  finite_box p = true -> finite_box q = true ->
  (JSON_stringify_property p (Coordinate k) = JSON_stringify_property q (Coordinate k') <->
   k = k' /\ strict_eq (coordinate p k) (coordinate q k) = true).
Proof.
  intros Hp Hq.
  destruct (stringified_coordinate p k Hp) as [-> _].
  destruct (stringified_coordinate q k' Hq) as [-> _].
  split.
  - intros H. apply property_inj in H as [<- H]. split; [reflexivity|].
    now apply (distinguishes _ _ (finite_coordinate p k Hp) (finite_coordinate q k Hq)).
  - intros [<- H].
    apply (distinguishes _ _ (finite_coordinate p k Hp) (finite_coordinate q k Hq)) in H.
    now rewrite H.
Qed.

Lemma stringified_boxes_equal (p q : BoundingBox) :
  four_coordinates p = true -> four_coordinates q = true ->
  finite_box p = true -> finite_box q = true ->
  (JSON_stringify_boundingBox p = JSON_stringify_boundingBox q <->
   ownProperties p = ownProperties q /\
   strict_eq (x_min p) (x_min q) = true /\ strict_eq (y_min p) (y_min q) = true /\
   strict_eq (x_max p) (x_max q) = true /\ strict_eq (y_max p) (y_max q) = true).
Proof.
  unfold four_coordinates, JSON_stringify_boundingBox. intros Fp Fq Hp Hq.
  destruct (ownProperties p) as [|[p1|] [|[p2|] [|[p3|] [|[p4|] [|]]]]]; try discriminate Fp.
  destruct (ownProperties q) as [|[q1|] [|[q2|] [|[q3|] [|[q4|] [|]]]]]; try discriminate Fq.
  cbn [map join].
  pose proof (stringified_coordinates_equal p q p1 q1 Hp Hq) as E1.
  pose proof (stringified_coordinates_equal p q p2 q2 Hp Hq) as E2.
  pose proof (stringified_coordinates_equal p q p3 q3 Hp Hq) as E3.
  pose proof (stringified_coordinates_equal p q p4 q4 Hp Hq) as E4.
  destruct (stringified_coordinate p p1 Hp) as [_ X1].
  destruct (stringified_coordinate p p2 Hp) as [_ X2].
  destruct (stringified_coordinate p p3 Hp) as [_ X3].
  destruct (stringified_coordinate q q1 Hq) as [_ Y1].
  destruct (stringified_coordinate q q2 Hq) as [_ Y2].
  destruct (stringified_coordinate q q3 Hq) as [_ Y3].
  set (a1 := JSON_stringify_property p (Coordinate p1)) in *.
  set (a2 := JSON_stringify_property p (Coordinate p2)) in *.
  set (a3 := JSON_stringify_property p (Coordinate p3)) in *.
  set (a4 := JSON_stringify_property p (Coordinate p4)) in *.
  set (b1 := JSON_stringify_property q (Coordinate q1)) in *.
  set (b2 := JSON_stringify_property q (Coordinate q2)) in *.
  set (b3 := JSON_stringify_property q (Coordinate q3)) in *.
  set (b4 := JSON_stringify_property q (Coordinate q4)) in *.
  clearbody a1 a2 a3 a4 b1 b2 b3 b4.
  assert (Hcut : "{" ++ (a1 ++ "," ++ a2 ++ "," ++ a3 ++ "," ++ a4) ++ "}" =
                 "{" ++ (b1 ++ "," ++ b2 ++ "," ++ b3 ++ "," ++ b4) ++ "}" <->
                 a1 = b1 /\ a2 = b2 /\ a3 = b3 /\ a4 = b4).
  { split.
    - intros H. cbn in H. injection H as H.
      repeat (rewrite app_assoc_string in H; cbn in H).
      apply cut_at_separator in H as [H1 H]; [|assumption ..].
      apply cut_at_separator in H as [H2 H]; [|assumption ..].
      apply cut_at_separator in H as [H3 H]; [|assumption ..].
      apply app_inv_tail_string in H. auto.
    - intros (-> & -> & -> & ->). reflexivity. }
  rewrite Hcut, E1, E2, E3, E4. clear Hcut E1 E2 E3 E4 X1 X2 X3 Y1 Y2 Y3.
  split.
  - intros ((<- & S1) & (<- & S2) & (<- & S3) & (<- & S4)). split; [reflexivity|].
    destruct p1, p2, p3, p4; try discriminate Fp; cbn [coordinate] in *; auto.
  - intros (E & S1 & S2 & S3 & S4). injection E as <- <- <- <-.
    destruct p1, p2, p3, p4; try discriminate Fp; cbn [coordinate]; auto.
Qed.


End RegionEquality.

(** C4, as the code has it: the order of the keys of a box, and a
    property the box holds besides the coordinates, tell two regions
    apart that have the same label and the same four coordinates.  The
    three regions are the ones a response lists that repeats a region with
    its keys reordered and with a score added. *)
Lemma key_order_distinguishes :
  match settle (detectObjects (Some "AAAA") "image/png")
               (Fulfilled (textResponse threeCatsBody)) with
  | Normal objects => @asDetectedObjects listed_regions objects
  | Throw _ => []
  end = [cat; reorderedCat; annotatedCat] /\
  label cat = label reorderedCat /\ label cat = label annotatedCat /\
  (forall k, strict_eq (coordinate (boundingBox cat) k)
                       (coordinate (boundingBox reorderedCat) k) = true /\
             strict_eq (coordinate (boundingBox cat) k)
                       (coordinate (boundingBox annotatedCat) k) = true) /\
  @areObjectsEqual binary_toString cat reorderedCat = false /\
  @areObjectsEqual binary_toString cat annotatedCat = false /\
  @JSON_stringify_boundingBox binary_toString (boundingBox annotatedCat) =
  "{" ++ quoted "x_min" ++ ":" ++ binary_toString (Number_literal "0.1") ++ "," ++
  quoted "y_min" ++ ":" ++ binary_toString (Number_literal "0.2") ++ "," ++
  quoted "x_max" ++ ":" ++ binary_toString (Number_literal "0.3") ++ "," ++
  quoted "y_max" ++ ":" ++ binary_toString (Number_literal "0.4") ++ "," ++
  quoted "score" ++ ":" ++ binary_toString (Number_literal "0.9") ++ "}".
Proof.
  split; [vm_compute; reflexivity|]. split; [reflexivity|]. split; [reflexivity|].
  split; [intros k; destruct k; split; vm_compute; reflexivity|].
  split; [vm_compute; reflexivity|]. split; vm_compute; reflexivity.
Qed.


(* ================================================================== *)
(** * The selection set *)
(* ================================================================== *)

Section Selection.
Context {NTS : NumberToString}.

Lemma filter_Subsequence {A : Type} (f : A -> bool) (l : list A) :
  Subsequence (filter f l) l.
Proof.
  induction l as [|x l IH]; simpl; [constructor|].
  destruct (f x); now constructor.
Qed.

Lemma existsb_filter_false (f : DetectedObject -> bool) (x : DetectedObject)
  (l : list DetectedObject) :
  existsb (fun o => areObjectsEqual o x) l = false ->
  existsb (fun o => areObjectsEqual o x) (filter f l) = false.
Proof.
  induction l as [|y l IH]; simpl; [reflexivity|].
  intros H. apply orb_false_iff in H as [Hy Hl].
  destruct (f y); simpl; [rewrite Hy|]; auto.
Qed.

Lemma distinct_filter (f : DetectedObject -> bool) (l : list DetectedObject) :
  distinct l = true -> distinct (filter f l) = true.
Proof.
  induction l as [|x l IH]; simpl; [reflexivity|].
  intros H. apply andb_true_iff in H as [Hx Hl].
  destruct (f x); simpl; auto.
  rewrite (IH Hl), andb_true_r.
  apply negb_true_iff in Hx. now rewrite existsb_filter_false.
Qed.

Lemma distinct_snoc (l : list DetectedObject) (r : DetectedObject) :
  distinct l = true ->
  existsb (fun o => areObjectsEqual o r) l = false ->
  distinct (l ++ [r])%list = true.
Proof.
  induction l as [|x l IH]; simpl; [reflexivity|].
  intros H Hr. apply andb_true_iff in H as [Hx Hl].
  apply orb_false_iff in Hr as [Hxr Hlr].
  rewrite (IH Hl Hlr), andb_true_r.
  apply negb_true_iff in Hx. apply negb_true_iff.
  rewrite existsb_app, Hx. simpl.
  now rewrite areObjectsEqual_sym, Hxr.
Qed.

Lemma filter_all (f : DetectedObject -> bool) (l : list DetectedObject) :
  existsb (fun o => negb (f o)) l = false -> filter f l = l.
Proof.
  induction l as [|x l IH]; simpl; [reflexivity|].
  intros H. apply orb_false_iff in H as [Hx Hl].
  apply negb_false_iff in Hx. rewrite Hx. now rewrite IH.
Qed.

(** C5. handleObjectSelect replaces the selection [s] by
    [toggleSelection r s], which removes the regions equal to [r] when
    there is one, keeping the others in their order, and otherwise appends
    [r] at the end; on a selection without repetitions it removes exactly
    the one equal region and leaves a selection without repetitions;
    toggling the same region twice from the empty selection gives the empty
    selection. *)
Theorem toggleSelection_spec (r : DetectedObject) (s : list DetectedObject) :
  (forall st, selectedObjects st = s ->
     requests (handleObjectSelect r) = [] /\
     selectedObjects (immediately (handleObjectSelect r) st) = toggleSelection r s) /\
  (existsb (fun o => areObjectsEqual o r) s = true ->
     Subsequence (toggleSelection r s) s /\
     (forall o, In o (toggleSelection r s) <->
                In o s /\ areObjectsEqual o r = false) /\
     (forall before x after,
         distinct s = true -> s = (before ++ x :: after)%list ->
         areObjectsEqual x r = true ->
         toggleSelection r s = (before ++ after)%list)) /\
  (existsb (fun o => areObjectsEqual o r) s = false ->
     toggleSelection r s = (s ++ [r])%list) /\
  (distinct s = true -> distinct (toggleSelection r s) = true) /\
  toggleSelection r (toggleSelection r []) = [].
Proof.
  split; [intros st <-; split; reflexivity|].
  unfold toggleSelection. split; [|split; [|split]].
  - intros ->. split; [apply filter_Subsequence|]. split.
    + intros o. rewrite filter_In, negb_true_iff. reflexivity.
    + intros before x after Hd -> Hx.
      rewrite filter_app. simpl. rewrite Hx. simpl.
      assert (Hother : forall o, In o (before ++ after)%list -> areObjectsEqual o r = false).
      { intros o Ho. destruct (areObjectsEqual o r) eqn:Hor; [exfalso|reflexivity].
        assert (Hox : areObjectsEqual o x = true)
          by (apply (areObjectsEqual_trans o r x); [exact Hor | now rewrite areObjectsEqual_sym]).
        clear Hor Hx. induction before as [|y before IH]; simpl in *.
        - apply andb_true_iff in Hd as [Hd _]. apply negb_true_iff in Hd.
          assert (existsb (fun o0 => areObjectsEqual o0 x) after = true)
            by (apply existsb_exists; eauto).
          congruence.
        - apply andb_true_iff in Hd as [Hy Hd]. destruct Ho as [->|Ho]; [|auto].
          apply negb_true_iff in Hy.
          assert (existsb (fun o0 => areObjectsEqual o0 o) (before ++ x :: after)%list = true).
          { apply existsb_exists. exists x. split; [apply in_or_app; right; now left|].
            now rewrite areObjectsEqual_sym. }
          congruence. }
      f_equal; apply filter_all; apply not_true_is_false; intros He;
        apply existsb_exists in He as (o & Ho & Hn); apply negb_true_iff in Hn;
        rewrite negb_false_iff in Hn;
        rewrite Hother in Hn by (apply in_or_app; auto); discriminate.
  - intros ->. reflexivity.
  - intros Hd. destruct (existsb (fun o => areObjectsEqual o r) s) eqn:He.
    + now apply distinct_filter.
    + now apply distinct_snoc.
  - simpl. now rewrite areObjectsEqual_refl.
Qed.

End Selection.

Lemma toggleSelection_spec_witness :
  existsb (fun o => @areObjectsEqual binary_toString o sampleObject)
    [otherObject; sampleObject] = true /\
  @distinct binary_toString [otherObject; sampleObject] = true /\
  @toggleSelection binary_toString sampleObject [otherObject; sampleObject] = [otherObject] /\
  @distinct binary_toString
    (@toggleSelection binary_toString sampleObject [otherObject; sampleObject]) = true /\
  existsb (fun o => @areObjectsEqual binary_toString o sampleObject) [otherObject] = false /\
  @toggleSelection binary_toString sampleObject [otherObject] = [otherObject; sampleObject].
Proof.
  pose proof (@toggleSelection_spec binary_toString sampleObject [otherObject; sampleObject])
    as (_ & Hpresent & _ & Hdistinct & _).
  pose proof (@toggleSelection_spec binary_toString sampleObject [otherObject])
    as (_ & _ & Habsent & _).
  split; [vm_compute; reflexivity|].
  split; [vm_compute; reflexivity|].
  split.
  - apply (proj2 (proj2 (Hpresent ltac:(vm_compute; reflexivity)))
             [otherObject] sampleObject []); vm_compute; reflexivity.
  - split; [apply Hdistinct; vm_compute; reflexivity|].
    split; [vm_compute; reflexivity|].
    apply Habsent. vm_compute; reflexivity.
Defined.

(* ================================================================== *)
(** * Remove and translate: the numbered entries *)
(* ================================================================== *)

Lemma handleGenerate_sends (st : AppState) (img : ImageState) (p : string) :
  image st = Some img -> is_empty p = false ->
  prompts_sent (handleGenerate st (Some p)) = [p].
Proof.
  intros Hi Hp. unfold handleGenerate, currentPrompt. rewrite Hi.
  destruct p; [discriminate | reflexivity].
Qed.

Lemma mapi_from_length {A B : Type} (f : A -> nat -> B) (l : list A) (k : nat) :
  List.length (mapi_from k f l) = List.length l.
Proof.
  revert k. induction l as [|x l IH]; intros k; simpl; [reflexivity | now rewrite IH].
Qed.

Lemma mapi_from_nth {A B : Type} (f : A -> nat -> B) (l : list A) (k i : nat) (x : A) :
  nth_error l i = Some x -> nth_error (mapi_from k f l) i = Some (f x (k + i)%nat).
Proof.
  revert k i. induction l as [|y l IH]; intros k [|i]; simpl; try discriminate.
  - intros [= ->]. now rewrite Nat.add_0_r.
  - intros H. rewrite (IH (S k) i H). f_equal. f_equal. lia.
Qed.

Lemma rev_string_rev_string (a b c : string) :
  rev_string (rev_string a b) c = rev_string b (a ++ c).
Proof.
  revert b c. induction a as [|x a IH]; intros b c; simpl; [reflexivity|].
  now rewrite IH.
Qed.

Lemma split_on_to_separator (sep : ascii) (a r cur : string) :
  excludes sep a = true ->
  split_on sep (a ++ String sep r) cur
  = rev_string cur a :: split_on sep r "".
Proof.
  revert cur. induction a as [|x a IH]; intros cur Ha; simpl.
  - now rewrite Ascii.eqb_refl.
  - simpl in Ha. apply andb_true_iff in Ha as [Hx Ha].
    apply negb_true_iff in Hx. rewrite Hx. now rewrite IH.
Qed.

Lemma split_on_no_separator (sep : ascii) (a cur : string) :
  excludes sep a = true -> split_on sep a cur = [rev_string cur a].
Proof.
  revert cur. induction a as [|x a IH]; intros cur Ha; simpl; [reflexivity|].
  simpl in Ha. apply andb_true_iff in Ha as [Hx Ha].
  apply negb_true_iff in Hx. rewrite Hx. now rewrite IH.
Qed.

Lemma split_join (sep : ascii) (l : list string) :
  l <> [] -> Forall (fun x => excludes sep x = true) l ->
  split sep (join (String sep "") l) = l.
Proof.
  unfold split. induction l as [|x [|y r] IH]; intros Hne Hl; [contradiction| |].
  - inversion Hl as [|? ? Hx _]. cbn [join]. now rewrite split_on_no_separator.
  - inversion Hl as [|? ? Hx Hr]. subst.
    change (join (String sep "") (x :: y :: r))
      with (x ++ String sep (join (String sep "") (y :: r))).
    rewrite (split_on_to_separator sep x _ "" Hx). cbn [rev_string].
    f_equal. apply IH; [discriminate | exact Hr].
Qed.

Lemma split_join_terminated (sep : ascii) (l : list string) :
  l <> [] -> Forall (fun x => excludes sep x = true) l ->
  split sep (join (String sep "") l ++ String sep "") = (l ++ [""])%list.
Proof.
  unfold split. induction l as [|x [|y r] IH]; intros Hne Hl; [contradiction| |].
  - inversion Hl as [|? ? Hx _]. cbn [join].
    now rewrite (split_on_to_separator sep x "" "" Hx).
  - inversion Hl as [|? ? Hx Hr]. subst.
    change (join (String sep "") (x :: y :: r) ++ String sep "")
      with ((x ++ String sep (join (String sep "") (y :: r))) ++ String sep "").
    rewrite app_assoc_string.
    change (String sep (join (String sep "") (y :: r)) ++ String sep "")
      with (String sep (join (String sep "") (y :: r) ++ String sep "")).
    rewrite (split_on_to_separator sep x _ "" Hx). cbn [rev_string app].
    f_equal. apply IH; [discriminate | exact Hr].
Qed.

Lemma all_digits_excludes (c : ascii) (s : string) :
  is_digit c = false -> all_digits s = true -> excludes c s = true.
Proof.
  intros Hc. induction s as [|d s IH]; cbn; [reflexivity|].
  intros H. apply andb_true_iff in H as [Hd Hs]. rewrite (IH Hs), andb_true_r.
  apply negb_true_iff. destruct (Ascii.eqb_spec d c) as [->|]; [congruence | reflexivity].
Qed.

Lemma after_digits_app (d r : string) :
  all_digits d = true -> after_digits (d ++ String "." r) = String "." r.
Proof.
  induction d as [|c d IH]; cbn; [reflexivity|].
  intros H. apply andb_true_iff in H as [-> Hd]. now apply IH.
Qed.

Lemma numbered_ordinal (i : nat) (rest : string) :
  numbered (ordinal i ++ String "." (String " " rest)) = true.
Proof.
  unfold ordinal, numbered.
  pose proof (all_digits_digits_of_N (N.of_nat (i + 1))) as Hd.
  pose proof (digits_of_N_nonempty (N.of_nat (i + 1))) as Hn.
  rewrite (after_digits_app _ _ Hd).
  destruct (digits_of_N (N.of_nat (i + 1))) as [|c d]; [contradiction|].
  cbn in Hd |- *. apply andb_true_iff in Hd as [-> _]. reflexivity.
Qed.

Lemma filter_all_true {A : Type} (f : A -> bool) (l : list A) :
  Forall (fun x => f x = true) l -> filter f l = l.
Proof.
  induction 1 as [|x l Hx _ IH]; cbn; [reflexivity|]. now rewrite Hx, IH.
Qed.

Lemma Forall_mapi_from {A B : Type} (P : B -> Prop) (f : A -> nat -> B) (l : list A) :
  (forall x i, In x l -> P (f x i)) -> forall k, Forall P (mapi_from k f l).
Proof.
  induction l as [|x l IH]; intros H k; cbn; constructor.
  - apply H. now left.
  - apply IH. intros y i Hy. apply H. now right.
Qed.

Section Enumeration.
Context {NTS : NumberToString}.

Lemma toFixed_one_line (x : number) :
  fixed_range x = true -> excludes newline (toFixed 4 x) = true.
Proof.
  intros Hx. destruct (toFixed_fixed_point 3 x Hx)
    as (neg & n & a & b & -> & _ & Ha & _ & Hb & _).
  rewrite !excludes_app.
  rewrite (all_digits_excludes newline a eq_refl Ha),
          (all_digits_excludes newline b eq_refl Hb).
  destruct neg; reflexivity.
Qed.

Lemma bboxString_one_line (b : BoundingBox) :
  fixed_range_box b = true -> excludes newline (bboxString b) = true.
Proof.
  unfold fixed_range_box, bboxString. intros H.
  apply andb_true_iff in H as [H H4]. apply andb_true_iff in H as [H H3].
  apply andb_true_iff in H as [H1 H2].
  rewrite !excludes_app, !toFixed_one_line by assumption. reflexivity.
Qed.

Lemma entries_one_line (selected : list DetectedObject) :
  forallb one_line selected = true ->
  Forall (fun x => excludes newline x = true) (mapi removeEntry selected) /\
  Forall (fun x => excludes newline x = true) (mapi translateEntry selected) /\
  Forall (fun x => numbered x = true) (mapi removeEntry selected) /\
  Forall (fun x => numbered x = true) (mapi translateEntry selected).
Proof.
  intros H. rewrite forallb_forall in H.
  assert (Hl : forall o, In o selected ->
                 excludes newline (label o) = true /\
                 excludes newline (bboxString (boundingBox o)) = true).
  { intros o Ho. specialize (H o Ho). apply andb_true_iff in H as [Hlab Hbox].
    split; [exact Hlab | now apply bboxString_one_line]. }
  assert (Hord : forall i, excludes newline (ordinal i) = true).
  { intros i. apply all_digits_excludes; [reflexivity | apply all_digits_digits_of_N]. }
  split; [|split; [|split]]; apply Forall_mapi_from; intros o i Ho.
  - destruct (Hl o Ho) as [Hlab Hbox]. unfold removeEntry.
    rewrite !excludes_app, Hord, Hlab, Hbox. reflexivity.
  - destruct (Hl o Ho) as [Hlab Hbox]. unfold translateEntry, quoted.
    rewrite !excludes_app, Hord. cbn [excludes]. rewrite !excludes_app, Hlab, Hbox.
    reflexivity.
  - apply numbered_ordinal.
  - apply numbered_ordinal.
Qed.


(** The other two syntheses: what the preset and isolate actions send. *)
Lemma single_region_prompts_sent (st : AppState) (img : ImageState)
  (o : DetectedObject) (key : PresetKey) :
  image st = Some img -> selectedObjects st = [o] ->
  prompts_sent (handleQuickEdit st key) = [quickEditPrompt key o] /\
  prompts_sent (handleObjectAction st isolate) = [isolatePrompt o].
Proof.
  intros Hi Hs. unfold handleQuickEdit, handleObjectAction. rewrite Hi, Hs. split.
  - pose proof (handleGenerate_sends st img (quickEditPrompt key o) Hi) as H.
    destruct (handleGenerate st (Some (quickEditPrompt key o))); apply H;
      destruct key; reflexivity.
  - apply (handleGenerate_sends st img); [assumption | reflexivity].
Qed.

(** The scenarios of the design: the removeText preset on one region, and
    remove on two regions in the order they were selected. *)
Lemma removeText_scenario :
  quickEditPrompt removeText
    {| label := "watermark";
       boundingBox := {| x_min := Number_literal "0.1"; y_min := Number_literal "0.1";
                         x_max := Number_literal "0.2"; y_max := Number_literal "0.2";
                         ownProperties := declaredOrder |} |}
  = "Remove the selected text 'watermark' located within the normalized bounding box (y_min, x_min, y_max, x_max) [0.1000, 0.1000, 0.2000, 0.2000]. Inpaint the area naturally to match the surroundings.".
Proof. vm_compute. reflexivity. Qed.

Lemma remove_two_regions_scenario :
  removePrompt [otherObject; sampleObject]
  = "Remove the following objects from the image and inpaint their areas naturally to match the surroundings:"
    ++ chr 10 ++
    "1. The object 'watermark' located within bounding box [0.2000, 0.1000, 0.5000, 0.3000]"
    ++ chr 10 ++
    "2. The object 'watermark' located within bounding box [0.2000, 0.1000, 0.4000, 0.3000]".
Proof. vm_compute. reflexivity. Qed.

End Enumeration.

(** C9, as the code has it: a label is copied into the prompt as it is.
    One selected region whose label holds a line break gives the very
    prompt of a selection of two regions, with two numbered entries. *)
Lemma label_forges_an_entry :
  List.length [forgedObject] = 1%nat /\
  @removePrompt binary_toString [forgedObject] =
  @removePrompt binary_toString
    [{| label := "cat"; boundingBox := sampleBox |};
     {| label := "dog"; boundingBox := sampleBox |}] /\
  List.length (numbered_lines (@removePrompt binary_toString [forgedObject])) = 2%nat /\
  List.length (numbered_lines (@translatePrompt binary_toString
    [{| label := "a" ++ String dquote "" ++ chr 10 ++ "7. Original Text: " ++
                  String dquote "b";
        boundingBox := sampleBox |}])) = 2%nat.
Proof. vm_compute. repeat split. Qed.


(* ================================================================== *)
(** * Generation: the guard and the response without an image *)
(* ================================================================== *)

(** C2. When the image is absent or the effective prompt
    [promptOverride || prompt] is empty, handleGenerate sends no request,
    stores the precondition message as the error and leaves isLoading as it
    was; dispatched on the component, nothing is sent or left in flight. *)
Theorem handleGenerate_guard (st : AppState) (promptOverride : option string) :
  image st = None \/ currentPrompt promptOverride (prompt st) = "" ->
  let h := handleGenerate st promptOverride in
  requests h = [] /\
  h = Sync (setError (Some precondition_message)) /\
  (forall s, error (immediately h s) = Some precondition_message /\
             isLoading (immediately h s) = isLoading s /\
             resultImage (immediately h s) = resultImage s) /\
  (forall w, sent (dispatch h w) = sent w /\
             inflight (dispatch h w) = inflight w /\
             error (ui (dispatch h w)) = Some precondition_message /\
             isLoading (ui (dispatch h w)) = isLoading (ui w)).
Proof.
  intros Hguard h.
  assert (Hh : h = Sync (setError (Some precondition_message))).
  { unfold h, handleGenerate. destruct Hguard as [-> | ->]; [reflexivity|].
    destruct (image st); reflexivity. }
  rewrite Hh. repeat split.
Qed.

Lemma handleGenerate_guard_witness :
  (image initialState = None \/ currentPrompt (Some "") (prompt initialState) = "") /\
  requests (handleGenerate initialState (Some "")) = [].
Proof.
  split; [left; reflexivity|].
  apply (handleGenerate_guard initialState (Some "")). left. reflexivity.
Defined.

Lemma first_image_none (ps : list Part) :
  (forall part, In part ps -> image_data part = None) -> first_image ps = None.
Proof.
  induction ps as [|p ps IH]; intros H; simpl; [reflexivity|].
  rewrite (H p (or_introl eq_refl)). apply IH. intros q Hq. apply H. now right.
Qed.

Lemma image_of_response_no_payload (m1 m2 : string) (r : GenerateContentResponse) :
  no_image_payload r -> exists e, image_of_response m1 m2 (Fulfilled r) = Throw e.
Proof.
  unfold image_of_response.
  intros [-> | [-> | (c & rest & -> & Hc)]]; [eexists; reflexivity ..|].
  destruct (content c) as [ct|] eqn:Hct; [|eexists; reflexivity].
  destruct (parts ct) as [ps|] eqn:Hps; [|eexists; reflexivity].
  rewrite first_image_none; [eexists; reflexivity|].
  intros part Hin. exact (Hc ct ps part Hct Hps Hin).
Qed.

(** C7. A fulfilled edit response with no candidates, or whose first
    candidate has no part with inline image data, makes editImage throw its
    error; handleGenerate then ends with that message as the error, not
    loading, and with no result image. *)
Theorem edit_without_image_fails (st : AppState) (img : ImageState)
  (promptOverride : option string) (r : GenerateContentResponse) :
  image st = Some img ->
  currentPrompt promptOverride (prompt st) <> "" ->
  no_image_payload r ->
  (forall base64 mime p,
      settle (editImage base64 mime p) (Fulfilled r) = Throw (ErrorObject edit_failed)) /\
  exists before request resume,
    handleGenerate st promptOverride = Await before request resume /\
    (forall s, error (resume (Fulfilled r) s) = Some edit_failed /\
               isLoading (resume (Fulfilled r) s) = false /\
               resultImage (resume (Fulfilled r) s) = resultImage s) /\
    (forall s, resultImage (resume (Fulfilled r) (before s)) = None /\
               error (resume (Fulfilled r) (before s)) = Some edit_failed /\
               isLoading (resume (Fulfilled r) (before s)) = false).
Proof.
  intros Hi Hp Hr.
  assert (Hs : forall base64 mime p,
             settle (editImage base64 mime p) (Fulfilled r) = Throw (ErrorObject edit_failed)).
  { intros base64 mime p. unfold editImage, settle.
    destruct (image_of_response_no_payload "API returned no candidates."
                "No image data found in the API response." r Hr) as [e ->].
    reflexivity. }
  split; [exact Hs|].
  unfold handleGenerate. rewrite Hi.
  destruct (currentPrompt promptOverride (prompt st)) as [|c p] eqn:Hcp;
    [contradiction|]. simpl is_empty. cbv iota.
  eexists; eexists; eexists. split; [reflexivity|].
  split; intros s; rewrite Hs; repeat split.
Qed.

Lemma edit_without_image_fails_witness :
  image sampleState = Some sampleImage /\
  currentPrompt (Some "make it blue") (prompt sampleState) <> "" /\
  no_image_payload emptyResponse /\
  settle (editImage (Some "AAAA") "image/jpeg" "make it blue") (Fulfilled emptyResponse)
  = Throw (ErrorObject edit_failed).
Proof.
  split; [reflexivity|]. split; [discriminate|].
  split; [right; left; reflexivity|].
  apply (edit_without_image_fails sampleState sampleImage (Some "make it blue") emptyResponse);
    [reflexivity | discriminate | right; left; reflexivity].
Defined.

(* ================================================================== *)
(** * Detection: what the response body decides *)
(* ================================================================== *)

(** C3, as the code has it: an unparseable body is an error. *)
Lemma unparseable_body_is_an_error :
  trim "not json" = "not json" /\ JSON_parse "not json" = None /\
  settle (detectObjects (Some "AAAA") "image/png") (Fulfilled (textResponse "not json"))
  = Throw (ErrorObject objects_failed) /\
  settle (detectWatermarkText (Some "AAAA") "image/png") (Fulfilled (textResponse "not json"))
  = Throw (ErrorObject watermark_failed).
Proof. vm_compute. repeat split. Qed.

(** C3, amended. For both detectors: a body that is empty once trimmed
    gives the empty list; a body that JSON.parse rejects gives the
    detector's error; so do a response without text and a rejected
    backend call. *)
Theorem detection_body_outcomes (detect : option string -> string -> Call json)
  (failed : string) (base64 : option string) (mime : string) :
  In (detect, failed) detectors ->
  (forall body cands,
      trim body = "" ->
      settle (detect base64 mime) (Fulfilled {| candidates := cands; text := Some body |})
      = Normal (JArray [])) /\
  (forall body cands,
      trim body <> "" -> JSON_parse (trim body) = None ->
      settle (detect base64 mime) (Fulfilled {| candidates := cands; text := Some body |})
      = Throw (ErrorObject failed)) /\
  (forall cands,
      settle (detect base64 mime) (Fulfilled {| candidates := cands; text := None |})
      = Throw (ErrorObject failed)) /\
  (forall reason,
      settle (detect base64 mime) (Rejected reason) = Throw (ErrorObject failed)).
Proof.
  intros [E | [E | []]]; injection E as <- <-; unfold settle, detectObjects,
    detectWatermarkText, objects_of_response; cbn [text].
  all: split; [intros body cands ->; reflexivity|].
  all: split; [|split; reflexivity].
  all: intros body cands Hne ->; destruct (trim body); [contradiction | reflexivity].
Qed.

Lemma detection_body_outcomes_witness :
  In (detectObjects, objects_failed) detectors /\
  trim "  " = "" /\
  settle (detectObjects None "image/png") (Fulfilled (textResponse "  "))
  = Normal (JArray []) /\
  trim "{" <> "" /\ JSON_parse (trim "{") = None /\
  settle (detectObjects None "image/png") (Fulfilled (textResponse "{"))
  = Throw (ErrorObject objects_failed).
Proof.
  pose proof (detection_body_outcomes detectObjects objects_failed None "image/png"
                (or_introl eq_refl)) as (Hempty & Hbad & _).
  split; [left; reflexivity|].
  split; [vm_compute; reflexivity|].
  split; [apply Hempty; vm_compute; reflexivity|].
  split; [vm_compute; discriminate|].
  split; [vm_compute; reflexivity|].
  apply Hbad; [vm_compute; discriminate | vm_compute; reflexivity].
Defined.

(** C10, as the code has it: the body [null] is valid JSON without an
    objects field, and reading [result.objects] throws. *)
Lemma null_body_is_an_error :
  JSON_parse (trim "null") = Some JNull /\
  settle (detectObjects (Some "AAAA") "image/png") (Fulfilled (textResponse "null"))
  = Throw (ErrorObject objects_failed) /\
  settle (detectWatermarkText (Some "AAAA") "image/png") (Fulfilled (textResponse "null"))
  = Throw (ErrorObject watermark_failed).
Proof. vm_compute. repeat split. Qed.

(** C10, amended. For both detectors: a body that parses to a JSON value
    other than null, with no objects property or a falsy one, gives the
    empty list; a truthy objects property is returned as it is. *)
Theorem detection_without_objects (detect : option string -> string -> Call json)
  (failed : string) (base64 : option string) (mime : string) :
  In (detect, failed) detectors ->
  (forall body cands v,
      trim body <> "" -> JSON_parse (trim body) = Some v -> v <> JNull ->
      objects_missing_or_falsy v ->
      settle (detect base64 mime) (Fulfilled {| candidates := cands; text := Some body |})
      = Normal (JArray [])) /\
  (forall body cands members objects,
      trim body <> "" -> JSON_parse (trim body) = Some (JObject members) ->
      assoc "objects" members = Some objects -> truthy (Some objects) = true ->
      settle (detect base64 mime) (Fulfilled {| candidates := cands; text := Some body |})
      = Normal objects).
Proof.
  intros [E | [E | []]]; injection E as <- <-; unfold settle, detectObjects,
    detectWatermarkText, objects_of_response; cbn [text].
  all: split.
  all: try (intros body cands v Hne -> Hv Hm; destruct (trim body); [contradiction|];
            cbn [is_empty];
            destruct v as [| | | | |members]; try contradiction; try reflexivity;
            cbn [get_property rethrow_as]; simpl in Hm;
            destruct (assoc "objects" members); [rewrite Hm|]; reflexivity).
  all: intros body cands members objects Hne -> Ha Ht; destruct (trim body);
    [contradiction|]; cbn [is_empty get_property rethrow_as]; rewrite Ha, Ht; reflexivity.
Qed.

Lemma detection_without_objects_witness :
  In (detectWatermarkText, watermark_failed) detectors /\
  trim " [] " <> "" /\ JSON_parse (trim " [] ") = Some (JArray []) /\
  JArray [] <> JNull /\ objects_missing_or_falsy (JArray []) /\
  settle (detectWatermarkText None "image/png") (Fulfilled (textResponse " [] "))
  = Normal (JArray []) /\
  JSON_parse (trim objectsBody) = Some (JObject [("objects", JArray [JBool true])]) /\
  settle (detectWatermarkText None "image/png") (Fulfilled (textResponse objectsBody))
  = Normal (JArray [JBool true]).
Proof.
  pose proof (detection_without_objects detectWatermarkText watermark_failed None
                "image/png" (or_intror (or_introl eq_refl))) as (Hmissing & Hpresent).
  split; [right; left; reflexivity|].
  split; [vm_compute; discriminate|].
  split; [vm_compute; reflexivity|].
  split; [discriminate|]. split; [exact I|].
  split.
  - apply (Hmissing " [] " None (JArray []));
      [vm_compute; discriminate | vm_compute; reflexivity | discriminate | exact I].
  - split; [vm_compute; reflexivity|].
    apply (Hpresent objectsBody None [("objects", JArray [JBool true])] (JArray [JBool true]));
      [vm_compute; discriminate | vm_compute; reflexivity | reflexivity | reflexivity].
Defined.

(* ================================================================== *)
(** * Generation: loading, result and error over time *)
(* ================================================================== *)

Lemma handleGenerate_starts (st : AppState) (ov : option string) :
  active (image st) = true -> is_empty (currentPrompt ov (prompt st)) = false ->
  starts_generation (handleGenerate st ov).
Proof.
  intros Hi Hp. unfold handleGenerate.
  destruct (image st) as [img|]; [|discriminate]. rewrite Hp.
  eexists; eexists; eexists. split; [reflexivity|].
  split; [intros s; repeat split|].
  intros o s Hr He.
  match goal with
  | |- context [match ?c with Normal _ => _ | Throw _ => _ end] => destruct c
  end; unfold main_exclusive; simpl; [rewrite He | rewrite Hr]; split; reflexivity.
Qed.

Lemma handleGenerate_starts_with (st : AppState) (p : string) :
  active (image st) = true -> is_empty p = false ->
  starts_generation (handleGenerate st (Some p)).
Proof.
  intros Hi Hp. apply handleGenerate_starts; [exact Hi|].
  unfold currentPrompt. now rewrite Hp.
Qed.

Lemma after_setters_starts (f : AppState -> AppState) (h : Handler) :
  starts_generation h -> starts_generation (after_setters f h).
Proof.
  intros (b & r & k & -> & Hb & Hk). exists (f >> b), r, k.
  split; [reflexivity|]. split; [|exact Hk]. intros s. apply Hb.
Qed.

Section Lifecycle.
Context {NTS : NumberToString}.

Lemma quickEditPrompt_nonempty (key : PresetKey) (o : DetectedObject) :
  is_empty (quickEditPrompt key o) = false.
Proof. destruct key; reflexivity. Qed.

(** Every permitted generation event dispatches a handler that starts a
    generation. *)
Lemma permitted_generation_starts (w : World) (ev : Event) (h : Handler) :
  permitted w ev = true ->
  match ev with
  | Generate ov => h = handleGenerate (ui w) ov
  | QuickEdit key => h = handleQuickEdit (ui w) key
  | ObjectActionEv a => h = handleObjectAction (ui w) a
  | Translate => h = handleTranslate (ui w)
  | _ => False
  end ->
  isLoading (ui w) = false /\ starts_generation h.
Proof.
  unfold permitted. intros Hp Hh.
  destruct ev as [ov|key|a| | | | | |]; try contradiction; subst h.
  - apply andb_true_iff in Hp as [Hp Hq]. apply andb_true_iff in Hp as [Hi Hl].
    apply negb_true_iff in Hl. apply negb_true_iff in Hq.
    split; [exact Hl | now apply handleGenerate_starts].
  - apply andb_true_iff in Hp as [Hp Hn]. apply andb_true_iff in Hp as [Hi Hl].
    apply negb_true_iff in Hl. split; [exact Hl|].
    unfold handleQuickEdit.
    destruct (image (ui w)) eqn:Himg; [|discriminate].
    destruct (selectedObjects (ui w)) as [|o [|o' rest]]; try discriminate.
    apply after_setters_starts, handleGenerate_starts_with.
    + now rewrite Himg.
    + apply quickEditPrompt_nonempty.
  - destruct a.
    + apply andb_true_iff in Hp as [Hp Hn]. apply andb_true_iff in Hp as [Hi Hl].
      apply negb_true_iff in Hl. split; [exact Hl|].
      unfold handleObjectAction.
      destruct (selectedObjects (ui w)) as [|o [|o' rest]]; try discriminate.
      now apply handleGenerate_starts_with.
    + apply andb_true_iff in Hp as [Hp Hn]. apply andb_true_iff in Hp as [Hi Hl].
      apply negb_true_iff in Hl. split; [exact Hl|].
      unfold handleObjectAction.
      destruct (selectedObjects (ui w)) as [|o rest]; [discriminate|].
      now apply handleGenerate_starts_with.
  - apply andb_true_iff in Hp as [Hp Hn]. apply andb_true_iff in Hp as [Hi Hl].
    apply negb_true_iff in Hl. split; [exact Hl|].
    unfold handleTranslate.
    destruct (selectedObjects (ui w)) as [|o rest]; [discriminate|].
    now apply handleGenerate_starts_with.
Qed.

Lemma dispatch_generation_invariant (w : World) (h : Handler) :
  lifecycle_invariant w -> isLoading (ui w) = false -> starts_generation h ->
  lifecycle_invariant (dispatch h w).
Proof.
  unfold lifecycle_invariant. intros Hinv Hl (b & r & k & -> & Hb & Hk).
  destruct (inflight w) as [|k0 [|k1 rest]] eqn:Hin.
  - simpl. rewrite Hin. simpl. destruct (Hb (ui w)) as (? & ? & ?). auto.
  - destruct Hinv as [Hinv _]. congruence.
  - contradiction.
Qed.

Lemma step_preserves_invariant (w : World) (ev : Event) :
  lifecycle_invariant w -> permitted w ev = true -> lifecycle_invariant (step w ev).
Proof.
  intros Hinv Hp.
  destruct ev as [ov|key|a|obj| | |v| |o].
  - destruct (permitted_generation_starts w _ _ Hp eq_refl) as [Hl Hs].
    now apply dispatch_generation_invariant.
  - destruct (permitted_generation_starts w _ _ Hp eq_refl) as [Hl Hs].
    now apply dispatch_generation_invariant.
  - destruct (permitted_generation_starts w _ _ Hp eq_refl) as [Hl Hs].
    now apply dispatch_generation_invariant.
  - (* ObjectSelect *)
    unfold lifecycle_invariant in *. simpl.
    destruct (inflight w) as [|k [|k' rest]]; [exact Hinv | exact Hinv | contradiction].
  - destruct (permitted_generation_starts w _ _ Hp eq_refl) as [Hl Hs].
    now apply dispatch_generation_invariant.
  - discriminate.
  - (* PromptEdited *)
    unfold lifecycle_invariant in *. simpl.
    destruct (inflight w) as [|k [|k' rest]]; [exact Hinv | exact Hinv | contradiction].
  - (* ClearImage *)
    unfold lifecycle_invariant in *. simpl.
    destruct (inflight w) as [|k [|k' rest]]; [| |contradiction].
    + destruct Hinv as [Hl _]. unfold main_exclusive. cbn. rewrite Hl. auto.
    + destruct Hinv as (Hl & _ & _ & Hk). cbn. auto.
  - (* Settled *)
    unfold lifecycle_invariant in *. unfold step.
    destruct (inflight w) as [|k [|k' rest]] eqn:Hin; [| |contradiction].
    + rewrite Hin. exact Hinv.
    + simpl. destruct Hinv as (_ & Hr & He & Hk). exact (Hk o (ui w) Hr He).
Qed.

Lemma run_preserves_invariant (evs : list Event) (w : World) :
  lifecycle_invariant w -> permitted_trace w evs = true ->
  lifecycle_invariant (run w evs).
Proof.
  revert w. induction evs as [|ev evs IH]; intros w Hinv Hp; simpl in *; [exact Hinv|].
  apply andb_true_iff in Hp as [Hev Hrest].
  apply IH; [now apply step_preserves_invariant | exact Hrest].
Qed.

End Lifecycle.

(** C6, as the code has it: a second background generation is pending
    while the background generated before is still stored. *)
Lemma background_pending_keeps_result :
  let w := @run binary_toString (mount initialState)
             [GenerateBackground; Settled (Fulfilled (imageResponse "QUJD"));
              GenerateBackground] in
  isGeneratingBg (ui w) = true /\
  generatedBackground (ui w) = Some "data:image/png;base64,QUJD" /\
  background_exclusive (ui w) = false.
Proof. vm_compute. repeat split. Qed.

(** In the main editor a precondition error is stored next to the result of
    the generation before it: here a quick action with nothing selected. *)
Lemma precondition_error_keeps_result :
  let w := @run binary_toString (mount (setImage (Some sampleImage) initialState))
             [PromptEdited "make it blue"; Generate None;
              Settled (Fulfilled (imageResponse "QUJD")); QuickEdit sketch] in
  resultImage (ui w) = Some "data:image/png;base64,QUJD" /\
  error (ui w) = Some "Please select exactly one object for this action." /\
  main_exclusive (ui w) = false.
Proof. vm_compute. repeat split. Qed.

(** C6, amended. From a state that is not loading and holds at most one of
    result and error, through permitted events (every generation of the
    main editor dispatched with an image, nothing loading and its
    precondition met; prompt edits, clearing the image, toggling a region,
    a request settling), at most one of isLoading, resultImage and error is
    active, at most one request is in flight, and while loading neither a
    result nor an error is stored; every permitted generation sends one
    request and enters pending with the result and the error cleared.
    Background generation enters pending with the error cleared and the
    generated background kept. *)
Theorem guarded_generation_exclusive {NTS : NumberToString}
  (st : AppState) (evs : list Event) :
  isLoading st = false -> main_exclusive st = true ->
  permitted_trace (mount st) evs = true ->
  let w := run (mount st) evs in
  main_exclusive (ui w) = true /\
  (List.length (inflight w) <= 1)%nat /\
  (isLoading (ui w) = true -> resultImage (ui w) = None /\ error (ui w) = None) /\
  (forall ev,
      is_generation ev = true -> permitted w ev = true ->
      isLoading (ui (step w ev)) = true /\
      resultImage (ui (step w ev)) = None /\ error (ui (step w ev)) = None /\
      List.length (sent (step w ev)) = S (List.length (sent w))) /\
  (forall s,
      backgroundPrompt s <> "" ->
      exists b r k,
        handleGenerateBackground s = Await b r k /\
        forall s', isGeneratingBg (b s') = true /\ error (b s') = None /\
                   generatedBackground (b s') = generatedBackground s').
Proof.
  intros Hl He Hp w.
  assert (Hinv : lifecycle_invariant w).
  { apply run_preserves_invariant; [|exact Hp]. unfold lifecycle_invariant. simpl. auto. }
  unfold lifecycle_invariant in Hinv.
  split; [|split; [|split; [|split]]].
  - destruct (inflight w) as [|k [|k' rest]]; [tauto| |contradiction].
    destruct Hinv as (H1 & H2 & H3 & _). unfold main_exclusive. now rewrite H1, H2, H3.
  - destruct (inflight w) as [|k [|k' rest]]; simpl; [lia | lia | contradiction].
  - destruct (inflight w) as [|k [|k' rest]]; [|tauto|contradiction].
    destruct Hinv as [H1 _]. congruence.
  - intros ev Hg Hev.
    assert (Hs : exists h, step w ev = dispatch h w /\ starts_generation h).
    { destruct ev; try discriminate;
        (eexists; split; [reflexivity|];
         exact (proj2 (permitted_generation_starts w _ _ Hev eq_refl))). }
    destruct Hs as (h & -> & b & r & k & -> & Hb & _).
    destruct (Hb (ui w)) as (H1 & H2 & H3). simpl.
    rewrite List.length_app. simpl. repeat split; auto. lia.
  - intros s Hb. unfold handleGenerateBackground.
    destruct (backgroundPrompt s); [contradiction|].
    eexists; eexists; eexists. split; [reflexivity|]. intros s'. repeat split.
Qed.

Lemma guarded_generation_exclusive_witness :
  let st := setSelectedObjects (fun _ => [sampleObject])
              (setImage (Some sampleImage) initialState) in
  let evs := [PromptEdited "make it blue"; Generate None;
              Settled (Fulfilled (imageResponse "QUJD")); QuickEdit sketch;
              Settled (Rejected NonError); ObjectSelect otherObject;
              ObjectActionEv remove; Settled (Fulfilled emptyResponse);
              Translate; ClearImage; Settled (Fulfilled (imageResponse "QUJD"))] in
  let w := @run binary_toString (mount st) evs in
  isLoading st = false /\ main_exclusive st = true /\
  @permitted_trace binary_toString (mount st) evs = true /\
  main_exclusive (ui w) = true /\
  is_generation (QuickEdit dramatic) = true /\
  permitted (@run binary_toString (mount st) [QuickEdit sketch; Settled (Rejected NonError)])
    (QuickEdit dramatic) = true /\
  resultImage
    (ui (@step binary_toString
           (@run binary_toString (mount st) [QuickEdit sketch; Settled (Rejected NonError)])
           (QuickEdit dramatic))) = None /\
  backgroundPrompt initialState <> "" /\
  exists b r k, handleGenerateBackground initialState = Await b r k.
Proof.
  pose proof (@guarded_generation_exclusive binary_toString
                (setSelectedObjects (fun _ => [sampleObject])
                   (setImage (Some sampleImage) initialState))) as H.
  split; [reflexivity|]. split; [reflexivity|]. split; [vm_compute; reflexivity|].
  split; [apply H; [reflexivity | reflexivity | vm_compute; reflexivity]|].
  split; [reflexivity|]. split; [vm_compute; reflexivity|].
  split.
  - apply (H [QuickEdit sketch; Settled (Rejected NonError)] eq_refl eq_refl
             ltac:(vm_compute; reflexivity));
      [reflexivity | vm_compute; reflexivity].
  - split; [discriminate|].
    destruct (proj2 (proj2 (proj2 (proj2 (H [] eq_refl eq_refl eq_refl)))) initialState
                ltac:(discriminate)) as (b & r & k & E & _).
    exists b, r, k. exact E.
Defined.

(* ================================================================== *)
(** * Render geometry *)
(* ================================================================== *)


Section ExactGeometry.
Local Open Scope Q_scope.

Lemma exact_equals_zero (x : Q) : 0 < x -> equals x (literal 0%Z) = false.
Proof.
  intros Hx. simpl. apply not_true_is_false. intros H.
  apply Qeq_bool_iff in H. rewrite H in Hx. now apply Qlt_irrefl in Hx.
Qed.

Lemma exact_geometry (img : ImgElement Q) (old : RenderInfo Q) :
  0 < clientWidth img -> 0 < clientHeight img ->
  0 < naturalWidth img -> 0 < naturalHeight img ->
  let g := handleResize (Some img) old in
  width g <= clientWidth img /\ height g <= clientHeight img /\
  0 < height g /\
  width g / height g == naturalWidth img / naturalHeight img /\
  0 <= top g /\ top g == clientHeight img - height g - top g /\
  0 <= left g /\ left g == clientWidth img - width g - left g /\
  ((width g == clientWidth img /\ left g == 0) \/
   (height g == clientHeight img /\ top g == 0)).
Proof.
  destruct img as [cw ch nw nh].
  cbn [naturalWidth naturalHeight clientWidth clientHeight]. intros Hcw Hch Hnw Hnh.
  unfold handleResize. cbn [naturalWidth naturalHeight clientWidth clientHeight].
  rewrite (exact_equals_zero nw Hnw), (exact_equals_zero nh Hnh). cbn [orb].
  assert (Nnw : ~ nw == 0) by (intros E; rewrite E in Hnw; now apply Qlt_irrefl in Hnw).
  assert (Nnh : ~ nh == 0) by (intros E; rewrite E in Hnh; now apply Qlt_irrefl in Hnh).
  assert (Ncw : ~ cw == 0) by (intros E; rewrite E in Hcw; now apply Qlt_irrefl in Hcw).
  assert (Nch : ~ ch == 0) by (intros E; rewrite E in Hch; now apply Qlt_irrefl in Hch).
  cbv [greater divide times minus literal exact].
  destruct (Qlt_le_dec (cw / ch) (nw / nh)) as [Hwide | Htall];
    cbn [width height top left].
  all: assert (Hnr : 0 < nw / nh)
      by (apply Qlt_shift_div_l; [exact Hnh | now rewrite Qmult_0_l]).
  all: assert (Enr : nw / nh * nh == nw) by (field; exact Nnh).
  all: assert (Ecr : cw / ch * ch == cw) by (field; exact Nch).
  all: change (inject_Z 0) with 0; change (inject_Z 2) with 2.
  all: set (nr := nw / nh) in *; set (cr := cw / ch) in *.
  all: assert (Nnr : ~ nr == 0)
      by (intros E; rewrite E in Hnr; now apply Qlt_irrefl in Hnr).
  - assert (Eh : cw / nr * nr == cw) by (field; exact Nnr).
    assert (Hh : 0 < cw / nr)
      by (apply Qlt_shift_div_l; [exact Hnr | now rewrite Qmult_0_l]).
    set (h := cw / nr) in *.
    assert (Hle : h <= ch) by nra.
    assert (Nh : ~ h == 0) by (intros E; rewrite E in Hh; now apply Qlt_irrefl in Hh).
    repeat split; try lra.
    + rewrite <- Eh at 1. field. exact Nh.
    + apply Qle_shift_div_l; lra.
    + field.
  - assert (Hw : ch * nr <= cw) by nra.
    assert (Hwpos : 0 < ch * nr) by nra.
    repeat split; try lra.
    + field. exact Nch.
    + apply Qle_shift_div_l; lra.
    + field.
Qed.
End ExactGeometry.



(* ================================================================== *)
(** * The image a response carries *)
(* ================================================================== *)

Lemma image_data_some (part : Part) (d : string) :
  image_data part = Some d <->
  exists blob, inlineData part = Some blob /\ data blob = Some d /\ d <> "".
Proof.
  unfold image_data. split.
  - destruct (inlineData part) as [blob|]; [|discriminate].
    destruct (data blob) as [x|] eqn:Hx; [|discriminate].
    destruct x; simpl; [discriminate|]. intros [= <-].
    exists blob. repeat split; [exact Hx | discriminate].
  - intros (blob & -> & -> & Hd). destruct d; [contradiction | reflexivity].
Qed.

Lemma first_image_first (ps : list Part) (d : string) :
  first_image ps = Some d <-> first_inline_data ps d.
Proof.
  unfold first_inline_data. split.
  - induction ps as [|p ps IH]; simpl; [discriminate|].
    destruct (image_data p) as [x|] eqn:Hp.
    + intros [= ->]. apply image_data_some in Hp as (blob & Hb & Hd & Hne).
      exists [], p, ps, blob. repeat split; auto. intros q [].
    + intros H. destruct (IH H) as (pre & part & post & blob & -> & Hpre & Hrest).
      exists (p :: pre), part, post, blob. repeat split; try tauto.
      intros q [<- | Hq]; auto.
  - intros (pre & part & post & blob & -> & Hpre & Hb & Hd & Hne).
    induction pre as [|q pre IH]; simpl.
    + assert (E : image_data part = Some d) by (apply image_data_some; eauto).
      now rewrite E.
    + rewrite (Hpre q (or_introl eq_refl)). apply IH. intros x Hx. apply Hpre. now right.
Qed.

(** X1. editImage and generateImageFromPrompt look at the first candidate
    only: on a response whose first candidate has the parts [ps] they
    return [d] exactly when [d] is the non-empty data of the first part of
    [ps] carrying some, whatever the other candidates and the text are; and
    when no part carries data they fail with their own message. *)
Theorem image_calls_return_first_inline_data
  (ps : list Part) (others : list Candidate) (body : option string)
  (base64 : option string) (mime prompt : string) :
  let r := partsResponse ps others body in
  (forall d, settle (editImage base64 mime prompt) (Fulfilled r) = Normal d <->
             first_inline_data ps d) /\
  (forall d, settle (generateImageFromPrompt prompt) (Fulfilled r) = Normal d <->
             first_inline_data ps d) /\
  ((forall d, ~ first_inline_data ps d) ->
     settle (editImage base64 mime prompt) (Fulfilled r) = Throw (ErrorObject edit_failed) /\
     settle (generateImageFromPrompt prompt) (Fulfilled r)
     = Throw (ErrorObject generate_failed)).
Proof.
  intros r. unfold r, partsResponse, editImage, generateImageFromPrompt, settle,
    image_of_response. cbn [candidates content parts].
  split; [|split].
  - intros d. rewrite <- first_image_first.
    destruct (first_image ps); simpl; split; congruence.
  - intros d. rewrite <- first_image_first.
    destruct (first_image ps); simpl; split; congruence.
  - intros Hnone. destruct (first_image ps) as [d|] eqn:Hd; [|split; reflexivity].
    exfalso. apply (Hnone d). now apply first_image_first.
Qed.

Lemma image_calls_return_first_inline_data_witness :
  first_inline_data [textPart "Here you go"; dataPart "" "image/png";
                     dataPart "QUJD" "image/jpeg"; dataPart "REVG" "image/png"] "QUJD" /\
  settle (editImage (Some "AAAA") "image/jpeg" "make it blue")
    (Fulfilled (partsResponse
                  [textPart "Here you go"; dataPart "" "image/png";
                   dataPart "QUJD" "image/jpeg"; dataPart "REVG" "image/png"]
                  [] None)) = Normal "QUJD" /\
  (forall d, ~ first_inline_data [textPart "I cannot do that"] d) /\
  settle (generateImageFromPrompt "a beach")
    (Fulfilled (partsResponse [textPart "I cannot do that"]
                  [{| content := Some {| parts := Some [dataPart "QUJD" "image/png"] |} |}]
                  None))
  = Throw (ErrorObject generate_failed).
Proof.
  pose proof (image_calls_return_first_inline_data
                [textPart "Here you go"; dataPart "" "image/png";
                 dataPart "QUJD" "image/jpeg"; dataPart "REVG" "image/png"]
                [] None (Some "AAAA") "image/jpeg" "make it blue") as (Hedit & _ & _).
  pose proof (image_calls_return_first_inline_data
                [textPart "I cannot do that"]
                [{| content := Some {| parts := Some [dataPart "QUJD" "image/png"] |} |}]
                None None "" "a beach") as (_ & _ & Hnone).
  assert (W : first_inline_data [textPart "Here you go"; dataPart "" "image/png";
                     dataPart "QUJD" "image/jpeg"; dataPart "REVG" "image/png"] "QUJD").
  { exists [textPart "Here you go"; dataPart "" "image/png"],
           (dataPart "QUJD" "image/jpeg"), [dataPart "REVG" "image/png"],
           {| data := Some "QUJD"; blobMimeType := Some "image/jpeg" |}.
    repeat split; try discriminate.
    intros q [<- | [<- | []]]; reflexivity. }
  assert (N : forall d, ~ first_inline_data [textPart "I cannot do that"] d).
  { intros d H. apply first_image_first in H. discriminate. }
  split; [exact W|]. split; [now apply Hedit|]. split; [exact N|].
  exact (proj2 (Hnone N)).
Defined.

(* ================================================================== *)
(** * The message of a failed call *)
(* ================================================================== *)

Lemma rethrow_as_throws {A : Type} (message : string) (body : completion A) (e : thrown) :
  rethrow_as message body = Throw e -> e = ErrorObject message.
Proof. destruct body; simpl; congruence. Qed.

Lemma rethrow_as_cases {A : Type} (message : string) (body : completion A) :
  (exists a, rethrow_as message body = Normal a) \/
  rethrow_as message body = Throw (ErrorObject message).
Proof. destruct body; simpl; eauto. Qed.

Ltac destruct_settle :=
  cbv beta;
  match goal with
  | |- context [match ?c with Normal _ => _ | Throw _ => _ end] =>
      let E := fresh "E" in
      destruct c as [?|?e] eqn:E;
      [left; reflexivity | apply rethrow_as_throws in E; subst; right; reflexivity]
  end.

(** X2. Whatever makes a service call fail (a rejected request, be the
    reason an Error or not, or a response it cannot use), it throws an
    Error with the function's own fixed message.  So the error that
    handleGenerate, handleGenerateBackground and handleDetectObjects store
    when their request settles is that message, or the error is left as it
    was: the fallback texts of these handlers are never stored. *)
Theorem failures_carry_the_fixed_message {NTS : NumberToString} {reading : RegionReading} :
  (forall prompt o,
      (exists d, settle (generateImageFromPrompt prompt) o = Normal d) \/
      settle (generateImageFromPrompt prompt) o = Throw (ErrorObject generate_failed)) /\
  (forall base64 mime prompt o,
      (exists d, settle (editImage base64 mime prompt) o = Normal d) \/
      settle (editImage base64 mime prompt) o = Throw (ErrorObject edit_failed)) /\
  (forall base64 mime o,
      (exists v, settle (detectObjects base64 mime) o = Normal v) \/
      settle (detectObjects base64 mime) o = Throw (ErrorObject objects_failed)) /\
  (forall base64 mime o,
      (exists v, settle (detectWatermarkText base64 mime) o = Normal v) \/
      settle (detectWatermarkText base64 mime) o = Throw (ErrorObject watermark_failed)) /\
  (forall st promptOverride before request resume,
      handleGenerate st promptOverride = Await before request resume ->
      forall o s, error (resume o s) = error s \/ error (resume o s) = Some edit_failed) /\
  (forall st before request resume,
      handleGenerateBackground st = Await before request resume ->
      forall o s, error (resume o s) = error s \/ error (resume o s) = Some generate_failed) /\
  (forall st request resume,
      awaits (handleDetectObjects st) = Some (Requested request resume) ->
      forall o s, error (resume o s) = error s \/ error (resume o s) = Some objects_failed).
Proof.
  split; [intros prompt o; apply rethrow_as_cases|].
  split; [intros base64 mime prompt o; apply rethrow_as_cases|].
  split; [intros base64 mime o; apply rethrow_as_cases|].
  split; [intros base64 mime o; apply rethrow_as_cases|].
  split; [|split].
  - intros st ov b r k. unfold handleGenerate.
    destruct (image st) as [img|]; [|discriminate].
    destruct (is_empty (currentPrompt ov (prompt st))); [discriminate|].
    intros [= <- <- <-] o s.
    destruct_settle.
  - intros st b r k. unfold handleGenerateBackground.
    destruct (is_empty (backgroundPrompt st)); [discriminate|].
    intros [= <- <- <-] o s.
    destruct_settle.
  - intros st r k. unfold handleDetectObjects.
    destruct (image st) as [img|]; [|discriminate].
    cbn [awaits]. intros [= <- <-] o s.
    destruct_settle.
Qed.

Lemma failures_carry_the_fixed_message_witness :
  exists before request resume,
    handleGenerate sampleState (Some "make it blue") = Await before request resume /\
    error (resume (Rejected NonError) sampleState) = Some edit_failed /\
    error (resume (Rejected (ErrorObject "503 Service Unavailable")) sampleState)
    = Some edit_failed /\
    error (resume (Fulfilled (imageResponse "QUJD")) sampleState) = error sampleState.
Proof.
  destruct (@failures_carry_the_fixed_message binary_toString listed_regions)
    as (_ & _ & _ & _ & Hgen & _).
  eexists; eexists; eexists. split; [reflexivity|].
  pose proof (Hgen sampleState (Some "make it blue") _ _ _ eq_refl (Rejected NonError)
                sampleState) as H.
  split; [|split; reflexivity].
  destruct H as [H | H]; [discriminate H | exact H].
Defined.

(* ================================================================== *)
(** * The payload of a data URL *)
(* ================================================================== *)

(** X3. [image.src.split(',')[1]], the payload handleGenerate sends: of a
    source without a comma it is undefined; of [header,payload] it is the
    payload; a payload is cut at its first comma; the data URI the
    component builds from a result gives that result back; and the request
    of handleGenerate carries this payload with the type of the file and
    the prompt, also when the payload is undefined. *)
Theorem base64_of_src_payload :
  (forall s, excludes "," s = true -> base64_of_src s = None) /\
  (forall header payload,
      excludes "," header = true -> excludes "," payload = true ->
      base64_of_src (header ++ "," ++ payload) = Some payload) /\
  (forall header payload more,
      excludes "," header = true -> excludes "," payload = true ->
      base64_of_src (header ++ "," ++ payload ++ "," ++ more) = Some payload) /\
  (forall base64,
      excludes "," base64 = true -> base64_of_src (png_data_uri base64) = Some base64) /\
  (forall st img p,
      image st = Some img -> p <> "" ->
      requests (handleGenerate st (Some p))
      = [{| model := image_model;
            contents := [InlineData (base64_of_src (src img)) (fileType (file img)); Text p];
            config := ResponseModalitiesImage |}]).
Proof.
  unfold base64_of_src, split.
  split; [|split; [|split; [|split]]].
  - intros s Hs. now rewrite split_on_no_separator.
  - intros header payload Hh Hp. cbn [append].
    rewrite split_on_to_separator by exact Hh.
    now rewrite split_on_no_separator.
  - intros header payload more Hh Hp. cbn [append].
    rewrite split_on_to_separator by exact Hh.
    now rewrite split_on_to_separator.
  - intros base64 Hb. unfold png_data_uri.
    change ("data:image/png;base64," ++ base64)
      with ("data:image/png;base64" ++ String "," base64).
    rewrite split_on_to_separator by reflexivity.
    now rewrite split_on_no_separator.
  - intros st img p Hi Hp. unfold handleGenerate, currentPrompt. rewrite Hi.
    destruct p; [contradiction | reflexivity].
Qed.

Lemma base64_of_src_payload_witness :
  excludes "," "data:image/jpeg;base64" = true /\ excludes "," "AAAA" = true /\
  base64_of_src ("data:image/jpeg;base64" ++ "," ++ "AAAA") = Some "AAAA" /\
  base64_of_src ("data:text/plain" ++ "," ++ "a" ++ "," ++ "b") = Some "a" /\
  base64_of_src "AAAA" = None /\
  base64_of_src (png_data_uri "QUJD") = Some "QUJD" /\
  image sampleState = Some sampleImage /\
  requests (handleGenerate sampleState (Some "make it blue"))
  = [{| model := image_model;
        contents := [InlineData (Some "AAAA") "image/jpeg"; Text "make it blue"];
        config := ResponseModalitiesImage |}].
Proof.
  destruct base64_of_src_payload as (Hnone & Hone & Hcut & Hback & Hsent).
  split; [reflexivity|]. split; [reflexivity|].
  split; [apply Hone; reflexivity|].
  split; [apply Hcut; reflexivity|].
  split; [apply Hnone; reflexivity|].
  split; [apply Hback; reflexivity|].
  split; [reflexivity|].
  apply (Hsent sampleState sampleImage "make it blue"); [reflexivity | discriminate].
Defined.

(* ================================================================== *)
(** * What the main editor sends *)
(* ================================================================== *)

Lemma handleGenerate_requests (st : AppState) (promptOverride : option string) :
  match image st with
  | Some img =>
      let p := currentPrompt promptOverride (prompt st) in
      requests (handleGenerate st promptOverride)
      = if is_empty p then []
        else [request (editImage (base64_of_src (src img)) (fileType (file img)) p)]
  | None => requests (handleGenerate st promptOverride) = []
  end.
Proof.
  unfold handleGenerate. destruct (image st) as [img|]; [|reflexivity].
  cbv zeta. destruct (is_empty (currentPrompt promptOverride (prompt st))); reflexivity.
Qed.

Lemma requests_after_setters (f : AppState -> AppState) (h : Handler) :
  requests (after_setters f h) = requests h.
Proof. destruct h; reflexivity. Qed.

(** X4. Whichever generation handler of the main editor is invoked
    (custom prompt, preset, isolate, remove, translate), in whatever state:
    it sends at most one request; a request it sends is the editImage
    request for the image loaded, with the payload of its source, the type
    of its file and a prompt that is not empty; without an image loaded it
    sends nothing. *)
Theorem editor_requests_carry_image_and_prompt {NTS : NumberToString}
  (st : AppState) (ev : Event) (h : Handler) :
  generation_handler st ev = Some h ->
  (List.length (requests h) <= 1)%nat /\
  (forall r, In r (requests h) ->
     exists img p,
       image st = Some img /\ p <> "" /\
       r = {| model := image_model;
              contents := [InlineData (base64_of_src (src img)) (fileType (file img));
                           Text p];
              config := ResponseModalitiesImage |}) /\
  (image st = None -> requests h = []).
Proof.
  intros Hh.
  assert (Hg : exists ov, requests h = requests (handleGenerate st ov) \/ requests h = []).
  { destruct ev as [ov|key|a| | | | | |]; try discriminate; injection Hh as <-.
    - exists ov. now left.
    - unfold handleQuickEdit. destruct (image st); [|exists None; now right].
      destruct (selectedObjects st) as [|o [|o' rest]];
        try (exists None; now right).
      eexists. left. apply requests_after_setters.
    - unfold handleObjectAction.
      destruct (selectedObjects st) as [|o rest]; [exists None; now right|].
      destruct a; [destruct rest; [|exists None; now right]|]; eexists; now left.
    - unfold handleTranslate.
      destruct (selectedObjects st) as [|o rest]; [exists None; now right|].
      eexists; now left. }
  destruct Hg as [ov [E | E]]; rewrite E;
    [|split; [simpl; lia|]; split; [intros r []|reflexivity]].
  pose proof (handleGenerate_requests st ov) as Hr.
  destruct (image st) as [img|]; cbv zeta in Hr; rewrite Hr.
  - destruct (currentPrompt ov (prompt st)) as [|c p] eqn:Hp; simpl.
    + split; [lia|]. split; [intros r []|discriminate].
    + split; [lia|]. split; [|discriminate].
      intros r [<- | []]. exists img, (String c p). repeat split. discriminate.
  - split; [simpl; lia|]. split; [intros r []|reflexivity].
Qed.

Lemma editor_requests_carry_image_and_prompt_witness :
  @generation_handler binary_toString sampleState (ObjectActionEv remove)
  = Some (@handleObjectAction binary_toString sampleState remove) /\
  (List.length (requests (@handleObjectAction binary_toString sampleState remove)) <= 1)%nat /\
  image initialState = None /\
  requests (@handleTranslate binary_toString initialState) = [].
Proof.
  split; [reflexivity|].
  split.
  - apply (@editor_requests_carry_image_and_prompt binary_toString sampleState
             (ObjectActionEv remove)). reflexivity.
  - split; [reflexivity|].
    apply (@editor_requests_carry_image_and_prompt binary_toString initialState Translate);
      reflexivity.
Defined.

(* ================================================================== *)
(** * The boxes drawn as selected *)
(* ================================================================== *)

Section Highlight.
Context {NTS : NumberToString}.

Lemma areObjectsEqual_congruent (a b o : DetectedObject) :
  areObjectsEqual a b = true -> areObjectsEqual o a = areObjectsEqual o b.
Proof.
  intros Hab.
  destruct (areObjectsEqual o a) eqn:Ha, (areObjectsEqual o b) eqn:Hb; try reflexivity.
  - rewrite (areObjectsEqual_trans o a b Ha Hab) in Hb. discriminate.
  - rewrite areObjectsEqual_sym in Hab.
    rewrite (areObjectsEqual_trans o b a Hb Hab) in Ha. discriminate.
Qed.

Lemma isSelected_congruent (s : list DetectedObject) (a b : DetectedObject) :
  areObjectsEqual a b = true -> isSelected s a = isSelected s b.
Proof.
  intros Hab. unfold isSelected. induction s as [|x s IH]; simpl; [reflexivity|].
  now rewrite IH, (areObjectsEqual_congruent a b x Hab).
Qed.

Lemma isSelected_after_removal (s : list DetectedObject) (r o : DetectedObject) :
  isSelected (filter (fun obj => negb (areObjectsEqual obj r)) s) o
  = isSelected s o && negb (areObjectsEqual o r).
Proof.
  unfold isSelected. induction s as [|x s IH]; simpl; [reflexivity|].
  destruct (areObjectsEqual x r) eqn:Hxr; simpl; rewrite IH.
  - destruct (areObjectsEqual x o) eqn:Hxo; simpl; [|reflexivity].
    rewrite areObjectsEqual_sym in Hxo.
    rewrite (areObjectsEqual_trans o x r Hxo Hxr). simpl.
    now rewrite andb_false_r.
  - destruct (areObjectsEqual x o) eqn:Hxo; simpl; [|reflexivity].
    destruct (areObjectsEqual o r) eqn:Hor; simpl; [|reflexivity].
    rewrite (areObjectsEqual_trans x o r Hxo Hor) in Hxr. discriminate.
Qed.

Lemma isSelected_after_append (s : list DetectedObject) (r o : DetectedObject) :
  isSelected (s ++ [r])%list o = isSelected s o || areObjectsEqual o r.
Proof.
  unfold isSelected. rewrite existsb_app. simpl.
  now rewrite orb_false_r, (areObjectsEqual_sym r o).
Qed.

Lemma isSelected_toggled (s : list DetectedObject) (r o : DetectedObject) :
  isSelected (toggleSelection r s) o
  = if areObjectsEqual o r then negb (isSelected s r) else isSelected s o.
Proof.
  unfold toggleSelection. fold (isSelected s r).
  destruct (isSelected s r) eqn:Hr.
  - rewrite isSelected_after_removal.
    destruct (areObjectsEqual o r); simpl; [apply andb_false_r | apply andb_true_r].
  - rewrite isSelected_after_append.
    destruct (areObjectsEqual o r) eqn:Hor; simpl; [apply orb_true_r|].
    apply orb_false_r.
Qed.

(** X5. Clicking the box of [r] flips how the overlay draws it, and with
    it every box equal to [r], and changes the drawing of no other box;
    clicking it again gives every box the drawing it had; and when [r] was
    not selected the second click gives the very selection back, in its
    order. *)
Theorem toggle_flips_the_highlight (r : DetectedObject) (s : list DetectedObject) :
  isSelected (toggleSelection r s) r = negb (isSelected s r) /\
  (forall o, areObjectsEqual o r = true ->
             isSelected (toggleSelection r s) o = negb (isSelected s o)) /\
  (forall o, areObjectsEqual o r = false ->
             isSelected (toggleSelection r s) o = isSelected s o) /\
  (forall o, isSelected (toggleSelection r (toggleSelection r s)) o = isSelected s o) /\
  (isSelected s r = false -> toggleSelection r (toggleSelection r s) = s) /\
  (forall st, selectedObjects st = s ->
     forall o, isSelected (selectedObjects (immediately (handleObjectSelect r) st)) o
               = if areObjectsEqual o r then negb (isSelected s o) else isSelected s o).
Proof.
  split; [|split; [|split; [|split; [|split]]]].
  - now rewrite isSelected_toggled, areObjectsEqual_refl.
  - intros o Hor. rewrite isSelected_toggled, Hor.
    now rewrite (isSelected_congruent s o r Hor).
  - intros o Hor. now rewrite isSelected_toggled, Hor.
  - intros o. rewrite !isSelected_toggled, areObjectsEqual_refl.
    destruct (areObjectsEqual o r) eqn:Hor; [|reflexivity].
    now rewrite negb_involutive, (isSelected_congruent s o r Hor).
  - intros Hr. unfold toggleSelection at 2. fold (isSelected s r). rewrite Hr.
    unfold toggleSelection. fold (isSelected (s ++ [r])%list r).
    rewrite isSelected_after_append, areObjectsEqual_refl, orb_true_r.
    rewrite filter_app. simpl. rewrite areObjectsEqual_refl. simpl.
    rewrite app_nil_r. apply filter_all.
    unfold isSelected in Hr. rewrite <- Hr. clear Hr.
    induction s as [|x s IH]; simpl; [reflexivity|].
    now rewrite negb_involutive, IH.
  - intros st <- o. cbn [handleObjectSelect immediately setSelectedObjects selectedObjects].
    rewrite isSelected_toggled.
    destruct (areObjectsEqual o r) eqn:Hor; [|reflexivity].
    now rewrite (isSelected_congruent _ o r Hor).
Qed.

End Highlight.

Lemma toggle_flips_the_highlight_witness :
  @areObjectsEqual binary_toString otherObject sampleObject = false /\
  @isSelected binary_toString
    (@toggleSelection binary_toString sampleObject [otherObject]) otherObject = true /\
  @isSelected binary_toString [otherObject] sampleObject = false /\
  @toggleSelection binary_toString sampleObject
    (@toggleSelection binary_toString sampleObject [otherObject]) = [otherObject] /\
  @isSelected binary_toString
    (@toggleSelection binary_toString sampleObject [otherObject; sampleObject]) sampleObject
  = false.
Proof.
  pose proof (@toggle_flips_the_highlight binary_toString sampleObject [otherObject])
    as (_ & _ & Hother & _ & Hback & _).
  pose proof (@toggle_flips_the_highlight binary_toString sampleObject
                [otherObject; sampleObject]) as (Hflip & _).
  split; [vm_compute; reflexivity|].
  split; [rewrite Hother; vm_compute; reflexivity|].
  split; [vm_compute; reflexivity|].
  split; [apply Hback; vm_compute; reflexivity|].
  rewrite Hflip. vm_compute. reflexivity.
Defined.

(* ================================================================== *)
(** * Presets *)
(* ================================================================== *)

Lemma strip_prefix_app (a b : string) : strip_prefix a (a ++ b) = Some b.
Proof.
  induction a as [|c a IH]; simpl; [now destruct b|].
  now rewrite Ascii.eqb_refl.
Qed.

(** X6. A quick action sends a prompt only with an image loaded and
    exactly one region selected, and then the prompt synthesized for that
    region.  For every preset but removeText that prompt begins with the
    preset's own prompt; for removeText it does not: the prompt text of the
    removeText preset is never what a quick action sends. *)
Theorem quick_action_prompt_and_preset {NTS : NumberToString}
  (st : AppState) (key : PresetKey) (p : string) :
  In p (prompts_sent (handleQuickEdit st key)) ->
  (exists img o,
      image st = Some img /\ selectedObjects st = [o] /\
      prompts_sent (handleQuickEdit st key) = [p] /\ p = quickEditPrompt key o) /\
  starts_with (presetPrompt (EDIT_PRESETS key)) p = negb (PresetKey_eqb key removeText) /\
  p <> presetPrompt (EDIT_PRESETS removeText).
Proof.
  intros Hin.
  assert (Hsel : exists img o, image st = Some img /\ selectedObjects st = [o]).
  { unfold handleQuickEdit in Hin. destruct (image st) as [img|]; [|destruct Hin].
    destruct (selectedObjects st) as [|o [|o' rest]]; try destruct Hin.
    now exists img, o. }
  destruct Hsel as (img & o & Hi & Hs).
  destruct (single_region_prompts_sent st img o key Hi Hs) as [Hsent _].
  rewrite Hsent in Hin. destruct Hin as [<- | []].
  split; [exists img, o; auto|].
  split.
  - unfold quickEditPrompt, starts_with.
    destruct key; cbn [PresetKey_eqb negb]; cbv iota;
      try (cbn [EDIT_PRESETS presetPrompt]; now rewrite strip_prefix_app).
    reflexivity.
  - unfold quickEditPrompt. destruct key; cbn [PresetKey_eqb]; cbv iota; discriminate.
Qed.

Lemma quick_action_prompt_and_preset_witness :
  let st := setSelectedObjects (fun _ => [sampleObject])
              (setImage (Some sampleImage) initialState) in
  In (@quickEditPrompt binary_toString removeText sampleObject)
     (prompts_sent (@handleQuickEdit binary_toString st removeText)) /\
  starts_with (presetPrompt (EDIT_PRESETS removeText))
    (@quickEditPrompt binary_toString removeText sampleObject) = false /\
  In (@quickEditPrompt binary_toString sketch sampleObject)
     (prompts_sent (@handleQuickEdit binary_toString st sketch)) /\
  starts_with "Convert to black and white pencil sketch style"
    (@quickEditPrompt binary_toString sketch sampleObject) = true.
Proof.
  assert (H1 : In (@quickEditPrompt binary_toString removeText sampleObject)
     (prompts_sent (@handleQuickEdit binary_toString
        (setSelectedObjects (fun _ => [sampleObject])
              (setImage (Some sampleImage) initialState)) removeText)))
    by (left; reflexivity).
  assert (H2 : In (@quickEditPrompt binary_toString sketch sampleObject)
     (prompts_sent (@handleQuickEdit binary_toString
        (setSelectedObjects (fun _ => [sampleObject])
              (setImage (Some sampleImage) initialState)) sketch)))
    by (left; reflexivity).
  split; [exact H1|].
  split; [exact (proj1 (proj2 (@quick_action_prompt_and_preset binary_toString _ _ _ H1)))|].
  split; [exact H2|].
  exact (proj1 (proj2 (@quick_action_prompt_and_preset binary_toString _ _ _ H2))).
Defined.

(* ================================================================== *)
(** * What the result panel and the buttons show *)
(* ================================================================== *)

Lemma resultPanel_idle (s : AppState) :
  isLoading s = false -> resultPanel s <> GeneratingSpinner.
Proof.
  unfold resultPanel, ResultDisplay. intros ->.
  destruct (truthy_string (error s)); [discriminate|].
  destruct (truthy_string (resultImage s)); discriminate.
Qed.

(** X7. From the click that starts a generation to its settling, the
    result panel shows the spinner; once the request has settled it shows
    the edited image, as a PNG data URI of the data returned, or the error
    panel with the message of editImage, never the placeholder or the
    spinner.  An error stored while the request was pending keeps the
    panel on that error although the edit succeeded and its result is
    stored. *)
Theorem result_panel_of_a_generation (st : AppState) (img : ImageState)
  (promptOverride : option string) :
  image st = Some img -> currentPrompt promptOverride (prompt st) <> "" ->
  let call := editImage (base64_of_src (src img)) (fileType (file img))
                (currentPrompt promptOverride (prompt st)) in
  exists before resume,
    handleGenerate st promptOverride = Await before (request call) resume /\
    (forall s, resultPanel (before s) = GeneratingSpinner) /\
    (forall o s,
        (exists d, settle call o = Normal d /\
                   resultPanel (resume o (before s)) = EditedResult (png_data_uri d)) \/
        (settle call o = Throw (ErrorObject edit_failed) /\
         resultPanel (resume o (before s)) = ErrorOccurred edit_failed)) /\
    (forall o s, resultPanel (resume o s) <> GeneratingSpinner) /\
    (forall o s message d,
        error s = Some message -> message <> "" -> settle call o = Normal d ->
        resultImage (resume o s) = Some (png_data_uri d) /\
        resultPanel (resume o s) = ErrorOccurred message).
Proof.
  intros Hi Hp call. unfold handleGenerate. rewrite Hi. fold call.
  destruct (currentPrompt promptOverride (prompt st)) as [|c p] eqn:Hcp; [contradiction|].
  cbn [is_empty]. cbv iota zeta.
  eexists; eexists. split; [reflexivity|].
  split; [reflexivity|]. split; [|split].
  - intros o s. destruct (settle call o) as [d|e] eqn:E.
    + left. exists d. split; reflexivity.
    + right. apply rethrow_as_throws in E. subst e. split; reflexivity.
  - intros o s. apply resultPanel_idle. reflexivity.
  - intros o s message d He Hne ->. split; [reflexivity|].
    unfold resultPanel, ResultDisplay. cbn. rewrite He. cbn.
    destruct message; [contradiction | reflexivity].
Qed.

Lemma result_panel_of_a_generation_witness :
  image sampleState = Some sampleImage /\
  currentPrompt (Some "make it blue") (prompt sampleState) <> "" /\
  exists before resume,
    handleGenerate sampleState (Some "make it blue")
    = Await before
        (request (editImage (Some "AAAA") "image/jpeg" "make it blue")) resume /\
    resultPanel (before sampleState) = GeneratingSpinner.
Proof.
  split; [reflexivity|]. split; [discriminate|].
  destruct (result_panel_of_a_generation sampleState sampleImage (Some "make it blue")
              eq_refl ltac:(discriminate)) as (before & resume & E & Hspin & _).
  exists before, resume. split; [exact E | apply Hspin].
Defined.

(** X8. Clearing the image does not cancel the request in flight: when a
    generation is started, the image is cleared and the request then
    settles, the component ends with no image loaded and yet with the
    result of the edit stored as a PNG data URI, or with the error of
    editImage; nothing is loading or in flight any more. *)
Theorem clearing_does_not_cancel {NTS : NumberToString}
  (st : AppState) (img : ImageState) (p : string) (o : api_outcome) :
  image st = Some img -> p <> "" ->
  let call := editImage (base64_of_src (src img)) (fileType (file img)) p in
  let w := run (mount st) [Generate (Some p); ClearImage; Settled o] in
  sent w = [request call] /\ inflight w = [] /\
  image (ui w) = None /\ isLoading (ui w) = false /\
  ((exists d, settle call o = Normal d /\
              resultImage (ui w) = Some (png_data_uri d) /\ error (ui w) = None) \/
   (settle call o = Throw (ErrorObject edit_failed) /\
    resultImage (ui w) = None /\ error (ui w) = Some edit_failed)).
Proof.
  intros Hi Hp call w.
  assert (E : handleGenerate st (Some p)
              = Await (setIsLoading true >> setError None >> setResultImage None)
                  (request call)
                  (fun o =>
                     (match settle call o with
                      | Normal editedImageBase64 =>
                          setResultImage (Some (png_data_uri editedImageBase64))
                      | Throw err =>
                          setError (Some (message_or "An unknown error occurred." err))
                      end) >> setIsLoading false >> setActivePreset None)).
  { unfold handleGenerate. rewrite Hi. unfold currentPrompt.
    destruct p; [contradiction | reflexivity]. }
  unfold w, run. cbn [fold_left].
  change (step (mount st) (Generate (Some p)))
    with (dispatch (handleGenerate st (Some p)) (mount st)).
  rewrite E. cbn [step dispatch mount clearImage inflight sent ui app].
  split; [reflexivity|]. split; [reflexivity|].
  split; [|split].
  - destruct (settle call o); reflexivity.
  - destruct (settle call o); reflexivity.
  - destruct (settle call o) as [d|e] eqn:Es.
    + left. exists d. repeat split.
    + right. apply rethrow_as_throws in Es. subst e. repeat split.
Qed.

Lemma clearing_does_not_cancel_witness :
  image sampleState = Some sampleImage /\ "make it blue" <> "" /\
  let w := @run binary_toString (mount sampleState)
             [Generate (Some "make it blue"); ClearImage;
              Settled (Fulfilled (imageResponse "QUJD"))] in
  image (ui w) = None /\ resultImage (ui w) = Some "data:image/png;base64,QUJD".
Proof.
  split; [reflexivity|]. split; [discriminate|].
  destruct (@clearing_does_not_cancel binary_toString sampleState sampleImage
              "make it blue" (Fulfilled (imageResponse "QUJD")) eq_refl ltac:(discriminate))
    as (_ & _ & Hnone & _ & _).
  split; [exact Hnone | reflexivity].
Defined.

Lemma PresetKey_eqb_refl (key : PresetKey) : PresetKey_eqb key key = true.
Proof. destruct key; reflexivity. Qed.

(** X9. While the edit a quick action started is pending, every quick
    action button is disabled, the spinner is on the button of that preset
    and on no other, and the custom prompt button shows no spinner; once
    the request has settled no quick action button shows the spinner.
    While a detection is pending, started with no preset active, it is the
    custom prompt button that shows the spinner and reads Generating. *)
Theorem spinner_of_the_active_preset {NTS : NumberToString} {reading : RegionReading}
  (st : AppState) (img : ImageState) (o : DetectedObject) (key : PresetKey) :
  image st = Some img -> selectedObjects st = [o] ->
  (exists before request resume,
      handleQuickEdit st key = Await before request resume /\
      (forall s other,
          isDisabled (quickActionButton (before s) other) = true /\
          showsSpinner (quickActionButton (before s) other) = PresetKey_eqb key other) /\
      (forall s, showsSpinner (generateButton (before s)) = false /\
                 isDisabled (generateButton (before s)) = true) /\
      (forall out s other, showsSpinner (quickActionButton (resume out s) other) = false)) /\
  (forall s other,
      activePreset s = None ->
      let pending := setters (handleDetectObjects st) s in
      isDisabled (quickActionButton pending other) = true /\
      showsSpinner (quickActionButton pending other) = false /\
      showsSpinner (generateButton pending) = true /\
      caption (generateButton pending) = "Generating...").
Proof.
  intros Hi Hs. split.
  - unfold handleQuickEdit. rewrite Hi, Hs.
    unfold handleGenerate. rewrite Hi. unfold currentPrompt.
    rewrite !(quickEditPrompt_nonempty key o). cbn [after_setters].
    eexists; eexists; eexists. split; [reflexivity|].
    split; [|split].
    + intros s other. unfold quickActionButton, QuickActionButton, isActivePreset.
      cbn. split; [|reflexivity].
      now rewrite orb_true_r.
    + intros s. unfold generateButton. cbn. split; [reflexivity | apply orb_true_r].
    + intros out s other.
      match goal with
      | |- context [match ?c with Normal _ => _ | Throw _ => _ end] => destruct c
      end; reflexivity.
  - intros s other Hp pending. unfold pending, handleDetectObjects. rewrite Hi.
    unfold quickActionButton, QuickActionButton, generateButton, isActivePreset.
    cbn. rewrite Hp. cbn. repeat split. now rewrite orb_true_r.
Qed.

(* ================================================================== *)
(** * The page: what every sequence of actions keeps *)
(* ================================================================== *)

Lemma Forall_without {X : Type} (P : X -> Prop) (n : nat) (l : list X) :
  Forall P l -> Forall P (without n l).
Proof.
  intros H. revert n. induction H as [|x l Hx Hl IH]; intros [|n]; simpl;
    auto using Forall_nil.
Qed.

Lemma nth_error_Forall {X : Type} (P : X -> Prop) (n : nat) (l : list X) (x : X) :
  Forall P l -> nth_error l n = Some x -> P x.
Proof.
  intros H Hn. apply nth_error_In in Hn. rewrite Forall_forall in H. auto.
Qed.

Section PageKeeps.
Context {NTS : NumberToString} {reading : RegionReading} {errors : TypeErrors}.

(** A property of the state kept by the setters of every handler and by
    whatever a handler runs after its await holds after every sequence of
    actions. *)
Lemma acts_keep (P : AppState -> Prop) :
  (forall st a s, P s -> P (setters (wired st a) s)) ->
  (forall st a w, awaits (wired st a) = Some w -> keeps P w) ->
  forall l p,
    P (shown p) -> Forall (keeps P) (suspended p) ->
    P (shown (acts p l)) /\ Forall (keeps P) (suspended (acts p l)).
Proof.
  intros Hset Hres. induction l as [|a l IH]; intros p Hp Hw; [split; assumption|].
  unfold acts. cbn [fold_left]. apply IH.
  - destruct a; try (cbn [act invoke shown]; apply Hset; exact Hp).
    + cbn [act]. destruct (nth_error (suspended p) n) as [[r k|c k]|] eqn:Hn;
        try exact Hp.
      cbn [shown]. apply (nth_error_Forall _ _ _ _ Hw Hn); [now exists o | exact Hp].
    + cbn [act]. destruct (nth_error (suspended p) n) as [[r k|c k]|] eqn:Hn;
        try exact Hp.
      cbn [shown]. apply (nth_error_Forall _ _ _ _ Hw Hn); [now exists settled | exact Hp].
  - destruct a;
      try (cbn [act invoke suspended];
           destruct (awaits (wired (shown p) _)) as [w|] eqn:Ew; [|exact Hw];
           apply Forall_app; split; [exact Hw|];
           constructor; [exact (Hres _ _ _ Ew) | constructor]).
    + cbn [act]. destruct (nth_error (suspended p) n) as [[r k|c k]|]; try exact Hw.
      cbn [suspended]. now apply Forall_without.
    + cbn [act]. destruct (nth_error (suspended p) n) as [[r k|c k]|]; try exact Hw.
      cbn [suspended]. now apply Forall_without.
Qed.

Lemma awaits_invocation (h : Handler) (w : Pending) :
  awaits (invocation h) = Some w ->
  exists before request resume, h = Await before request resume /\ w = Requested request resume.
Proof.
  destruct h as [u|b r k]; simpl; [discriminate|].
  intros [= <-]. now exists b, r, k.
Qed.

Lemma handleGenerate_await (st : AppState) (ov : option string) b r k :
  handleGenerate st ov = Await b r k ->
  exists img,
    image st = Some img /\
    let call := editImage (base64_of_src (src img)) (fileType (file img))
                  (currentPrompt ov (prompt st)) in
    b = (setIsLoading true >> setError None >> setResultImage None) /\
    r = request call /\
    k = (fun o =>
           (match settle call o with
            | Normal editedImageBase64 =>
                setResultImage (Some (png_data_uri editedImageBase64))
            | Throw err => setError (Some (message_or "An unknown error occurred." err))
            end) >> setIsLoading false >> setActivePreset None).
Proof.
  unfold handleGenerate. destruct (image st) as [img|]; [|discriminate].
  destruct (is_empty (currentPrompt ov (prompt st))); [discriminate|].
  intros [= <- <- <-]. exists img. repeat split.
Qed.

(** What a handler built on handleGenerate awaits. *)
Lemma generation_await (st : AppState) (a : Action) b r k :
  match a with
  | ClickGenerate | ClickQuickAction _ | ClickObjectAction _ | ClickTranslate => True
  | _ => False
  end ->
  wired st a = {| setters := b; awaits := Some (Requested r k) |} ->
  exists img p f,
    image st = Some img /\
    let call := editImage (base64_of_src (src img)) (fileType (file img)) p in
    b = (f >> setIsLoading true >> setError None >> setResultImage None) /\
    (forall s, image (f s) = image s /\ isLoading (f s) = isLoading s /\
               selectedObjects (f s) = selectedObjects s /\
               detectedObjects (f s) = detectedObjects s /\
               backgroundImage (f s) = backgroundImage s /\
               generatedBackground (f s) = generatedBackground s) /\
    r = request call /\
    k = (fun o =>
           (match settle call o with
            | Normal editedImageBase64 =>
                setResultImage (Some (png_data_uri editedImageBase64))
            | Throw err => setError (Some (message_or "An unknown error occurred." err))
            end) >> setIsLoading false >> setActivePreset None).
Proof.
  intros Ha Hw.
  assert (Hg : exists ov f b0,
             handleGenerate st ov = Await b0 r k /\ b = (f >> b0) /\
             (f = unchanged \/ exists key, f = setActivePreset (Some key))).
  { destruct a; try contradiction; cbn [wired] in Hw.
    - destruct (handleGenerate st None) as [u|b0 r0 k0] eqn:E; [discriminate|].
      injection Hw as <- <- <-. exists None, unchanged, b0. auto.
    - unfold handleQuickEdit in Hw. destruct (image st); [|discriminate].
      destruct (selectedObjects st) as [|o [|o' rest]]; try discriminate.
      destruct (handleGenerate st (Some (quickEditPrompt key o))) as [u|b0 r0 k0] eqn:E;
        [discriminate|].
      injection Hw as <- <- <-.
      exists (Some (quickEditPrompt key o)), (setActivePreset (Some key)), b0.
      split; [exact E|]. split; [reflexivity|]. right. now exists key.
    - unfold handleObjectAction in Hw.
      destruct (selectedObjects st) as [|o rest]; [discriminate|].
      destruct action; [destruct rest; [|discriminate]|].
      + destruct (handleGenerate st (Some (isolatePrompt o))) as [u|b0 r0 k0] eqn:E;
          [discriminate|].
        injection Hw as <- <- <-. exists (Some (isolatePrompt o)), unchanged, b0. auto.
      + destruct (handleGenerate st (Some (removePrompt (o :: rest)))) as [u|b0 r0 k0] eqn:E;
          [discriminate|].
        injection Hw as <- <- <-. exists (Some (removePrompt (o :: rest))), unchanged, b0. auto.
    - unfold handleTranslate in Hw.
      destruct (selectedObjects st) as [|o rest]; [discriminate|].
      destruct (handleGenerate st (Some (translatePrompt (o :: rest)))) as [u|b0 r0 k0] eqn:E;
        [discriminate|].
      injection Hw as <- <- <-. exists (Some (translatePrompt (o :: rest))), unchanged, b0. auto. }
  destruct Hg as (ov & f & b0 & E & -> & Hf).
  apply handleGenerate_await in E as (img & Hi & -> & -> & ->).
  exists img, (currentPrompt ov (prompt st)), f.
  split; [exact Hi|]. cbv zeta. split; [reflexivity|].
  split; [|split; reflexivity].
  destruct Hf as [-> | [key ->]]; intros s; repeat split.
Qed.
End PageKeeps.

(** Unfolds the handler an action is wired to and follows its tests. *)
Ltac follow_handler :=
  cbn [wired];
  unfold handleFileChange, handleObjectImageChange, handleBackgroundImageChange,
    handleComposite, handleDetectObjects, handleDetectText, handleGenerateBackground,
    handleQuickEdit,
    handleObjectAction, handleTranslate, handleObjectSelect, handleGenerate, clearImage,
    returns, invocation, after_setters;
  repeat match goal with
         | |- context [match ?x with _ => _ end] =>
             lazymatch x with
             | context [match _ with _ => _ end] => fail
             | _ => destruct x eqn:?
             end
         end.

Section BackgroundKept.
Context {NTS : NumberToString} {reading : RegionReading} {errors : TypeErrors}.

Lemma setters_keep_one_background (st : AppState) (a : Action) (s : AppState) :
  one_background s -> one_background (setters (wired st a) s).
Proof.
  unfold one_background. intros H.
  destruct a; follow_handler; cbn; auto.

Qed.

Lemma awaits_keep_one_background (st : AppState) (a : Action) (w : Pending) :
  awaits (wired st a) = Some w -> keeps one_background w.
Proof.
  unfold keeps, one_background.
  destruct a; follow_handler; cbn [awaits]; try discriminate;
    intros [= <-] ? [? ->] ? ?;
    repeat match goal with
           | |- context [match ?c with _ => _ end] => destruct c
           end; cbn; auto.
Qed.
End BackgroundKept.

Section BackgroundSources.
Context {NTS : NumberToString} {reading : RegionReading} {errors : TypeErrors}.

(** X10. Whatever is done on the page, in whatever order the promises
    settle, an uploaded background and a generated one are never stored
    together: storing either clears the other.  So what handleComposite
    passes to compositeImages is the source of the object image and the
    one background stored. *)
Theorem one_background_is_stored (st : AppState) (l : list Action) :
  one_background st ->
  let s := shown (acts (fresh st) l) in
  one_background s /\
  (forall objectSrc bgSrc resume,
      awaits (handleComposite s) = Some (Promised (compositeImages objectSrc bgSrc) resume) ->
      (exists object, objectImage s = Some object /\ objectSrc = src object) /\
      bgSrc <> "" /\
      ((exists b, backgroundImage s = Some b /\ src b = bgSrc /\
                  generatedBackground s = None) \/
       (backgroundImage s = None /\ generatedBackground s = Some bgSrc))).
Proof.
  intros Hst s.
  assert (Hone : one_background s).
  { apply (acts_keep one_background setters_keep_one_background
             awaits_keep_one_background l (fresh st)); [exact Hst | constructor]. }
  split; [exact Hone|].
  intros objectSrc bgSrc resume. unfold handleComposite, backgroundSrc.
  destruct (objectImage s) as [object|]; [|discriminate].
  destruct Hone as [Hb | Hg].
  - rewrite Hb. cbn [option_map truthy_string].
    destruct (generatedBackground s) as [g|]; [|discriminate]. cbn [truthy_string].
    destruct g as [|c g]; [discriminate|]. cbn [is_empty awaits].
    intros [= <- <-]. split; [now exists object|]. split; [discriminate|]. now right.
  - rewrite Hg. destruct (backgroundImage s) as [b|]; [|discriminate].
    cbn [option_map truthy_string].
    destruct (src b) as [|c g] eqn:Hsrc; [discriminate|]. cbn [is_empty awaits].
    intros [= <- <-]. split; [now exists object|]. split; [discriminate|].
    left. now exists b.
Qed.

End BackgroundSources.

Lemma one_background_is_stored_witness :
  let l := [ClickGenerateBackground; ClickBgMode upload;
            ChooseBackgroundFile (Some {| fileType := "image/png" |});
            ChooseObjectFile (Some {| fileType := "image/png" |});
            PromiseSettles 1 (Normal "data:image/png;base64,BBBB");
            ContentSettles 0 (Fulfilled (imageResponse "QUJD"));
            PromiseSettles 0 (Normal "data:image/png;base64,AAAA")] in
  let s := shown (@acts binary_toString listed_regions engine_errors (fresh initialState) l) in
  one_background initialState /\
  @usable binary_toString listed_regions engine_errors (fresh initialState) l = true /\
  backgroundImage s = None /\
  generatedBackground s = Some "data:image/png;base64,QUJD" /\
  exists resume,
    awaits (handleComposite s)
    = Some (Promised (compositeImages "data:image/png;base64,AAAA"
                        "data:image/png;base64,QUJD") resume).
Proof.
  pose proof (@one_background_is_stored binary_toString listed_regions engine_errors initialState
     [ClickGenerateBackground; ClickBgMode upload;
            ChooseBackgroundFile (Some {| fileType := "image/png" |});
            ChooseObjectFile (Some {| fileType := "image/png" |});
            PromiseSettles 1 (Normal "data:image/png;base64,BBBB");
            ContentSettles 0 (Fulfilled (imageResponse "QUJD"));
            PromiseSettles 0 (Normal "data:image/png;base64,AAAA")]
     (or_introl eq_refl)) as [Hone _].
  split; [left; reflexivity|]. split; [vm_compute; reflexivity|].
  split; [|split; [reflexivity | eexists; reflexivity]].
  destruct Hone as [Hb | Hg]; [exact Hb | discriminate Hg].
Defined.

(* ================================================================== *)
(** * The page: what the enabled controls keep *)
(* ================================================================== *)

Lemma without_middle {X : Type} (earlier : list X) (w : X) (later : list X)
  (n : nat) (x : X) :
  nth_error (earlier ++ w :: later) n = Some x ->
  (nth_error earlier n = Some x /\
   without n (earlier ++ w :: later) = (without n earlier ++ w :: later)%list) \/
  (x = w /\ without n (earlier ++ w :: later) = (earlier ++ later)%list) \/
  (exists m, nth_error later m = Some x /\
             without n (earlier ++ w :: later) = (earlier ++ w :: without m later)%list).
Proof.
  revert n. induction earlier as [|y earlier IH]; intros [|n]; simpl.
  - intros [= ->]. right. left. auto.
  - intros H. right. right. exists n. auto.
  - intros [= ->]. left. auto.
  - intros H. destruct (IH n H) as [[H1 ->] | [[-> ->] | (m & H1 & ->)]]; eauto.
Qed.

Section SoundPage.
Context {NTS : NumberToString} {reading : RegionReading} {errors : TypeErrors}.

Lemma distinct_toggled (r : DetectedObject) (s : list DetectedObject) :
  distinct s = true -> distinct (toggleSelection r s) = true.
Proof.
  intros Hd. unfold toggleSelection.
  destruct (existsb (fun o => areObjectsEqual o r) s) eqn:He.
  - now apply distinct_filter.
  - now apply distinct_snoc.
Qed.

Lemma In_toggled (r o : DetectedObject) (s : list DetectedObject) :
  In o (toggleSelection r s) -> In o s \/ o = r.
Proof.
  unfold toggleSelection.
  destruct (existsb (fun x => areObjectsEqual x r) s).
  - rewrite filter_In. tauto.
  - rewrite in_app_iff. simpl. intuition auto.
Qed.

(** The setters of an enabled control keep the selection sound, and keep
    the detected regions or empty them. *)
Lemma setters_selection (st : AppState) (a : Action) :
  enabled st a = true -> selection_sound st ->
  let s := setters (wired st a) st in
  selection_sound s /\
  (detectedObjects s = detectedObjects st \/ detectedObjects s = []).
Proof.
  unfold selection_sound. intros He (Hd & Hi & Hn).
  destruct a; follow_handler; unfold unchanged; cbn;
    repeat match goal with
           | H : ?x = _ |- context [?x] => rewrite H
           end;
    try (split; [|auto]; repeat split; auto using incl_nil_l; intros; congruence).
  (* the box clicked *)
  cbn [enabled] in He. apply andb_true_iff in He as [Himg _].
  match goal with
  | H : nth_error _ _ = Some ?d |- _ => apply nth_error_In in H; rename H into Hin
  end.
  split; [|now left]. split; [now apply distinct_toggled|].
  split.
  - intros x Hx. apply In_toggled in Hx as [Hx | ->]; auto.
  - intros E. rewrite E in Himg. discriminate.
Qed.

Lemma enabled_idle (st : AppState) (a : Action) :
  enabled st a = true ->
  match a with
  | ClickGenerate | ClickQuickAction _ | ClickDetectObjects | ClickDetectText
  | ClickObjectAction _ | ClickTranslate | ClickComposite => isLoading st = false
  | _ => True
  end.
Proof.
  destruct a as [| | | |key| | |[|]| | | | | | | | | | | | |]; try exact (fun _ => I);
    cbn; destruct (isLoading st); rewrite ?orb_true_r; cbn; congruence.
Qed.

Ltac follow_resume :=
  let u := fresh "u" in
  let x := fresh "x" in
  let s := fresh "s" in
  intros u [x ->] s; cbn;
  repeat match goal with
         | |- context [match ?c with _ => _ end] => destruct c
         end; cbn.

(** An enabled control either leaves the loading flag alone and awaits
    nothing that would touch it, or it is one that starts loading, taken
    when nothing is loading. *)
Lemma wired_loading (st : AppState) (a : Action) :
  enabled st a = true ->
  let i := wired st a in
  ((isLoading (setters i st) = isLoading st /\
    activePreset (setters i st) = activePreset st) /\
   (forall w, awaits i = Some w -> quiet w)) \/
  (isLoading st = false /\
   exists w,
     awaits i = Some w /\ ends_loading w /\
     (forall s, isLoading (setters i s) = true) /\
     (keeps_detected w \/ forall s, detectedObjects (setters i s) = []) /\
     (clears_preset w \/ forall s, activePreset (setters i s) = activePreset s)).
Proof.
  intros He. pose proof (enabled_idle st a He) as Hl. clear He.
  destruct a; follow_handler; unfold unchanged; cbn [setters awaits].
  all: first
    [ left; split;
      [ split; [first [reflexivity | symmetry; exact Hl] | reflexivity]
      | intros ? Hw; first
          [ discriminate Hw
          | injection Hw as <-; follow_resume;
            (split; [reflexivity|]; split; [reflexivity|]);
            first [left; repeat split; reflexivity | right; split; reflexivity] ] ]
    | right; split; [exact Hl|]; eexists; split; [reflexivity|];
      split; [follow_resume; repeat split; auto|];
      split; [intros ?; reflexivity|];
      split;
      [ first [ left; follow_resume; reflexivity | right; intros ?; reflexivity ]
      | first [ left; follow_resume; reflexivity | right; intros ?; reflexivity ] ]
    | exfalso;
      match goal with
      | H : is_empty (currentPrompt (Some (quickEditPrompt ?k ?d)) _) = true |- _ =>
          unfold currentPrompt in H; rewrite !(quickEditPrompt_nonempty k d) in H;
          discriminate H
      end ].
Qed.

Lemma quiet_selection (w : Pending) (u : AppState -> AppState) (s : AppState) :
  quiet w -> may_run w u -> selection_sound s ->
  selection_sound (u s) /\
  (detectedObjects (u s) = detectedObjects s \/ detectedObjects (u s) = []).
Proof.
  intros Hq Hu (Hd & Hi & Hn).
  destruct (Hq u Hu s) as (_ & _ & [(Es & Ed & Ei) | (Es & Ed)]).
  - unfold selection_sound. rewrite Es, Ed, Ei. auto.
  - unfold selection_sound. rewrite Es, Ed. repeat split; auto using incl_nil_l.
Qed.

Lemma settle_sound (p : Page) (n : nat) (w : Pending) (u : AppState -> AppState) :
  page_sound p -> nth_error (suspended p) n = Some w -> may_run w u ->
  page_sound {| shown := u (shown p); suspended := without n (suspended p) |}.
Proof.
  intros [Hsel Hload] Hn Hu. unfold page_sound, loading_sound. cbn [shown suspended].
  destruct Hload as [(Hl & Hp & Hq) | (Hl & earlier & m & later & E & Hqe & Hql & Hm & Hdet & Hpre)].
  - assert (Hw : quiet w) by exact (nth_error_Forall _ _ _ _ Hq Hn).
    destruct (quiet_selection w u _ Hw Hu Hsel) as [Hsel' _].
    split; [exact Hsel'|]. left.
    destruct (Hw u Hu (shown p)) as (El & Ep & _). rewrite El, Ep.
    auto using Forall_without.
  - rewrite E in Hn. rewrite E.
    destruct (without_middle earlier m later n w Hn)
      as [[Hin ->] | [[-> ->] | (k & Hin & ->)]].
    + assert (Hw : quiet w) by exact (nth_error_Forall _ _ _ _ Hqe Hin).
      destruct (quiet_selection w u _ Hw Hu Hsel) as [Hsel' Hd'].
      split; [exact Hsel'|]. right.
      destruct (Hw u Hu (shown p)) as (El & Ep & _). rewrite El, Ep.
      split; [exact Hl|]. exists (without n earlier), m, later.
      split; [reflexivity|]. split; [now apply Forall_without|].
      split; [exact Hql|]. split; [exact Hm|]. split; [|exact Hpre].
      destruct Hdet as [Hk | Hk]; [now left|]. right.
      destruct Hd' as [Hd' | Hd']; congruence.
    + destruct (Hm u Hu (shown p)) as (El & Es & Ei & Ep).
      assert (Hsel' : selection_sound (u (shown p))).
      { destruct Hsel as (Hd & Hi & Hnone). unfold selection_sound. rewrite Es, Ei.
        split; [exact Hd|]. split; [|exact Hnone].
        destruct Hdet as [Hk | Hk]; [now rewrite (Hk u Hu)|].
        rewrite Hk in Hi. destruct (selectedObjects (shown p)) as [|x rest];
          [apply incl_nil_l|].
        exfalso. apply (Hi x). now left. }
      split; [exact Hsel'|]. left. split; [exact El|]. split.
      * destruct Hpre as [Hc | Hc]; [exact (Hc u Hu (shown p))|].
        destruct Ep as [Ep | Ep]; congruence.
      * apply Forall_app. auto.
    + assert (Hw : quiet w) by exact (nth_error_Forall _ _ _ _ Hql Hin).
      destruct (quiet_selection w u _ Hw Hu Hsel) as [Hsel' Hd'].
      split; [exact Hsel'|]. right.
      destruct (Hw u Hu (shown p)) as (El & Ep & _). rewrite El, Ep.
      split; [exact Hl|]. exists earlier, m, (without k later).
      split; [reflexivity|]. split; [exact Hqe|].
      split; [now apply Forall_without|]. split; [exact Hm|]. split; [|exact Hpre].
      destruct Hdet as [Hk | Hk]; [now left|]. right.
      destruct Hd' as [Hd' | Hd']; congruence.
Qed.

(** Every enabled action keeps the page sound. *)
Lemma act_sound (p : Page) (a : Action) :
  page_sound p -> enabled (shown p) a = true -> page_sound (act p a).
Proof.
  intros Hp He.
  assert (Hinvoke : page_sound (invoke (wired (shown p) a) p)).
  { destruct Hp as [Hsel Hload].
    destruct (setters_selection (shown p) a He Hsel) as [Hsel' Hdet'].
    split; [exact Hsel'|]. unfold loading_sound, invoke. cbn [shown suspended].
    destruct (wired_loading (shown p) a He)
      as [[Hsame Hq] | (Hidle & w & Ew & Hends & Hstart & Hk & Hc)].
    - destruct Hsame as [El Ep]. rewrite El, Ep.
      assert (Hnew : forall l, Forall quiet l ->
                Forall quiet match awaits (wired (shown p) a) with
                             | Some w => (l ++ [w])%list
                             | None => l
                             end).
      { intros l Hl. destruct (awaits (wired (shown p) a)) as [w|]; [|exact Hl].
        apply Forall_app. split; [exact Hl|]. constructor; [now apply Hq | constructor]. }
      destruct Hload as [(Hl & Hpz & Hqs) | (Hl & earlier & m & later & E & Hqe & Hql & Hm & Hd & Hpre)].
      + left. auto.
      + right. split; [exact Hl|]. exists earlier, m.
        exists match awaits (wired (shown p) a) with
               | Some w => (later ++ [w])%list
               | None => later
               end.
        split; [rewrite E; destruct (awaits (wired (shown p) a));
                [now rewrite <- app_assoc | reflexivity]|].
        split; [exact Hqe|]. split; [now apply Hnew|]. split; [exact Hm|].
        split; [|exact Hpre].
        destruct Hd as [Hd | Hd]; [now left|]. right.
        destruct Hdet' as [Hdet' | Hdet']; congruence.
    - destruct Hload as [(Hl & Hpz & Hqs) | (Hl & _)]; [|congruence].
      right. split; [apply Hstart|]. rewrite Ew.
      exists (suspended p), w, [].
      split; [reflexivity|]. split; [exact Hqs|]. split; [constructor|].
      split; [exact Hends|]. split.
      + destruct Hk as [Hk | Hk]; [now left | right; apply Hk].
      + destruct Hc as [Hc | Hc]; [now left | right; now rewrite Hc]. }
  destruct a; try exact Hinvoke; clear Hinvoke; cbn [act].
  - destruct (nth_error (suspended p) n) as [[r k|c k]|] eqn:Hn; try exact Hp.
    apply (settle_sound p n (Requested r k)); [exact Hp | exact Hn | now exists o].
  - destruct (nth_error (suspended p) n) as [[r k|c k]|] eqn:Hn; try exact Hp.
    apply (settle_sound p n (Promised c k)); [exact Hp | exact Hn | now exists settled].
Qed.

Lemma acts_sound (l : list Action) (p : Page) :
  page_sound p -> usable p l = true -> page_sound (acts p l).
Proof.
  revert p. induction l as [|a l IH]; intros p Hp Hu; [exact Hp|].
  cbn [usable] in Hu. apply andb_true_iff in Hu as [Ha Hl].
  unfold acts. cbn [fold_left]. apply IH; [now apply act_sound | exact Hl].
Qed.

Lemma fresh_sound (st : AppState) :
  selection_sound st -> isLoading st = false -> activePreset st = None ->
  page_sound (fresh st).
Proof.
  intros Hs Hl Hp. split; [exact Hs|]. left.
  split; [exact Hl|]. split; [exact Hp | constructor].
Qed.

End SoundPage.

Section ReachedPage.
Context {NTS : NumberToString} {reading : RegionReading} {errors : TypeErrors}.

Lemma reached_sound (st : AppState) (l : list Action) :
  at_rest st -> usable (fresh st) l = true -> page_sound (acts (fresh st) l).
Proof.
  intros (Hs & Hl & Hp) Hu. apply acts_sound; [|exact Hu]. now apply fresh_sound.
Qed.

Lemma distinct_NoDup (l : list DetectedObject) : distinct l = true -> NoDup l.
Proof.
  induction l as [|x l IH]; simpl; [constructor|].
  intros H. apply andb_true_iff in H as [Hx Hl]. constructor; [|auto].
  intros Hin. apply negb_true_iff in Hx.
  assert (existsb (fun o => areObjectsEqual o x) l = true).
  { apply existsb_exists. exists x. split; [exact Hin | apply areObjectsEqual_refl]. }
  congruence.
Qed.

(** X11. On a page followed from rest through enabled controls and
    settling promises, in any order: no two selected regions are equal,
    every selected region is one of the regions detected, so there are at
    most as many, and regions are selected only while an image is
    loaded. *)
Theorem selection_stays_within_detections (st : AppState) (l : list Action) :
  at_rest st -> usable (fresh st) l = true ->
  let s := shown (acts (fresh st) l) in
  distinct (selectedObjects s) = true /\
  (forall o, In o (selectedObjects s) -> In o (detectedObjects s)) /\
  (List.length (selectedObjects s) <= List.length (detectedObjects s))%nat /\
  (selectedObjects s <> [] -> image s <> None).
Proof.
  intros Hst Hu s.
  destruct (reached_sound st l Hst Hu) as [(Hd & Hi & Hn) _]. fold s in Hd, Hi, Hn.
  split; [exact Hd|]. split; [exact Hi|]. split.
  - apply NoDup_incl_length; [now apply distinct_NoDup | exact Hi].
  - intros Hne E. auto.
Qed.

(** X12. On such a page isLoading is true exactly while one suspended
    invocation is going to clear it, and every other suspended invocation
    leaves isLoading and activePreset as they are: loading is never ended
    by the settling of another promise, never left on with nothing to end
    it, never turned on by a promise that settles, and no preset is
    active when nothing is loading. *)
Theorem loading_has_one_owner (st : AppState) (l : list Action) :
  at_rest st -> usable (fresh st) l = true ->
  let p := acts (fresh st) l in
  (isLoading (shown p) = false ->
     activePreset (shown p) = None /\ Forall quiet (suspended p)) /\
  (isLoading (shown p) = true ->
     exists earlier w later,
       suspended p = (earlier ++ w :: later)%list /\
       Forall quiet earlier /\ Forall quiet later /\ ends_loading w) /\
  (forall n w u,
     nth_error (suspended p) n = Some w -> may_run w u ->
     isLoading (u (shown p)) = true -> isLoading (shown p) = true).
Proof.
  intros Hst Hu p.
  destruct (reached_sound st l Hst Hu) as [_ Hload]. fold p in Hload.
  split; [|split].
  - intros Hl. destruct Hload as [(_ & Hp & Hq) | (Hl' & _)]; [auto | congruence].
  - intros Hl.
    destruct Hload as [(Hl' & _) | (_ & earlier & w & later & E & Hqe & Hql & Hw & _)];
      [congruence|].
    now exists earlier, w, later.
  - intros n w u Hn Hrun Hl.
    assert (Hq : quiet w \/ ends_loading w).
    { destruct Hload as [(_ & _ & Hq) | (_ & earlier & m & later & E & Hqe & Hql & Hm & _)].
      - left. exact (nth_error_Forall _ _ _ _ Hq Hn).
      - rewrite E in Hn.
        destruct (without_middle earlier m later n w Hn)
          as [[Hin _] | [[-> _] | (k & Hin & _)]].
        + left. exact (nth_error_Forall _ _ _ _ Hqe Hin).
        + now right.
        + left. exact (nth_error_Forall _ _ _ _ Hql Hin). }
    destruct Hq as [Hq | Hq].
    + destruct (Hq u Hrun (shown p)) as (El & _). congruence.
    + destruct (Hq u Hrun (shown p)) as (El & _). congruence.
Qed.

Lemma enabled_selection_has_image (st : AppState) (l : list Action) :
  at_rest st -> usable (fresh st) l = true ->
  let s := shown (acts (fresh st) l) in
  selectedObjects s <> [] -> exists img, image s = Some img.
Proof.
  intros Hst Hu s Hne.
  destruct (reached_sound st l Hst Hu) as [(_ & _ & Hn) _]. fold s in Hn.
  destruct (image s) as [img|]; [now exists img|]. now destruct Hne; auto.
Qed.

Lemma handleGenerate_with (st : AppState) (img : ImageState) (q : string) :
  image st = Some img -> is_empty q = false ->
  let call := editImage (base64_of_src (src img)) (fileType (file img)) q in
  handleGenerate st (Some q)
  = Await (setIsLoading true >> setError None >> setResultImage None) (request call)
      (fun o =>
         (match settle call o with
          | Normal editedImageBase64 =>
              setResultImage (Some (png_data_uri editedImageBase64))
          | Throw err => setError (Some (message_or "An unknown error occurred." err))
          end) >> setIsLoading false >> setActivePreset None).
Proof.
  intros Hi Hq. unfold handleGenerate, currentPrompt. now rewrite Hi, !Hq.
Qed.


(** X14. A detection is not tied to the image it was run on: when the
    image is cleared while the detection is pending and another file is
    read in before the detection settles, every step being one the page
    allows, the regions detected on the first image end up stored, with
    nothing selected, over the second image. *)
Theorem detections_outlive_their_image (st : AppState) (img : ImageState)
  (file2 : File) (src2 : string) (o : api_outcome) :
  image st = Some img -> isLoading st = false ->
  let l := [ClickDetectObjects; ClickClear; ChooseFile (Some file2);
            PromiseSettles 1 (Normal src2); ContentSettles 0 o] in
  let call := detectObjects (base64_of_src (src img)) (fileType (file img)) in
  let p := acts (fresh st) l in
  usable (fresh st) l = true /\
  suspended p = [] /\
  image (shown p) = Some {| src := src2; file := file2 |} /\
  isLoading (shown p) = false /\ selectedObjects (shown p) = [] /\
  (forall objects,
      settle call o = Normal objects ->
      detectedObjects (shown p) = asDetectedObjects objects /\
      error (shown p) = None /\
      forall index,
        (index < List.length (asDetectedObjects objects))%nat ->
        enabled (shown p) (ClickBox index) = true) /\
  (forall e,
      settle call o = Throw e ->
      detectedObjects (shown p) = [] /\ error (shown p) = Some objects_failed).
Proof.
  intros Hi Hl l call p.
  assert (E : handleDetectObjects st
              = {| setters := setIsLoading true >> setError None >> setResultImage None >>
                              setSelectedObjects (fun _ => []) >> setDetectedObjects [];
                   awaits := Some (Requested (request call) (fun o =>
                     (match settle call o with
                      | Normal objects => setDetectedObjects (asDetectedObjects objects)
                      | Throw err =>
                          setError (Some (message_or "An unknown error occurred." err))
                      end) >> setIsLoading false)) |}).
  { unfold handleDetectObjects. now rewrite Hi. }
  unfold p, l, acts, usable. cbn [fold_left].
  change (act (fresh st) ClickDetectObjects)
    with (invoke (handleDetectObjects st) (fresh st)).
  rewrite E. cbn -[settle call]. rewrite ?Hi, ?Hl. cbn -[settle call].
  split; [reflexivity|]. split; [reflexivity|].
  destruct (settle call o) as [objects|e] eqn:Es; cbn.
  - split; [reflexivity|]. split; [reflexivity|]. split; [reflexivity|].
    split; [|discriminate].
    intros v [= <-]. split; [reflexivity|]. split; [reflexivity|].
    intros index Hlt.
    change (match List.length (asDetectedObjects objects) with
            | O => false
            | S m' => (index <=? m')%nat
            end) with (index <? List.length (asDetectedObjects objects))%nat.
    now apply Nat.ltb_lt.
  - apply rethrow_as_throws in Es. subst e.
    split; [reflexivity|]. split; [reflexivity|]. split; [reflexivity|].
    split; [discriminate|]. intros e _. split; reflexivity.
Qed.

End ReachedPage.

(* ================================================================== *)
(** * The overlay boxes *)
(* ================================================================== *)

Lemma times_zero_binary64 (x : number) :
  is_finite x = true -> exists s, JS.mul x (px 0) = S754_zero s.
Proof.
  destruct x as [s|s| |s m e]; try discriminate; intros _; eexists; reflexivity.
Qed.

Lemma plus_zero_binary64 (s : bool) :
  SFadd prec emax (px 0) (S754_zero s) = S754_zero false.
Proof. destruct s; reflexivity. Qed.

Section ExactOverlay.
Local Open Scope Q_scope.

Lemma exact_overlay (img : ImgElement Q) (old : RenderInfo Q) (x0 y0 x1 y1 : Q) :
  0 < clientWidth img -> 0 < clientHeight img ->
  0 < naturalWidth img -> 0 < naturalHeight img ->
  0 <= x0 -> x0 <= x1 -> x1 <= 1 -> 0 <= y0 -> y0 <= y1 -> y1 <= 1 ->
  let g := handleResize (Some img) old in
  let b := boxStyle x0 y0 x1 y1 g in
  0 <= boxWidth b /\ 0 <= boxHeight b /\
  left g <= boxLeft b /\ boxLeft b + boxWidth b <= left g + width g /\
  top g <= boxTop b /\ boxTop b + boxHeight b <= top g + height g /\
  0 <= boxLeft b /\ boxLeft b + boxWidth b <= clientWidth img /\
  0 <= boxTop b /\ boxTop b + boxHeight b <= clientHeight img /\
  boxLeft b - left g == x0 * width g /\ boxTop b - top g == y0 * height g.
Proof.
  intros Hcw Hch Hnw Hnh Hx0 Hx Hx1 Hy0 Hy Hy1 g b.
  destruct (exact_geometry img old Hcw Hch Hnw Hnh)
    as (Hw & Hh & Hhpos & Hratio & Htop & Etop & Hleft & Eleft & _).
  fold g in Hw, Hh, Hhpos, Hratio, Htop, Etop, Hleft, Eleft.
  assert (Hwpos : 0 < width g).
  { assert (Hr : 0 < naturalWidth img / naturalHeight img)
      by (apply Qlt_shift_div_l; [exact Hnh | now rewrite Qmult_0_l]).
    assert (Nh : ~ height g == 0)
      by (intros E; rewrite E in Hhpos; now apply Qlt_irrefl in Hhpos).
    assert (E : width g == width g / height g * height g) by (field; exact Nh).
    rewrite E, Hratio. nra. }
  unfold b, boxStyle. cbn [boxLeft boxTop boxWidth boxHeight].
  cbv [plus exact_plus times minus exact].
  set (w := width g) in *. set (h := height g) in *.
  set (t := top g) in *. set (l := left g) in *.
  repeat split; nra.
Qed.

End ExactOverlay.


Lemma at_rest_initialState {NTS : NumberToString} : at_rest initialState.
Proof.
  split; [|split; reflexivity].
  split; [reflexivity|]. split; [apply incl_nil_l | reflexivity].
Qed.

Lemma spinner_of_the_active_preset_witness :
  let st := setSelectedObjects (fun _ => [sampleObject])
              (setImage (Some sampleImage) initialState) in
  image st = Some sampleImage /\ selectedObjects st = [sampleObject] /\
  (exists before request resume,
      @handleQuickEdit binary_toString st sketch = Await before request resume /\
      showsSpinner (quickActionButton (before st) sketch) = true /\
      showsSpinner (quickActionButton (before st) dramatic) = false /\
      isDisabled (quickActionButton (before st) dramatic) = true) /\
  activePreset st = None /\
  caption (generateButton
             (setters (@handleDetectObjects listed_regions st) st)) = "Generating...".
Proof.
  destruct (@spinner_of_the_active_preset binary_toString listed_regions
              (setSelectedObjects (fun _ => [sampleObject])
                 (setImage (Some sampleImage) initialState))
              sampleImage sampleObject sketch eq_refl eq_refl)
    as [(before & request & resume & E & Hq & _) Hdetect].
  split; [reflexivity|]. split; [reflexivity|]. split.
  - exists before, request, resume. split; [exact E|].
    split; [exact (proj2 (Hq _ sketch))|].
    split; [exact (proj2 (Hq _ dramatic)) | exact (proj1 (Hq _ dramatic))].
  - split; [reflexivity|].
    exact (proj2 (proj2 (proj2
             (Hdetect (setSelectedObjects (fun _ => [sampleObject])
                         (setImage (Some sampleImage) initialState)) sketch eq_refl)))).
Defined.

Lemma selection_stays_within_detections_witness :
  @at_rest binary_toString initialState /\
  @usable binary_toString listed_regions engine_errors (fresh initialState) catTrace = true /\
  let s := shown (@acts binary_toString listed_regions engine_errors (fresh initialState) catTrace) in
  detectedObjects s = [cat] /\ selectedObjects s = [cat] /\
  (List.length (selectedObjects s) <= List.length (detectedObjects s))%nat /\
  image s <> None.
Proof.
  pose proof (@selection_stays_within_detections binary_toString listed_regions engine_errors
                initialState catTrace at_rest_initialState
                ltac:(vm_compute; reflexivity)) as (_ & _ & Hlen & Himg).
  split; [exact at_rest_initialState|]. split; [vm_compute; reflexivity|].
  split; [vm_compute; reflexivity|]. split; [vm_compute; reflexivity|].
  split; [exact Hlen|]. apply Himg. vm_compute. discriminate.
Defined.

Lemma loading_has_one_owner_witness :
  let l := [ChooseFile (Some {| fileType := "image/jpeg" |});
            PromiseSettles 0 (Normal "data:image/jpeg;base64,AAAA");
            ClickGenerateBackground; ClickDetectObjects] in
  let p := @acts binary_toString listed_regions engine_errors (fresh initialState) l in
  @at_rest binary_toString initialState /\
  @usable binary_toString listed_regions engine_errors (fresh initialState) l = true /\
  isLoading (shown p) = true /\ List.length (suspended p) = 2%nat /\
  exists earlier w later,
    suspended p = (earlier ++ w :: later)%list /\
    Forall quiet earlier /\ Forall quiet later /\ ends_loading w.
Proof.
  pose proof (@loading_has_one_owner binary_toString listed_regions engine_errors initialState
                [ChooseFile (Some {| fileType := "image/jpeg" |});
                 PromiseSettles 0 (Normal "data:image/jpeg;base64,AAAA");
                 ClickGenerateBackground; ClickDetectObjects]
                at_rest_initialState ltac:(vm_compute; reflexivity)) as (_ & Hown & _).
  split; [exact at_rest_initialState|]. split; [vm_compute; reflexivity|].
  split; [reflexivity|]. split; [reflexivity|]. apply Hown. reflexivity.
Defined.


Lemma detections_outlive_their_image_witness :
  let st := setImage (Some sampleImage) initialState in
  let l := [ClickDetectObjects; ClickClear; ChooseFile (Some {| fileType := "image/png" |});
            PromiseSettles 1 (Normal "data:image/png;base64,BBBB");
            ContentSettles 0 (Fulfilled (textResponse catBody))] in
  let p := @acts binary_toString listed_regions engine_errors (fresh st) l in
  image st = Some sampleImage /\ isLoading st = false /\
  settle (detectObjects (Some "AAAA") "image/jpeg") (Fulfilled (textResponse catBody))
  = Normal (JArray [JObject [("label", JString "cat");
                             ("boundingBox",
                              JObject [("x_min", JNumber (Number_literal "0.1"));
                                       ("y_min", JNumber (Number_literal "0.2"));
                                       ("x_max", JNumber (Number_literal "0.3"));
                                       ("y_max", JNumber (Number_literal "0.4"))])]]) /\
  image (shown p) = Some otherImage /\ detectedObjects (shown p) = [cat] /\
  @enabled (shown p) (ClickBox 0) = true.
Proof.
  destruct (@detections_outlive_their_image binary_toString listed_regions engine_errors
              (setImage (Some sampleImage) initialState) sampleImage
              {| fileType := "image/png" |} "data:image/png;base64,BBBB"
              (Fulfilled (textResponse catBody)) eq_refl eq_refl)
    as (_ & _ & Himg & _ & _ & Hok & _).
  split; [reflexivity|]. split; [reflexivity|].
  split; [vm_compute; reflexivity|].
  split; [exact Himg|].
  destruct (Hok _ ltac:(vm_compute; reflexivity)) as (Hdet & _ & Hbox).
  split; [exact Hdet|]. apply Hbox. vm_compute. lia.
Defined.


(** X16. A detection and a compositing drive the result panel like a
    generation: the spinner from the click on.  A detection discards the
    result stored before it, with the regions and the selection: when it
    succeeds the panel is back on the placeholder, when it fails the panel
    shows the message of detectObjects.  A compositing shows what
    compositeImages returns as it is; when compositeImages fails the panel
    shows the message of the Error thrown, or the fallback text for a
    thrown value that is no Error, and for an Error whose message is empty
    it shows no error at all, only the placeholder. *)
Theorem result_panel_of_detection_and_compositing
  {NTS : NumberToString} {reading : RegionReading} :
  (forall st img,
      image st = Some img ->
      let call := detectObjects (base64_of_src (src img)) (fileType (file img)) in
      let before := setters (handleDetectObjects st) in
      exists resume,
        awaits (handleDetectObjects st) = Some (Requested (request call) resume) /\
        (forall s, resultPanel (before s) = GeneratingSpinner /\
                   resultImage (before s) = None /\
                   detectedObjects (before s) = [] /\ selectedObjects (before s) = []) /\
        (forall o s,
            (exists objects,
                settle call o = Normal objects /\
                detectedObjects (resume o (before s)) = asDetectedObjects objects /\
                resultPanel (resume o (before s)) = ResultPlaceholder) \/
            (settle call o = Throw (ErrorObject objects_failed) /\
             detectedObjects (resume o (before s)) = [] /\
             resultPanel (resume o (before s)) = ErrorOccurred objects_failed))) /\
  (forall st object background,
      objectImage st = Some object -> backgroundSrc st = Some background ->
      let before := setters (handleComposite st) in
      exists resume,
        awaits (handleComposite st)
        = Some (Promised (compositeImages (src object) background) resume) /\
        (forall s, resultPanel (before s) = GeneratingSpinner) /\
        (forall result s,
            resultImage (resume (Normal result) (before s)) = Some result /\
            resultPanel (resume (Normal result) (before s))
            = if is_empty result then ResultPlaceholder else EditedResult result) /\
        (forall e s,
            let message := message_or "Failed to composite images." e in
            error (resume (Throw e) (before s)) = Some message /\
            resultPanel (resume (Throw e) (before s))
            = if is_empty message then ResultPlaceholder else ErrorOccurred message)).
Proof.
  split.
  - intros st img Hi call before. unfold before, handleDetectObjects. rewrite Hi.
    fold call. cbn [setters awaits].
    eexists. split; [reflexivity|]. split; [intros s; repeat split|].
    intros o s. destruct (settle call o) as [objects|e] eqn:E.
    + left. exists objects. repeat split.
    + right. apply rethrow_as_throws in E. subst e. repeat split.
  - intros st object background Ho Hb before. unfold before, handleComposite.
    rewrite Ho, Hb. cbn [setters awaits].
    eexists. split; [reflexivity|]. split; [intros s; reflexivity|]. split.
    + intros result s. split; [reflexivity|].
      unfold resultPanel, ResultDisplay. cbn. destruct result; reflexivity.
    + intros e s. split; [reflexivity|].
      unfold resultPanel, ResultDisplay. cbn.
      destruct (message_or "Failed to composite images." e); reflexivity.
Qed.

Lemma result_panel_of_detection_and_compositing_witness :
  let st := setBackgroundImage (Some otherImage)
              (setObjectImage (Some sampleImage)
                 (setResultImage (Some "data:image/png;base64,QUJD")
                    (setImage (Some sampleImage) initialState))) in
  image st = Some sampleImage /\ objectImage st = Some sampleImage /\
  backgroundSrc st = Some "data:image/png;base64,BBBB" /\
  resultPanel st = EditedResult "data:image/png;base64,QUJD" /\
  (exists resume,
      awaits (@handleDetectObjects listed_regions st)
      = Some (Requested (request (detectObjects (Some "AAAA") "image/jpeg")) resume) /\
      resultPanel (resume (Fulfilled (textResponse catBody))
                     (setters (@handleDetectObjects listed_regions st) st))
      = ResultPlaceholder) /\
  (exists resume,
      awaits (handleComposite st)
      = Some (Promised (compositeImages "data:image/jpeg;base64,AAAA"
                          "data:image/png;base64,BBBB") resume) /\
      resultPanel (resume (Throw (ErrorObject "")) (setters (handleComposite st) st))
      = ResultPlaceholder).
Proof.
  destruct (@result_panel_of_detection_and_compositing binary_toString listed_regions)
    as [Hdetect Hcomposite].
  split; [reflexivity|]. split; [reflexivity|]. split; [reflexivity|].
  split; [reflexivity|]. split.
  - destruct (Hdetect (setBackgroundImage (Some otherImage)
              (setObjectImage (Some sampleImage)
                 (setResultImage (Some "data:image/png;base64,QUJD")
                    (setImage (Some sampleImage) initialState)))) sampleImage eq_refl)
      as (resume & E & _ & Hsettled).
    exists resume. split; [exact E|].
    destruct (Hsettled (Fulfilled (textResponse catBody))
                (setBackgroundImage (Some otherImage)
              (setObjectImage (Some sampleImage)
                 (setResultImage (Some "data:image/png;base64,QUJD")
                    (setImage (Some sampleImage) initialState)))))
      as [(objects & _ & _ & Hp) | (Hfail & _)]; [exact Hp|].
    vm_compute in Hfail. discriminate Hfail.
  - destruct (Hcomposite (setBackgroundImage (Some otherImage)
              (setObjectImage (Some sampleImage)
                 (setResultImage (Some "data:image/png;base64,QUJD")
                    (setImage (Some sampleImage) initialState)))) sampleImage
              "data:image/png;base64,BBBB" eq_refl eq_refl)
      as (resume & E & _ & _ & Hthrow).
    exists resume. split; [exact E|].
    exact (proj2 (Hthrow (ErrorObject "") _)).
Defined.

Lemma image_of_response_nonempty (m1 m2 : string) (o : api_outcome) (d : string) :
  image_of_response m1 m2 o = Normal d -> d <> "".
Proof.
  unfold image_of_response. destruct o as [reason|r]; [discriminate|].
  destruct (candidates r) as [[|c rest]|]; try discriminate.
  destruct (content c) as [ct|]; [|discriminate].
  destruct (parts ct) as [ps|]; [|discriminate].
  destruct (first_image ps) as [x|] eqn:E; [|discriminate].
  intros [= ->]. apply first_image_first in E.
  destruct E as (pre & part & post & blob & _ & _ & _ & _ & Hne). exact Hne.
Qed.

Section GeneratedBackground.
Context {NTS : NumberToString} {reading : RegionReading} {errors : TypeErrors}.

Lemma setters_keep_png_background (st : AppState) (a : Action) (s : AppState) :
  png_background s -> png_background (setters (wired st a) s).
Proof.
  assert (E : generatedBackground (setters (wired st a) s) = generatedBackground s \/
              generatedBackground (setters (wired st a) s) = None)
    by (destruct a; follow_handler; cbn; auto).
  unfold png_background. destruct E as [-> | ->]; auto.
Qed.

Lemma awaits_keep_png_background (st : AppState) (a : Action) (w : Pending) :
  awaits (wired st a) = Some w -> keeps png_background w.
Proof.
  unfold keeps.
  destruct a;
    try (follow_handler; cbn [awaits]; try discriminate;
         intros [= <-] ? [? ->] ? ?;
         match goal with
         | |- png_background ?t =>
             assert (E : generatedBackground t = None \/
                         exists s0, png_background s0 /\
                                    generatedBackground t = generatedBackground s0)
               by (repeat match goal with
                          | |- context [match ?c with _ => _ end] => destruct c
                          end; cbn; eauto);
             unfold png_background in *;
             destruct E as [-> | (? & ? & ->)]; auto
         end; fail).
  unfold png_background.
  cbn [wired]. unfold handleGenerateBackground.
  destruct (is_empty (backgroundPrompt st)); [discriminate|].
  cbn [invocation awaits]. intros [= <-] u [o ->] s H.
  match goal with
  | |- context [image_of_response ?m1 ?m2 o] =>
      destruct (image_of_response m1 m2 o) as [d|e] eqn:E
  end.
  - cbn. exists d. split; [|reflexivity].
    exact (image_of_response_nonempty _ _ _ _ E).
  - cbn. exact H.
Qed.

(** X17. Whatever is done on the page, the generated background stored
    is a data URI labelled image/png whose payload is the non-empty data
    the backend returned, whatever type the backend itself gave the data;
    so a stored generated background is truthy, its preview is rendered
    and it is what compositeImages receives when no background is
    uploaded. *)
Theorem generated_background_is_a_png_data_uri (st : AppState) (l : list Action) :
  png_background st ->
  let s := shown (acts (fresh st) l) in
  (forall g, generatedBackground s = Some g ->
     (exists d, d <> "" /\ g = "data:image/png;base64," ++ d) /\
     truthy_string (generatedBackground s) = Some g /\
     (backgroundImage s = None -> backgroundSrc s = Some g)) /\
  (forall p d mime others body,
     d <> "" ->
     settle (generateImageFromPrompt p)
       (Fulfilled (partsResponse [dataPart d mime] others body)) = Normal d).
Proof.
  intros Hst s.
  assert (Hpng : png_background s).
  { apply (acts_keep png_background setters_keep_png_background
             awaits_keep_png_background l (fresh st)); [exact Hst | constructor]. }
  split; [|intros p d mime others body Hd; destruct d; [contradiction | reflexivity]].
  intros g Hg. unfold png_background in Hpng. rewrite Hg in Hpng.
  destruct Hpng as (d & Hd & ->).
  split; [now exists d|]. split; [now rewrite Hg|].
  intros Hb. unfold backgroundSrc. now rewrite Hb, Hg.
Qed.

End GeneratedBackground.

Lemma generated_background_is_a_png_data_uri_witness :
  let l := [ClickGenerateBackground;
            ContentSettles 0 (Fulfilled (partsResponse [dataPart "QUJD" "image/jpeg"] [] None))] in
  let s := shown (@acts binary_toString listed_regions engine_errors (fresh initialState) l) in
  png_background initialState /\
  generatedBackground s = Some "data:image/png;base64,QUJD" /\
  backgroundImage s = None /\
  backgroundSrc s = Some "data:image/png;base64,QUJD".
Proof.
  destruct (@generated_background_is_a_png_data_uri binary_toString listed_regions engine_errors
              initialState
              [ClickGenerateBackground;
               ContentSettles 0
                 (Fulfilled (partsResponse [dataPart "QUJD" "image/jpeg"] [] None))] I)
    as [Hstored _].
  split; [exact I|]. split; [reflexivity|]. split; [reflexivity|].
  exact (proj2 (proj2 (Hstored _ eq_refl)) eq_refl).
Defined.

(* ================================================================== *)
(** * The literal of a normalized box *)
(* ================================================================== *)

Lemma normalized_scaled_bound (x : number) :
  normalized x = true ->
  match x with
  | S754_zero _ => True
  | S754_finite s m e => s = false /\ (nearest_scaled 4 m e <= 10000)%N
  | _ => False
  end.
Proof.
  unfold normalized. intros H.
  apply andb_true_iff in H as [H H1]. apply andb_true_iff in H as [Hv H0].
  destruct x as [s|s| |s m e]; try exact I; try discriminate.
  - destruct s; discriminate.
  - destruct s; [discriminate|]. split; [reflexivity|].
    cbn [valid_binary] in Hv.
    unfold bounded, canonical_mantissa, fexp, SpecFloat.emin in Hv.
    apply andb_true_iff in Hv as [Hc _]. apply Z.eqb_eq in Hc.
    pose proof (digits2_pos_bound m) as Hm.
    change (Number_of_Z 1) with (S754_finite false 4503599627370496 (-52)) in H1.
    unfold JS.le, SFleb, SFcompare in H1.
    assert (Hd : Zpos (digits2_pos m) <= 53) by (unfold prec, emax in Hc; lia).
    assert (H53 : 2 ^ Zpos (digits2_pos m) <= 2 ^ 53) by (apply Z.pow_le_mono_r; lia).
    change (2 ^ 53) with 9007199254740992 in H53.
    assert (Hk : exists k, e = Zneg k /\ Zpos m <= 2 ^ Zpos k).
    { destruct (Z.compare_spec e (-52)) as [He | He | He]; [| |discriminate].
      - subst e. exists 52%positive. split; [reflexivity|].
        change (2 ^ 52) with 4503599627370496.
        assert (Hle : (m <= 4503599627370496)%positive).
        { unfold Pos.le, Pos.compare. intros Hgt. rewrite Hgt in H1. discriminate H1. }
        apply Pos2Z.pos_le_pos. exact Hle.
      - clear H0 H1. destruct e as [|k|k]; try lia. exists k. split; [reflexivity|].
        assert (2 ^ 53 <= 2 ^ Zpos k) by (apply Z.pow_le_mono_r; lia).
        change (2 ^ 53) with 9007199254740992 in H.
        lia. }
    destruct Hk as (k & -> & Hmk).
    unfold nearest_scaled. cbv zeta.
    assert (Hp : 0 < 2 ^ Zpos k) by (apply Z.pow_pos_nonneg; lia).
    assert (Hp1 : 2 ^ (Zpos k + 1) = 2 * 2 ^ Zpos k) by (rewrite Z.pow_add_r; lia).
    rewrite Hp1. change (10 ^ Z.of_nat 4) with 10000.
    assert (Hq : (2 * (Zpos m * 10000) + 2 ^ Zpos k) / (2 * 2 ^ Zpos k) <= 10000).
    { apply Z.lt_succ_r. apply Z.div_lt_upper_bound; [lia|].
      set (P := 2 ^ Zpos k) in *. clearbody P. clear -Hmk Hp. lia. }
    assert (Hq0 : 0 <= (2 * (Zpos m * 10000) + 2 ^ Zpos k) / (2 * 2 ^ Zpos k))
      by (apply Z.div_pos; lia).
    lia.
Qed.

(** Every numeral of at most 10000 ten-thousandths, checked one by one. *)
Lemma all_below_spec (f : N -> bool) (k : nat) :
  all_below f k = true -> forall n, (N.to_nat n < k)%nat -> f n = true.
Proof.
  induction k as [|k IH]; simpl; intros H n Hn; [lia|].
  apply andb_true_iff in H as [Hk Hrest].
  destruct (Nat.eq_dec (N.to_nat n) k) as [E | E].
  - rewrite <- E, N2Nat.id in Hk. exact Hk.
  - apply IH; [exact Hrest | lia].
Qed.

Lemma fixed_digits_unit_interval (n : N) :
  (n <= 10000)%N ->
  String.length (fixed_digits 4 n) = 6%nat /\
  (starts_with "0." (fixed_digits 4 n) = true \/ fixed_digits 4 n = "1.0000").
Proof.
  intros Hn.
  assert (Hall : all_below (fun i =>
                    (String.length (fixed_digits 4 i) =? 6)%nat &&
                    (starts_with "0." (fixed_digits 4 i) ||
                     String.eqb (fixed_digits 4 i) "1.0000"))
                   (N.to_nat 10001) = true) by (vm_compute; reflexivity).
  pose proof (all_below_spec _ _ Hall n ltac:(lia)) as H. cbv beta in H.
  apply andb_true_iff in H as [Hlen Hshape].
  apply Nat.eqb_eq in Hlen. split; [exact Hlen|].
  apply orb_true_iff in Hshape as [H | H]; [now left | right; now apply String.eqb_eq].
Qed.

(** X18. A coordinate between 0 and 1 is written with six characters, as
    0.dddd or as 1.0000: never with a sign, an exponent or a second
    integer digit; so the literal of a normalized box has 32 characters,
    whatever the four coordinates are. *)
Theorem normalized_box_literal {NTS : NumberToString} :
  (forall x, normalized x = true ->
     String.length (toFixed 4 x) = 6%nat /\
     (starts_with "0." (toFixed 4 x) = true \/ toFixed 4 x = "1.0000")) /\
  (forall b, normalized_box b = true -> String.length (bboxString b) = 32%nat).
Proof.
  assert (Hone : forall x, normalized x = true ->
     String.length (toFixed 4 x) = 6%nat /\
     (starts_with "0." (toFixed 4 x) = true \/ toFixed 4 x = "1.0000")).
  { intros x Hx. pose proof (normalized_scaled_bound x Hx) as Hb.
    destruct (normalized_in_range x Hx) as [Hr _].
    destruct x as [s|s| |s m e]; try contradiction.
    - cbn [toFixed]. split; [reflexivity | left; reflexivity].
    - destruct Hb as [-> Hb]. cbn [fixed_range] in Hr. apply negb_true_iff in Hr.
      cbn [toFixed]. rewrite Hr. cbn [append].
      now apply fixed_digits_unit_interval. }
  split; [exact Hone|].
  intros b Hb. unfold normalized_box in Hb.
  apply andb_true_iff in Hb as [Hb H4]. apply andb_true_iff in Hb as [Hb H3].
  apply andb_true_iff in Hb as [H1 H2].
  unfold bboxString. rewrite !length_app.
  rewrite (proj1 (Hone _ H1)), (proj1 (Hone _ H2)), (proj1 (Hone _ H3)),
          (proj1 (Hone _ H4)). reflexivity.
Qed.

Lemma normalized_box_literal_witness :
  normalized (Number_literal "0.99996") = true /\
  @toFixed binary_toString 4 (Number_literal "0.99996") = "1.0000" /\
  normalized_box sampleBox = true /\
  String.length (@bboxString binary_toString sampleBox) = 32%nat.
Proof.
  destruct (@normalized_box_literal binary_toString) as [Hone Hbox].
  split; [vm_compute; reflexivity|].
  split.
  - destruct (Hone (Number_literal "0.99996") ltac:(vm_compute; reflexivity))
      as [_ [H | H]]; [vm_compute in H; discriminate H | exact H].
  - split; [vm_compute; reflexivity|]. apply Hbox. vm_compute. reflexivity.
Defined.

(* ================================================================== *)
(** * What the user typed *)
(* ================================================================== *)

Section Typed.
Context {NTS : NumberToString} {reading : RegionReading} {errors : TypeErrors}.

(** As [acts_keep], for a property that some controls do change: it is
    kept by every sequence of the other actions. *)
Lemma acts_keep_but (P : AppState -> Prop) (changes : Action -> bool) :
  (forall st a s, changes a = false -> P s -> P (setters (wired st a) s)) ->
  (forall st a w, awaits (wired st a) = Some w -> keeps P w) ->
  forall l p,
    forallb (fun a => negb (changes a)) l = true ->
    P (shown p) -> Forall (keeps P) (suspended p) ->
    P (shown (acts p l)).
Proof.
  intros Hset Hres. induction l as [|a l IH]; intros p Hl Hp Hw; [exact Hp|].
  cbn [forallb] in Hl. apply andb_true_iff in Hl as [Ha Hl].
  apply negb_true_iff in Ha.
  unfold acts. cbn [fold_left]. apply IH; [exact Hl| |].
  - destruct a; try (cbn [act invoke shown]; apply Hset; [exact Ha | exact Hp]).
    + cbn [act]. destruct (nth_error (suspended p) n) as [[r k|c k]|] eqn:Hn;
        try exact Hp.
      cbn [shown]. apply (nth_error_Forall _ _ _ _ Hw Hn); [now exists o | exact Hp].
    + cbn [act]. destruct (nth_error (suspended p) n) as [[r k|c k]|] eqn:Hn;
        try exact Hp.
      cbn [shown]. apply (nth_error_Forall _ _ _ _ Hw Hn); [now exists settled | exact Hp].
  - destruct a;
      try (cbn [act invoke suspended];
           destruct (awaits (wired (shown p) _)) as [w|] eqn:Ew; [|exact Hw];
           apply Forall_app; split; [exact Hw|];
           constructor; [exact (Hres _ _ _ Ew) | constructor]).
    + cbn [act]. destruct (nth_error (suspended p) n) as [[r k|c k]|]; try exact Hw.
      cbn [suspended]. now apply Forall_without.
    + cbn [act]. destruct (nth_error (suspended p) n) as [[r k|c k]|]; try exact Hw.
      cbn [suspended]. now apply Forall_without.
Qed.

(** Whatever was done before, every suspended invocation keeps a
    property that whatever a handler runs after its await keeps. *)
Lemma suspended_keep (P : AppState -> Prop) :
  (forall st a w, awaits (wired st a) = Some w -> keeps P w) ->
  forall l p, Forall (keeps P) (suspended p) -> Forall (keeps P) (suspended (acts p l)).
Proof.
  intros Hres. induction l as [|a l IH]; intros p Hw; [exact Hw|].
  unfold acts. cbn [fold_left]. apply IH.
  destruct a;
    try (cbn [act invoke suspended];
         destruct (awaits (wired (shown p) _)) as [w|] eqn:Ew; [|exact Hw];
         apply Forall_app; split; [exact Hw|];
         constructor; [exact (Hres _ _ _ Ew) | constructor]).
  - cbn [act]. destruct (nth_error (suspended p) n) as [[r k|c k]|]; try exact Hw.
    cbn [suspended]. now apply Forall_without.
  - cbn [act]. destruct (nth_error (suspended p) n) as [[r k|c k]|]; try exact Hw.
    cbn [suspended]. now apply Forall_without.
Qed.

Ltac frame_of_setters :=
  let a := fresh "a" in
  intros ? a ? ? ?; destruct a; try discriminate; follow_handler; cbn; assumption.

Ltac frame_of_awaits :=
  let a := fresh "a" in
  intros ? a ?; unfold keeps;
  destruct a; follow_handler; cbn [awaits]; try discriminate;
  intros [= <-] ? [? ->] ? ?;
  repeat match goal with
         | |- context [match ?c with _ => _ end] => destruct c
         end; cbn; assumption.

(** X19. No handler and nothing a handler runs after its await touches
    what the user typed or chose: after any history, through any further
    actions other than typing in the textarea concerned, the custom
    prompt is what it was, and so is the background prompt; and the
    background mode changes only by a click on one of its two buttons.
    Clearing the image, reading in another, a quick action (which sends a
    synthesized prompt) or a failed request leave the custom prompt
    alone. *)
Theorem typed_text_is_kept (st : AppState) (history further : list Action) :
  let p := acts (fresh st) history in
  let q := acts p further in
  (forallb (fun a => negb (types_prompt a)) further = true ->
     prompt (shown q) = prompt (shown p)) /\
  (forallb (fun a => negb (types_background_prompt a)) further = true ->
     backgroundPrompt (shown q) = backgroundPrompt (shown p)) /\
  (forallb (fun a => negb (picks_mode a)) further = true ->
     compositorBgMode (shown q) = compositorBgMode (shown p)).
Proof.
  intros p q. split; [|split]; intros Hl.
  - apply (acts_keep_but (fun s => prompt s = prompt (shown p)) types_prompt
             ltac:(frame_of_setters) ltac:(frame_of_awaits) further p Hl eq_refl).
    apply (suspended_keep (fun s => prompt s = prompt (shown p))
             ltac:(frame_of_awaits) history (fresh st)). constructor.
  - apply (acts_keep_but (fun s => backgroundPrompt s = backgroundPrompt (shown p))
             types_background_prompt
             ltac:(frame_of_setters) ltac:(frame_of_awaits) further p Hl eq_refl).
    apply (suspended_keep (fun s => backgroundPrompt s = backgroundPrompt (shown p))
             ltac:(frame_of_awaits) history (fresh st)). constructor.
  - apply (acts_keep_but (fun s => compositorBgMode s = compositorBgMode (shown p))
             picks_mode
             ltac:(frame_of_setters) ltac:(frame_of_awaits) further p Hl eq_refl).
    apply (suspended_keep (fun s => compositorBgMode s = compositorBgMode (shown p))
             ltac:(frame_of_awaits) history (fresh st)). constructor.
Qed.

End Typed.

Lemma typed_text_is_kept_witness :
  let history := [ChooseFile (Some {| fileType := "image/jpeg" |});
                  PromiseSettles 0 (Normal "data:image/jpeg;base64,AAAA");
                  TypePrompt "make it blue"; ClickGenerate] in
  let further := [ClickClear; ContentSettles 0 (Rejected NonError);
                  ChooseFile (Some {| fileType := "image/png" |});
                  PromiseSettles 0 (Normal "data:image/png;base64,BBBB");
                  ClickQuickAction sketch] in
  forallb (fun a => negb (types_prompt a)) further = true /\
  prompt (shown (@acts binary_toString listed_regions engine_errors
                   (@acts binary_toString listed_regions engine_errors (fresh initialState) history)
                   further)) = "make it blue".
Proof.
  split; [reflexivity|].
  exact (proj1 (@typed_text_is_kept binary_toString listed_regions engine_errors initialState
                  [ChooseFile (Some {| fileType := "image/jpeg" |});
                   PromiseSettles 0 (Normal "data:image/jpeg;base64,AAAA");
                   TypePrompt "make it blue"; ClickGenerate]
                  [ClickClear; ContentSettles 0 (Rejected NonError);
                   ChooseFile (Some {| fileType := "image/png" |});
                   PromiseSettles 0 (Normal "data:image/png;base64,BBBB");
                   ClickQuickAction sketch]) eq_refl).
Defined.
